(** * FinOps automation system: the decision logic of the lambdas

    The repository is six AWS Lambda handlers written in Python.  This file
    embeds the functions that decide what the system does (cleanup executor,
    cost analyzer, resource scanner, tag enforcer, report generator) and
    proves properties of them.

    Conventions of the embedding:
    - Python [str] is [string]; a [list] is a [list]; a [dict] with
      string keys is a [gmap], or a record when its keys are fixed, or a
      list of pairs when it is a literal that is only stored.
    - Python [float] is the primitive binary64 [float]; an [int] is a [Z];
      a value that is one or the other at run time is a [pynum].
    - An exception is a value of [Exn]; code that can raise and that talks
      to AWS runs in [M S], a state-and-exception monad over the state [S]
      of the external services it touches.
    - The external services (boto3 clients, the clock) are a [World]: a
      record of oracles answering each call.  [print] only writes to the
      log and is not modelled. *)

From Stdlib Require Import PrimFloat Uint63 ZArith String List Ascii Bool Lia.
From stdpp Require Import gmap strings pretty.

Set Warnings "-inexact-float".
Set Default Proof Using "Type".

(** ** Python prelude *)

Module Py.

(** Exceptions, by class.  [ClientError] stands for whatever a boto3 call
    raises; its argument is [str(e)]. *)
Inductive Exn :=
| ZeroDivisionError
| IndexError
| KeyError (key : string)
| ReError (pattern : string)
| ClientError (msg : string).

Definition str (e : Exn) : string :=
  match e with
  | ZeroDivisionError => "division by zero"
  | IndexError => "list index out of range"
  | KeyError k => "'" +:+ k +:+ "'"
  | ReError p => "bad pattern " +:+ p
  | ClientError m => m
  end.

(** *** The state-and-exception monad *)

Definition M (S A : Type) : Type := S -> (Exn + A) * S.

Definition ret {S A} (a : A) : M S A := fun st => (inr a, st).

Definition bind {S A B} (m : M S A) (k : A -> M S B) : M S B :=
  fun st =>
    match m st with
    | (inl e, st') => (inl e, st')
    | (inr a, st') => k a st'
    end.

(** [try: m  except Exception as e: h e] *)
Definition try_except {S A} (m : M S A) (h : Exn -> M S A) : M S A :=
  fun st =>
    match m st with
    | (inl e, st') => h e st'
    | (inr a, st') => (inr a, st')
    end.

(** A pure computation that may raise, run inside the monad. *)
Definition lift {S A} (r : Exn + A) : M S A := fun st => (r, st).

Definition get {S} : M S S := fun st => (inr st, st).

(** [for x in l: body x] *)
Fixpoint for_each {S A} (l : list A) (body : A -> M S unit) : M S unit :=
  match l with
  | [] => ret tt
  | x :: l' => bind (body x) (fun _ => for_each l' body)
  end.

(** *** Numbers *)

Inductive pynum :=
| PyInt (z : Z)
| PyFloat (f : float).

(** [float(z)] for an [int] that fits a machine word. *)
Definition float_of_Z (z : Z) : float :=
  if (z <? 0)%Z then PrimFloat.opp (PrimFloat.of_uint63 (Uint63.of_Z (- z)))
  else PrimFloat.of_uint63 (Uint63.of_Z z).

Definition to_float (x : pynum) : float :=
  match x with
  | PyInt z => float_of_Z z
  | PyFloat f => f
  end.

Definition is_zero (x : pynum) : bool :=
  match x with
  | PyInt z => (z =? 0)%Z
  | PyFloat f => PrimFloat.eqb f 0%float
  end.

Definition sub (x y : pynum) : pynum :=
  match x, y with
  | PyInt a, PyInt b => PyInt (a - b)
  | _, _ => PyFloat (PrimFloat.sub (to_float x) (to_float y))
  end.

Definition add (x y : pynum) : pynum :=
  match x, y with
  | PyInt a, PyInt b => PyInt (a + b)
  | _, _ => PyFloat (PrimFloat.add (to_float x) (to_float y))
  end.

Definition mul (x y : pynum) : pynum :=
  match x, y with
  | PyInt a, PyInt b => PyInt (a * b)
  | _, _ => PyFloat (PrimFloat.mul (to_float x) (to_float y))
  end.

(** [x / y]: true division raises on a zero divisor, whether [int] or
    [float], and otherwise yields a [float]. *)
Definition truediv (x y : pynum) : Exn + pynum :=
  if is_zero y then inl ZeroDivisionError
  else inr (PyFloat (PrimFloat.div (to_float x) (to_float y))).

Definition abs (x : pynum) : pynum :=
  match x with
  | PyInt z => PyInt (Z.abs z)
  | PyFloat f => PyFloat (PrimFloat.abs f)
  end.

(** [x < y] and [x > y]; a comparison with NaN is false. *)
Definition lt (x y : pynum) : bool :=
  match x, y with
  | PyInt a, PyInt b => (a <? b)%Z
  | _, _ => PrimFloat.ltb (to_float x) (to_float y)
  end.

Definition gt (x y : pynum) : bool := lt y x.

(** [sum(l)]: the accumulator starts as the [int] 0 and becomes a
    [float] with the first item, added left to right.  (CPython 3.12 and
    later compensate the rounding error of this sum; no property below
    depends on the rounding.) *)
Definition sum (l : list float) : pynum :=
  fold_left (fun acc f => add acc (PyFloat f)) l (PyInt 0).

(** [len(l)] *)
Definition len {A} (l : list A) : pynum := PyInt (Z.of_nat (length l)).

(** [round(z, ndigits)] of an [int] with [ndigits >= 0] is that [int]. *)
Definition round_int (z : Z) (ndigits : nat) : Z := z.

(** *** Sequences and strings *)

(** [l[:-k]] and [l[-k:]] for [k > 0]. *)
Definition slice_to_neg {A} (k : nat) (l : list A) : list A :=
  firstn (length l - k) l.

Definition slice_from_neg {A} (k : nat) (l : list A) : list A :=
  skipn (length l - k) l.

(** [s.split(sep)] for a one-character separator. *)
Fixpoint split (sep : ascii) (s : string) : list string :=
  match s with
  | EmptyString => [EmptyString]
  | String c s' =>
      if Ascii.eqb c sep then EmptyString :: split sep s'
      else match split sep s' with
           | [] => [String c EmptyString]
           | p :: ps => String c p :: ps
           end
  end.

(** [sep.join(l)] *)
Fixpoint join (sep : string) (l : list string) : string :=
  match l with
  | [] => EmptyString
  | [x] => x
  | x :: l' => x +:+ sep +:+ join sep l'
  end.

(** [{tag['Key']: tag['Value'] for tag in l}]: a later pair wins. *)
Definition dict_of_pairs (l : list (string * string)) : gmap string string :=
  fold_left (fun d kv => <[kv.1 := kv.2]> d) l ∅.

(** *** The clock

    [now n] is what the n-th call of [datetime.now()] of a run returns,
    in microseconds since the epoch; the formatting functions are those
    of the [datetime] library. *)
Record Clock := {
  now : nat -> Z;
  isoformat : Z -> string;
  strftime : string -> Z -> string
}.

(** [t + timedelta(days=d)] *)
Definition plus_days (t : Z) (d : Z) : Z := (t + d * 86400000000)%Z.

(** [int(t.timestamp())] *)
Definition int_timestamp (t : Z) : Z := (t ÷ 1000000)%Z.

End Py.

Declare Scope py_scope.
Delimit Scope py_scope with py.
Notation "x <- m ;; k" := (Py.bind m (fun x => k))
  (at level 100, m at next level, right associativity) : py_scope.
Notation "m ;;; k" := (Py.bind m (fun _ => k))
  (at level 100, right associativity) : py_scope.

(** ** cleanup-executor/lambda_function.py *)

Module CleanupExecutor.
Import Py.
Local Open Scope py_scope.

(** The slice of a [describe_instances] response the executor reads. *)
Record BlockDeviceMapping := { Ebs : option string (* ['Ebs']['VolumeId'] *) }.
Record Instance := { BlockDeviceMappings : list BlockDeviceMapping }.

(** Calls to the outside, in the order the executor issues them. *)
Inductive Call :=
| StopInstances (instance_id : string)
| DescribeInstances (instance_id : string)
| CreateSnapshot (volume_id description : string)
| WaitSnapshotCompleted (snapshot_id : string)
| TerminateInstances (instance_id : string)
| DeleteVolume (volume_id : string)
| ReleaseAddress (allocation_id : string)
| DeleteSnapshot (snapshot_id : string)
| DeregisterImage (image_id : string)
| DeleteLoadBalancer (lb_arn : string)
| UpdateItem (action_id scheduled_date status executed message : string).

(** The calls that stop, terminate, delete, release or deregister. *)
Definition mutating (c : Call) : bool :=
  match c with
  | StopInstances _ | TerminateInstances _ | DeleteVolume _
  | ReleaseAddress _ | DeleteSnapshot _ | DeregisterImage _
  | DeleteLoadBalancer _ => true
  | DescribeInstances _ | CreateSnapshot _ _ | WaitSnapshotCompleted _
  | UpdateItem _ _ _ _ _ => false
  end.

Definition is_wait (c : Call) : bool :=
  match c with WaitSnapshotCompleted _ => true | _ => false end.

Definition is_delete_volume (c : Call) : bool :=
  match c with DeleteVolume _ => true | _ => false end.

(** The outside world: given the calls made so far, whether the next one
    raises, and what the two calls with a result return. *)
Record World := {
  raises : list Call -> Call -> option Exn;
  reservations : list Call -> string -> list (list Instance);
  new_snapshot_id : list Call -> string -> string;
  clock : Clock
}.

(** An item of the cleanup-actions table: attribute name to value. *)
Inductive AttributeValue :=
| AttrS (s : string)
| AttrN (n : Z).

Record State := {
  trace : list Call;
  table : gmap (string * string) (gmap string AttributeValue);
  ticks : nat
}.

(** A pending action as read from the table; the estimated savings, when
    present, are an amount in hundredths. *)
Record Action := {
  a_action_id : string;
  a_resource_id : string;
  a_resource_type : string;
  a_action_type : string;
  a_estimated_savings : option Z
}.

(** The [result] dictionary threaded through the handlers. *)
Record Result := {
  action_id : string;
  resource_id : string;
  resource_type : string;
  action_type : string;
  success : bool;
  skipped : bool;
  message : string;
  savings : Z
}.

Definition set_success (b : bool) (r : Result) : Result :=
  {| action_id := action_id r; resource_id := resource_id r;
     resource_type := resource_type r; action_type := action_type r;
     success := b; skipped := skipped r; message := message r;
     savings := savings r |}.

Definition set_skipped (b : bool) (r : Result) : Result :=
  {| action_id := action_id r; resource_id := resource_id r;
     resource_type := resource_type r; action_type := action_type r;
     success := success r; skipped := b; message := message r;
     savings := savings r |}.

Definition set_message (m : string) (r : Result) : Result :=
  {| action_id := action_id r; resource_id := resource_id r;
     resource_type := resource_type r; action_type := action_type r;
     success := success r; skipped := skipped r; message := m;
     savings := savings r |}.

Section Executor.
Variable w : World.
Variable DRY_RUN : bool.

(** Issue a call: it is recorded, then it raises or returns. *)
Definition call (c : Call) : M State unit :=
  fun st =>
    let st' := {| trace := trace st ++ [c]; table := table st;
                  ticks := ticks st |} in
    match raises w (trace st) c with
    | Some e => (inl e, st')
    | None => (inr tt, st')
    end.

(** [datetime.now().isoformat()] *)
Definition now_isoformat : M State string :=
  fun st =>
    (inr (isoformat (clock w) (now (clock w) (ticks st))),
     {| trace := trace st; table := table st; ticks := S (ticks st) |}).

(** [ec2.describe_instances(InstanceIds=[instance_id])['Reservations']] *)
Definition describe_instances (instance_id : string)
  : M State (list (list Instance)) :=
  st <- get ;;
  call (DescribeInstances instance_id) ;;;
  ret (reservations w (trace st) instance_id).

(** [ec2.create_snapshot(...)['SnapshotId']] *)
Definition create_snapshot (volume_id description : string)
  : M State string :=
  st <- get ;;
  call (CreateSnapshot volume_id description) ;;;
  ret (new_snapshot_id w (trace st) volume_id).

(** [table.update_item] with [SET #status, executed_at, result_message]:
    an upsert of the three attributes on the item with that key. *)
Definition set_attributes (key : string * string)
    (status executed msg : string)
    (t : gmap (string * string) (gmap string AttributeValue))
  : gmap (string * string) (gmap string AttributeValue) :=
  let item :=
    match t !! key with
    | Some item => item
    | None => <["action_id" := AttrS key.1]>
                (<["scheduled_date" := AttrS key.2]> ∅)
    end in
  <[key := <["status" := AttrS status]>
             (<["executed_at" := AttrS executed]>
                (<["result_message" := AttrS msg]> item))]> t.

Definition update_item (key : string * string)
    (status executed msg : string) : M State unit :=
  call (UpdateItem key.1 key.2 status executed msg) ;;;
  (fun st =>
     (inr tt, {| trace := trace st;
                 table := set_attributes key status executed msg (table st);
                 ticks := ticks st |})).

Definition status_of (result : Result) : string :=
  let status := if success result then "completed" else "failed" in
  if skipped result then "skipped" else status.

Definition update_action_status (action_id : string) (result : Result)
  : M State unit :=
  let status := status_of result in
  let parts := split "-" action_id in
  let scheduled_date := join "-" (firstn 3 parts) in
  executed <- now_isoformat ;;
  update_item (action_id, scheduled_date) status executed (message result).

Definition stop_ec2_instance (instance_id : string) (result : Result)
  : M State Result :=
  if DRY_RUN then
    ret (set_message ("[DRY RUN] Would stop instance " +:+ instance_id)
           (set_success true result))
  else
    try_except
      (call (StopInstances instance_id) ;;;
       ret (set_message ("Successfully stopped instance " +:+ instance_id)
              (set_success true result)))
      (fun e => ret (set_message ("Failed to stop instance: " +:+ str e)
                       result)).

(** [response['Reservations'][0]['Instances'][0]] *)
Definition first_instance (rs : list (list Instance)) : Exn + Instance :=
  match rs with
  | [] => inl IndexError
  | [] :: _ => inl IndexError
  | (i :: _) :: _ => inr i
  end.

Definition snapshot_attached (instance_id : string)
    (bdm : BlockDeviceMapping) : M State unit :=
  match Ebs bdm with
  | Some volume_id =>
      create_snapshot volume_id
        ("Pre-termination snapshot of " +:+ instance_id) ;;;
      ret tt
  | None => ret tt
  end.

Definition terminate_ec2_instance (instance_id : string) (result : Result)
  : M State Result :=
  if DRY_RUN then
    ret (set_message ("[DRY RUN] Would terminate instance " +:+ instance_id)
           (set_success true result))
  else
    try_except
      (response <- describe_instances instance_id ;;
       instance <- lift (first_instance response) ;;
       for_each (BlockDeviceMappings instance)
         (snapshot_attached instance_id) ;;;
       call (TerminateInstances instance_id) ;;;
       ret (set_message
              ("Successfully terminated instance " +:+ instance_id)
              (set_success true result)))
      (fun e => ret (set_message
                       ("Failed to terminate instance: " +:+ str e)
                       result)).

Definition snapshot_and_delete_volume (volume_id : string)
    (result : Result) : M State Result :=
  if DRY_RUN then
    ret (set_message
           ("[DRY RUN] Would snapshot and delete volume " +:+ volume_id)
           (set_success true result))
  else
    try_except
      (snapshot_id <- create_snapshot volume_id
                        ("Pre-deletion snapshot of " +:+ volume_id) ;;
       call (WaitSnapshotCompleted snapshot_id) ;;;
       call (DeleteVolume volume_id) ;;;
       ret (set_message
              ("Snapshotted (" +:+ snapshot_id +:+ ") and deleted volume "
                 +:+ volume_id)
              (set_success true result)))
      (fun e => ret (set_message
                       ("Failed to snapshot/delete volume: " +:+ str e)
                       result)).

Definition delete_volume (volume_id : string) (result : Result)
  : M State Result :=
  if DRY_RUN then
    ret (set_message ("[DRY RUN] Would delete volume " +:+ volume_id)
           (set_success true result))
  else
    try_except
      (call (DeleteVolume volume_id) ;;;
       ret (set_message ("Successfully deleted volume " +:+ volume_id)
              (set_success true result)))
      (fun e => ret (set_message ("Failed to delete volume: " +:+ str e)
                       result)).

Definition release_elastic_ip (allocation_id : string) (result : Result)
  : M State Result :=
  if DRY_RUN then
    ret (set_message
           ("[DRY RUN] Would release Elastic IP " +:+ allocation_id)
           (set_success true result))
  else
    try_except
      (call (ReleaseAddress allocation_id) ;;;
       ret (set_message
              ("Successfully released Elastic IP " +:+ allocation_id)
              (set_success true result)))
      (fun e => ret (set_message
                       ("Failed to release Elastic IP: " +:+ str e)
                       result)).

Definition delete_snapshot (snapshot_id : string) (result : Result)
  : M State Result :=
  if DRY_RUN then
    ret (set_message ("[DRY RUN] Would delete snapshot " +:+ snapshot_id)
           (set_success true result))
  else
    try_except
      (call (DeleteSnapshot snapshot_id) ;;;
       ret (set_message ("Successfully deleted snapshot " +:+ snapshot_id)
              (set_success true result)))
      (fun e => ret (set_message ("Failed to delete snapshot: " +:+ str e)
                       result)).

Definition deregister_ami (ami_id : string) (result : Result)
  : M State Result :=
  if DRY_RUN then
    ret (set_message ("[DRY RUN] Would deregister AMI " +:+ ami_id)
           (set_success true result))
  else
    try_except
      (call (DeregisterImage ami_id) ;;;
       ret (set_message ("Successfully deregistered AMI " +:+ ami_id)
              (set_success true result)))
      (fun e => ret (set_message ("Failed to deregister AMI: " +:+ str e)
                       result)).

Definition delete_load_balancer (lb_arn : string) (result : Result)
  : M State Result :=
  if DRY_RUN then
    ret (set_message ("[DRY RUN] Would delete load balancer " +:+ lb_arn)
           (set_success true result))
  else
    try_except
      (call (DeleteLoadBalancer lb_arn) ;;;
       ret (set_message
              ("Successfully deleted load balancer " +:+ lb_arn)
              (set_success true result)))
      (fun e => ret (set_message
                       ("Failed to delete load balancer: " +:+ str e)
                       result)).

(** The body of the [try] of [execute_cleanup_action] up to the status
    update: an if/elif chain on the resource type, each arm an if/elif
    chain on the action type with no [else]. *)
Definition dispatch (resource_id resource_type action_type : string)
    (result : Result) : M State Result :=
  if String.eqb resource_type "ec2_instance" then
    if String.eqb action_type "stop" then
      stop_ec2_instance resource_id result
    else if String.eqb action_type "terminate" then
      terminate_ec2_instance resource_id result
    else ret result
  else if String.eqb resource_type "ebs_volume" then
    if String.eqb action_type "snapshot_and_delete" then
      snapshot_and_delete_volume resource_id result
    else if String.eqb action_type "delete" then
      delete_volume resource_id result
    else ret result
  else if String.eqb resource_type "elastic_ip" then
    if String.eqb action_type "release" then
      release_elastic_ip resource_id result
    else ret result
  else if String.eqb resource_type "snapshot" then
    if String.eqb action_type "delete" then
      delete_snapshot resource_id result
    else ret result
  else if String.eqb resource_type "ami" then
    if String.eqb action_type "deregister" then
      deregister_ami resource_id result
    else ret result
  else if String.eqb resource_type "load_balancer" then
    if String.eqb action_type "delete" then
      delete_load_balancer resource_id result
    else ret result
  else
    ret (set_message ("Unsupported resource type: " +:+ resource_type)
           (set_skipped true result)).

(** The [policies] argument is not read by the function and is left
    out.  The [except] clause writes [str(e)] into the same dictionary
    the handlers have filled in. *)
Definition execute_cleanup_action (action : Action) : M State Result :=
  let resource_id := a_resource_id action in
  let resource_type := a_resource_type action in
  let action_type := a_action_type action in
  let result :=
    {| action_id := a_action_id action;
       resource_id := resource_id;
       resource_type := resource_type;
       action_type := action_type;
       success := false;
       skipped := false;
       message := "";
       savings := default 0%Z (a_estimated_savings action) |} in
  fun st =>
    match dispatch resource_id resource_type action_type result st with
    | (inl e, st1) => (inr (set_message (str e) result), st1)
    | (inr result', st1) =>
        match update_action_status (a_action_id action) result' st1 with
        | (inl e, st2) => (inr (set_message (str e) result'), st2)
        | (inr _, st2) => (inr result', st2)
        end
    end.

(** The three lists [lambda_handler] sorts the results into. *)
Record Results := {
  executed : list Result;
  failed : list Result;
  skipped_results : list Result
}.

Definition file_result (result : Result) (results : Results) : Results :=
  if success result then
    {| executed := executed results ++ [result];
       failed := failed results;
       skipped_results := skipped_results results |}
  else if skipped result then
    {| executed := executed results;
       failed := failed results;
       skipped_results := skipped_results results ++ [result] |}
  else
    {| executed := executed results;
       failed := failed results ++ [result];
       skipped_results := skipped_results results |}.

(** [for action in pending_actions: ...] of [lambda_handler] *)
Fixpoint execute_all (pending_actions : list Action) (results : Results)
  : M State Results :=
  match pending_actions with
  | [] => ret results
  | action :: rest =>
      result <- execute_cleanup_action action ;;
      execute_all rest (file_result result results)
  end.

End Executor.

(** The pairs for which [dispatch] calls a handler. *)
Definition dispatch_table : list (string * string) :=
  [ ("ec2_instance", "stop"); ("ec2_instance", "terminate");
    ("ebs_volume", "snapshot_and_delete"); ("ebs_volume", "delete");
    ("elastic_ip", "release"); ("snapshot", "delete");
    ("ami", "deregister"); ("load_balancer", "delete") ].

(** What the table holds for an action after a run. *)
Definition stored (st : State) (action_id : string) (attribute : string)
  : option AttributeValue :=
  item ← table st !! (action_id, join "-" (firstn 3 (split "-" action_id)));
  item !! attribute.

End CleanupExecutor.

(** ** cost-analyzer/lambda_function.py *)

Module CostAnalyzer.
Import Py.
Local Open Scope py_scope.

Record DailyCost := { date : string; cost : float }.

Record CostData := {
  daily_costs : list DailyCost;
  total_cost : pynum;
  period_days : Z
}.

Record Anomaly := {
  anomaly_date : string;
  anomaly_cost : float;
  baseline : pynum;
  deviation_percentage : pynum;
  severity : string
}.

(** An item of the anomalies table.  The three amounts are stored as
    [Decimal(str(x))]; the embedding keeps the number itself. *)
Record AnomalyItem := {
  anomaly_id : string;
  detected_date : string;
  item_cost : float;
  item_baseline : pynum;
  item_deviation_percentage : pynum;
  item_severity : string;
  item_status : string;
  detected_at : string;
  ttl : Z
}.

Record World := {
  put_item_raises : list AnomalyItem -> AnomalyItem -> option Exn;
  clock : Clock
}.

(** The items written so far, oldest first, and the clock readings used. *)
Record State := {
  table : list AnomalyItem;
  ticks : nat
}.

Section Analyzer.
Variable w : World.
Variable THRESHOLD_PERCENTAGE : float.

(** [datetime.now()] *)
Definition datetime_now : M State Z :=
  fun st => (inr (now (clock w) (ticks st)),
             {| table := table st; ticks := S (ticks st) |}).

Definition put_item (item : AnomalyItem) : M State unit :=
  fun st =>
    match put_item_raises w (table st) item with
    | Some e => (inl e, st)
    | None => (inr tt, {| table := table st ++ [item]; ticks := ticks st |})
    end.

Definition save_anomaly (anomaly : Anomaly) : M State unit :=
  t1 <- datetime_now ;;
  let anomaly_id :=
    anomaly_date anomaly +:+ "-" +:+ pretty (int_timestamp t1) in
  t2 <- datetime_now ;;
  let ttl := int_timestamp (plus_days t2 30) in
  t3 <- datetime_now ;;
  put_item {| anomaly_id := anomaly_id;
              detected_date := anomaly_date anomaly;
              item_cost := anomaly_cost anomaly;
              item_baseline := baseline anomaly;
              item_deviation_percentage := deviation_percentage anomaly;
              item_severity := severity anomaly;
              item_status := "new";
              detected_at := isoformat (clock w) t3;
              ttl := ttl |}.

(** [((cost - baseline_avg) / baseline_avg) * 100] *)
Definition deviation_of (cost : float) (baseline_avg : pynum) : Exn + pynum :=
  match truediv (sub (PyFloat cost) baseline_avg) baseline_avg with
  | inl e => inl e
  | inr q => inr (mul q (PyInt 100))
  end.

(** [sum(baseline_costs) / len(baseline_costs)] over [daily_costs[:-7]] *)
Definition baseline_of (daily_costs : list DailyCost) : Exn + pynum :=
  let baseline_costs := map cost (slice_to_neg 7 daily_costs) in
  truediv (sum baseline_costs) (len baseline_costs).

(** [for day in daily_costs[-7:]: ...], with the list of anomalies found
    so far. *)
Fixpoint check_days (days : list DailyCost) (baseline_avg : pynum)
    (anomalies : list Anomaly) : M State (list Anomaly) :=
  match days with
  | [] => ret anomalies
  | day :: rest =>
      deviation <- lift (deviation_of (cost day) baseline_avg) ;;
      if gt (abs deviation) (PyFloat THRESHOLD_PERCENTAGE) then
        let anomaly :=
          {| anomaly_date := date day;
             anomaly_cost := cost day;
             baseline := baseline_avg;
             deviation_percentage := deviation;
             severity := if gt (abs deviation) (PyInt 50)
                         then "high" else "medium" |} in
        save_anomaly anomaly ;;;
        check_days rest baseline_avg (anomalies ++ [anomaly])
      else
        check_days rest baseline_avg anomalies
  end.

Definition detect_anomalies (cost_data : CostData) : M State (list Anomaly) :=
  let daily_costs := daily_costs cost_data in
  if (length daily_costs <? 7)%nat then ret []
  else
    baseline_avg <- lift (baseline_of daily_costs) ;;
    check_days (slice_from_neg 7 daily_costs) baseline_avg [].

End Analyzer.

End CostAnalyzer.

(** ** resource-scanner/lambda_function.py (EC2 and RDS scans) *)

Module ResourceScanner.
Import Py.
Local Open Scope py_scope.

Record Datapoint := { Average : float }.

(** The fields of a described instance that the scan reads.  [Tags] is
    [instance.get('Tags', [])] as (Key, Value) pairs; times are
    microseconds since the epoch. *)
Record EC2Instance := {
  InstanceId : string;
  Tags : list (string * string);
  InstanceType : string;
  LaunchTime : Z;
  StateName : string
}.

Record DBInstance := {
  DBInstanceIdentifier : string;
  DBInstanceClass : string;
  Engine : string;
  InstanceCreateTime : Z
}.

Inductive MetaValue :=
| MetaNum (x : pynum)
| MetaStr (s : string).

(** An item of the idle-resources table. *)
Record IdleItem := {
  item_resource_id : string;
  scan_date : string;
  item_resource_type : string;
  metadata : list (string * MetaValue);
  scanned_at : string;
  ttl : Z
}.

Record EC2Finding := {
  resource_id : string;
  resource_type : string;
  instance_type : string;
  launch_time : string;
  cpu_average : pynum;
  state : string;
  tags : gmap string string;
  estimated_monthly_cost : pynum
}.

Record RDSFinding := {
  rds_resource_id : string;
  rds_resource_type : string;
  instance_class : string;
  engine : string;
  create_time : string;
  connections_average : pynum;
  rds_estimated_monthly_cost : pynum
}.

(** The outside world of a scan.  [get_metric_statistics] takes the
    namespace, the metric name, the dimension value and the start and
    end times; [round_float] is the builtin [round(x, ndigits)] on a
    [float]. *)
Record World := {
  describe_running_instances : Exn + list (list EC2Instance);
  describe_db_instances : Exn + list DBInstance;
  get_metric_statistics :
    string -> string -> string -> Z -> Z -> Exn + list Datapoint;
  put_item_raises :
    gmap (string * string) IdleItem -> IdleItem -> option Exn;
  round_float : float -> nat -> float;
  clock : Clock
}.

(** The idle-resources table, keyed by (resource_id, scan_date), and the
    clock readings used. *)
Record State := {
  table : gmap (string * string) IdleItem;
  ticks : nat
}.

Section Scanner.
Variable w : World.

Definition datetime_now : M State Z :=
  fun st => (inr (now (clock w) (ticks st)),
             {| table := table st; ticks := S (ticks st) |}).

Definition put_item (item : IdleItem) : M State unit :=
  fun st =>
    match put_item_raises w (table st) item with
    | Some e => (inl e, st)
    | None =>
        (inr tt,
         {| table := <[(item_resource_id item, scan_date item) := item]>
                       (table st);
            ticks := ticks st |})
    end.

(** Both metric readers return 0 when the query raises or returns no
    datapoint. *)
Definition get_cpu_utilization (instance_id : string) (days : Z)
  : M State pynum :=
  try_except
    (end_time <- datetime_now ;;
     let start_time := plus_days end_time (- days) in
     datapoints <- lift (get_metric_statistics w "AWS/EC2" "CPUUtilization"
                           instance_id start_time end_time) ;;
     match datapoints with
     | [] => ret (PyInt 0)
     | _ :: _ =>
         avg <- lift (truediv (sum (map Average datapoints))
                        (len datapoints)) ;;
         ret (PyFloat (round_float w (to_float avg) 2))
     end)
    (fun _ => ret (PyInt 0)).

Definition get_rds_connections (db_id : string) (days : Z) : M State pynum :=
  try_except
    (end_time <- datetime_now ;;
     let start_time := plus_days end_time (- days) in
     datapoints <- lift (get_metric_statistics w "AWS/RDS"
                           "DatabaseConnections" db_id start_time end_time) ;;
     match datapoints with
     | [] => ret (PyInt 0)
     | _ :: _ =>
         avg <- lift (truediv (sum (map Average datapoints))
                        (len datapoints)) ;;
         ret (PyFloat (round_float w (to_float avg) 2))
     end)
    (fun _ => ret (PyInt 0)).

Definition estimate_ec2_cost (instance_type : string) : pynum :=
  if String.eqb instance_type "t2.micro" then PyFloat 8.47
  else if String.eqb instance_type "t2.small" then PyFloat 16.93
  else if String.eqb instance_type "t2.medium" then PyFloat 33.87
  else if String.eqb instance_type "t3.micro" then PyFloat 7.59
  else if String.eqb instance_type "t3.small" then PyFloat 15.18
  else if String.eqb instance_type "t3.medium" then PyFloat 30.37
  else PyInt 50.

Definition estimate_rds_cost (instance_class : string) : pynum :=
  if String.eqb instance_class "db.t2.micro" then PyFloat 14.60
  else if String.eqb instance_class "db.t2.small" then PyFloat 29.20
  else if String.eqb instance_class "db.t3.micro" then PyFloat 13.14
  else if String.eqb instance_class "db.t3.small" then PyFloat 26.28
  else PyInt 50.

Definition save_idle_resource (resource_id resource_type : string)
    (metadata : list (string * MetaValue)) : M State unit :=
  t1 <- datetime_now ;;
  let scan_date := strftime (clock w) "%Y-%m-%d" t1 in
  t2 <- datetime_now ;;
  let ttl := int_timestamp (plus_days t2 30) in
  t3 <- datetime_now ;;
  put_item {| item_resource_id := resource_id;
              scan_date := scan_date;
              item_resource_type := resource_type;
              metadata := metadata;
              scanned_at := isoformat (clock w) t3;
              ttl := ttl |}.

(** A scan appends to a local list inside a [try]; what was appended
    before an exception is still returned.  The loop therefore runs over
    the store together with the list. *)
Definition on_store {L A} (m : M State A) : M (State * L) A :=
  fun sl =>
    match m sl.1 with
    | (r, st') => (r, (st', sl.2))
    end.

Definition append {L} (x : L) : M (State * list L) unit :=
  fun sl => (inr tt, (sl.1, sl.2 ++ [x])).

(** ['DoNotStop' in tags or tags.get('Environment') == 'Production'] *)
Definition exempt (tags : gmap string string) : bool :=
  bool_decide (is_Some (tags !! "DoNotStop"))
  || bool_decide (tags !! "Environment" = Some "Production").

(** The body of the loop over the instances of a reservation. *)
Definition scan_instance (instance : EC2Instance)
  : M (State * list EC2Finding) unit :=
  let instance_id := InstanceId instance in
  let tags := dict_of_pairs (Tags instance) in
  if exempt tags then ret tt
  else
    cpu_avg <- on_store (get_cpu_utilization instance_id 7) ;;
    if lt cpu_avg (PyInt 5) then
      append {| resource_id := instance_id;
                resource_type := "ec2_instance";
                instance_type := InstanceType instance;
                launch_time := isoformat (clock w) (LaunchTime instance);
                cpu_average := cpu_avg;
                state := StateName instance;
                tags := tags;
                estimated_monthly_cost :=
                  estimate_ec2_cost (InstanceType instance) |} ;;;
      on_store (save_idle_resource instance_id "ec2_instance"
                  [("cpu_average", MetaNum cpu_avg);
                   ("instance_type", MetaStr (InstanceType instance))])
    else ret tt.

Definition scan_idle_ec2_instances : M State (list EC2Finding) :=
  fun st =>
    let body : M (State * list EC2Finding) unit :=
      reservations <- lift (describe_running_instances w) ;;
      for_each reservations
        (fun reservation => for_each reservation scan_instance) in
    match try_except body (fun _ => ret tt) (st, []) with
    | (_, (st', idle_instances)) => (inr idle_instances, st')
    end.

(** The body of the loop over the database instances. *)
Definition scan_db_instance (db_instance : DBInstance)
  : M (State * list RDSFinding) unit :=
  let db_id := DBInstanceIdentifier db_instance in
  connections <- on_store (get_rds_connections db_id 7) ;;
  if lt connections (PyInt 1) then
    append {| rds_resource_id := db_id;
              rds_resource_type := "rds_instance";
              instance_class := DBInstanceClass db_instance;
              engine := Engine db_instance;
              create_time :=
                isoformat (clock w) (InstanceCreateTime db_instance);
              connections_average := connections;
              rds_estimated_monthly_cost :=
                estimate_rds_cost (DBInstanceClass db_instance) |} ;;;
    on_store (save_idle_resource db_id "rds_instance"
                [("connections_average", MetaNum connections);
                 ("instance_class",
                  MetaStr (DBInstanceClass db_instance))])
  else ret tt.

Definition scan_idle_rds_instances : M State (list RDSFinding) :=
  fun st =>
    let body : M (State * list RDSFinding) unit :=
      db_instances <- lift (describe_db_instances w) ;;
      for_each db_instances scan_db_instance in
    match try_except body (fun _ => ret tt) (st, []) with
    | (_, (st', idle_rds)) => (inr idle_rds, st')
    end.

End Scanner.

End ResourceScanner.

(** ** tag-enforcer/lambda_function.py (the compliance check) *)

Module TagEnforcer.
Import Py.

(** A rule of [policies['required_tags']]; [pattern] is present or not. *)
Record RequiredTag := {
  key : string;
  values : list string;
  pattern : option string
}.

(** An entry of [invalid_tags]: the value is not among the allowed ones,
    or it does not match the pattern. *)
Inductive InvalidTag :=
| NotAllowed (key value : string) (allowed_values : list string)
| NoMatch (key value pattern : string).

Definition invalid_key (i : InvalidTag) : string :=
  match i with
  | NotAllowed k _ _ => k
  | NoMatch k _ _ => k
  end.

Record Compliance := {
  compliant : bool;
  missing_tags : list string;
  invalid_tags : list InvalidTag
}.

Section Checker.

(** [re.match(pattern, value)]: whether there is a match, or the error
    raised for a pattern that does not compile. *)
Variable re_match : string -> string -> Exn + bool.

(** One turn of the loop over the rules, on the two lists built so far. *)
Definition check_rule (tags : gmap string string) (required_tag : RequiredTag)
    (acc : list string * list InvalidTag)
  : Exn + (list string * list InvalidTag) :=
  let '(missing_tags, invalid_tags) := acc in
  let tag_key := key required_tag in
  match tags !! tag_key with
  | None => inr (missing_tags ++ [tag_key], invalid_tags)
  | Some tag_value =>
      let invalid_tags :=
        if negb (bool_decide (values required_tag = []))
           && negb (bool_decide (tag_value ∈ values required_tag))
        then invalid_tags
               ++ [NotAllowed tag_key tag_value (values required_tag)]
        else invalid_tags in
      match pattern required_tag with
      | None => inr (missing_tags, invalid_tags)
      | Some p =>
          match re_match p tag_value with
          | inl e => inl e
          | inr true => inr (missing_tags, invalid_tags)
          | inr false =>
              inr (missing_tags, invalid_tags ++ [NoMatch tag_key tag_value p])
          end
      end
  end.

Fixpoint check_rules (tags : gmap string string)
    (required_tags : list RequiredTag) (acc : list string * list InvalidTag)
  : Exn + (list string * list InvalidTag) :=
  match required_tags with
  | [] => inr acc
  | required_tag :: rest =>
      match check_rule tags required_tag acc with
      | inl e => inl e
      | inr acc' => check_rules tags rest acc'
      end
  end.

Definition check_resource_compliance (tags : gmap string string)
    (required_tags : list RequiredTag) : Exn + Compliance :=
  match check_rules tags required_tags ([], []) with
  | inl e => inl e
  | inr (missing_tags, invalid_tags) =>
      inr {| compliant := (length missing_tags =? 0)%nat
                          && (length invalid_tags =? 0)%nat;
             missing_tags := missing_tags;
             invalid_tags := invalid_tags |}
  end.

End Checker.

End TagEnforcer.

(** ** report-generator/lambda_function.py (the idle-resources summary) *)

Module ReportGenerator.
Import Py.
Local Open Scope py_scope.

Inductive scalar :=
| Num (x : pynum)
| Str (s : string).

(** An item of the idle-resources table as the report reads it: the
    three attributes it looks up, each present or not, and whatever else
    the item holds. *)
Record Item := {
  resource_type : option string;
  resource_id : option string;
  metadata : option (list (string * scalar));
  other_attributes : gmap string scalar
}.

(** [item[k]] *)
Definition subscript {A} (k : string) (field : option A) : Exn + A :=
  match field with
  | Some v => inr v
  | None => inl (KeyError k)
  end.

Record Resource := {
  id : string;
  resource_metadata : list (string * scalar)
}.

Record TypeEntry := { count : Z; resources : list Resource }.

Record Summary := {
  total_idle_resources : Z;
  by_type : gmap string TypeEntry;
  total_savings : Z
}.

Record World := {
  scan : string -> Exn + list Item;
  clock : Clock
}.

(** The report writes nothing; its state is the clock readings used. *)
Definition State : Type := nat.

Section Report.
Variable w : World.

Definition datetime_now : M State Z :=
  fun ticks => (inr (now (clock w) ticks), S ticks).

(** One turn of [for item in response['Items']] on the two locals the
    loop can see. *)
Definition add_item (item : Item) (acc : gmap string TypeEntry * Z)
  : Exn + (gmap string TypeEntry * Z) :=
  let '(resources_by_type, total_savings) := acc in
  match subscript "resource_type" (resource_type item) with
  | inl e => inl e
  | inr rtype =>
      let resources_by_type :=
        match resources_by_type !! rtype with
        | None => <[rtype := {| count := 0; resources := [] |}]>
                    resources_by_type
        | Some _ => resources_by_type
        end in
      let entry :=
        default {| count := 0; resources := [] |}
          (resources_by_type !! rtype) in
      match subscript "resource_id" (resource_id item) with
      | inl e => inl e
      | inr rid =>
          inr (<[rtype :=
                   {| count := count entry + 1;
                      resources :=
                        resources entry
                          ++ [{| id := rid;
                                 resource_metadata :=
                                   default [] (metadata item) |}] |}]>
                 resources_by_type,
               total_savings)
      end
  end.

Fixpoint add_items (items : list Item) (acc : gmap string TypeEntry * Z)
  : Exn + (gmap string TypeEntry * Z) :=
  match items with
  | [] => inr acc
  | item :: rest =>
      match add_item item acc with
      | inl e => inl e
      | inr acc' => add_items rest acc'
      end
  end.

Definition generate_idle_resources_summary : M State Summary :=
  t <- datetime_now ;;
  let cutoff_date := strftime (clock w) "%Y-%m-%d" (plus_days t (-1)) in
  try_except
    (items <- lift (scan w cutoff_date) ;;
     let resources_by_type : gmap string TypeEntry := ∅ in
     let total_savings := 0%Z in
     acc <- lift (add_items items (resources_by_type, total_savings)) ;;
     let '(resources_by_type, total_savings) := acc in
     ret {| total_idle_resources :=
              map_fold (fun _ r n => (n + count r)%Z) 0%Z resources_by_type;
            by_type := resources_by_type;
            total_savings := round_int total_savings 2 |})
    (fun _ =>
       ret {| total_idle_resources := 0; by_type := ∅; total_savings := 0 |}).

End Report.

End ReportGenerator.

(** ** resource-scanner/lambda_function.py (the other resource kinds) *)

Module ResourceScannerKinds.
Import Py ResourceScanner.
Local Open Scope py_scope.

(** The fields of the described resources that the scans read; a field
    read with [.get] or tested with [in] is optional. *)
Record Volume := {
  VolumeId : string;
  VolumeTags : list (string * string);
  CreateTime : Z;
  Size : Z;
  VolumeType : string
}.

Record Address := {
  AssociationId : option string;
  AllocationId : option string;
  PublicIp : string;
  Domain : option string
}.

Record Snapshot := {
  SnapshotId : string;
  SnapshotVolumeId : option string;
  VolumeSize : Z;
  StartTime : Z
}.

Record Image := {
  ImageId : string;
  Name : option string;
  CreationDate : string
}.

Record LoadBalancer := {
  LoadBalancerArn : string;
  LoadBalancerName : string;
  LbType : string;
  Scheme : string;
  CreatedTime : Z
}.

(** What the describe calls answer.  A target group is its ARN, a target
    its health state; [strptime] is [datetime.strptime] with the format
    of an image's creation date. *)
Record Inventory := {
  describe_volumes : Exn + list Volume;
  describe_addresses : Exn + list Address;
  describe_snapshots : Exn + list Snapshot;
  describe_images : Exn + list Image;
  strptime : string -> Exn + Z;
  describe_load_balancers : Exn + list LoadBalancer;
  describe_target_groups : string -> Exn + list string;
  describe_target_health : string -> Exn + list string
}.

Record VolumeFinding := {
  v_resource_id : string;
  v_resource_type : string;
  v_size_gb : Z;
  v_volume_type : string;
  v_create_time : string;
  v_days_unattached : Z;
  v_tags : gmap string string;
  v_estimated_monthly_cost : pynum
}.

Record AddressFinding := {
  a_resource_id : string;
  a_resource_type : string;
  a_public_ip : string;
  a_domain : string;
  a_estimated_monthly_cost : pynum
}.

Record SnapshotFinding := {
  s_resource_id : string;
  s_resource_type : string;
  s_volume_id : string;
  s_size_gb : Z;
  s_create_time : string;
  s_age_days : Z;
  s_estimated_monthly_cost : pynum
}.

Record ImageFinding := {
  i_resource_id : string;
  i_resource_type : string;
  i_name : string;
  i_create_time : string;
  i_age_days : Z;
  i_estimated_monthly_cost : pynum
}.

Record LoadBalancerFinding := {
  l_resource_id : string;
  l_resource_type : string;
  l_name : string;
  l_type : string;
  l_scheme : string;
  l_create_time : string;
  l_estimated_monthly_cost : pynum
}.

(** [(later - earlier).days]: the whole days of a [timedelta], rounded
    down.  Times are microseconds on one time line: the function's local
    time is UTC, so a reading with and one without a time zone agree. *)
Definition days_between (later earlier : Z) : Z :=
  ((later - earlier) `div` 86400000000)%Z.

Section Kinds.
Variable w : World.
Variable inv : Inventory.

Definition estimate_ebs_cost (size_gb : Z) (volume_type : string) : pynum :=
  let price_per_gb :=
    if String.eqb volume_type "gp2" then 0.10%float
    else if String.eqb volume_type "gp3" then 0.08%float
    else if String.eqb volume_type "io1" then 0.125%float
    else if String.eqb volume_type "io2" then 0.125%float
    else if String.eqb volume_type "st1" then 0.045%float
    else if String.eqb volume_type "sc1" then 0.015%float
    else 0.10%float in
  PyFloat (round_float w
             (to_float (mul (PyInt size_gb) (PyFloat price_per_gb))) 2).

(** A scan: the [try] around the loop, and the list the loop has filled
    returned whatever happened. *)
Definition scan {F} (body : M (State * list F) unit) : M State (list F) :=
  fun st =>
    match try_except body (fun _ => ret tt) (st, []) with
    | (_, (st', found)) => (inr found, st')
    end.

(** The body of the loop over the volumes. *)
Definition scan_volume (volume : Volume) : M (State * list VolumeFinding) unit :=
  let volume_id := VolumeId volume in
  let tags := dict_of_pairs (VolumeTags volume) in
  if bool_decide (is_Some (tags !! "DoNotDelete")) then ret tt
  else
    let create_time := CreateTime volume in
    t <- on_store (datetime_now w) ;;
    let days_unattached := days_between t create_time in
    if (7 <=? days_unattached)%Z then
      append {| v_resource_id := volume_id;
                v_resource_type := "ebs_volume";
                v_size_gb := Size volume;
                v_volume_type := VolumeType volume;
                v_create_time := isoformat (clock w) create_time;
                v_days_unattached := days_unattached;
                v_tags := tags;
                v_estimated_monthly_cost :=
                  estimate_ebs_cost (Size volume) (VolumeType volume) |} ;;;
      on_store (save_idle_resource w volume_id "ebs_volume"
                  [("size_gb", MetaNum (PyInt (Size volume)));
                   ("days_unattached", MetaNum (PyInt days_unattached))])
    else ret tt.

Definition scan_unattached_ebs_volumes : M State (list VolumeFinding) :=
  scan (volumes <- lift (describe_volumes inv) ;;
        for_each volumes scan_volume).

(** The body of the loop over the addresses. *)
Definition scan_address (address : Address)
  : M (State * list AddressFinding) unit :=
  match AssociationId address with
  | Some _ => ret tt
  | None =>
      let allocation_id :=
        default (PublicIp address) (AllocationId address) in
      append {| a_resource_id := allocation_id;
                a_resource_type := "elastic_ip";
                a_public_ip := PublicIp address;
                a_domain := default "vpc" (Domain address);
                a_estimated_monthly_cost := PyFloat 3.65 |} ;;;
      on_store (save_idle_resource w allocation_id "elastic_ip"
                  [("public_ip", MetaStr (PublicIp address))])
  end.

Definition scan_unassociated_elastic_ips : M State (list AddressFinding) :=
  scan (addresses <- lift (describe_addresses inv) ;;
        for_each addresses scan_address).

(** The body of the loop over the snapshots, given the cutoff date. *)
Definition scan_snapshot (cutoff_date : Z) (snapshot : Snapshot)
  : M (State * list SnapshotFinding) unit :=
  if (StartTime snapshot <? cutoff_date)%Z then
    let snapshot_id := SnapshotId snapshot in
    t <- on_store (datetime_now w) ;;
    let age_days := days_between t (StartTime snapshot) in
    append {| s_resource_id := snapshot_id;
              s_resource_type := "snapshot";
              s_volume_id := default "N/A" (SnapshotVolumeId snapshot);
              s_size_gb := VolumeSize snapshot;
              s_create_time := isoformat (clock w) (StartTime snapshot);
              s_age_days := age_days;
              s_estimated_monthly_cost :=
                mul (PyInt (VolumeSize snapshot)) (PyFloat 0.05) |} ;;;
    on_store (save_idle_resource w snapshot_id "snapshot"
                [("age_days", MetaNum (PyInt age_days));
                 ("size_gb", MetaNum (PyInt (VolumeSize snapshot)))])
  else ret tt.

Definition scan_old_snapshots : M State (list SnapshotFinding) :=
  scan (snapshots <- lift (describe_snapshots inv) ;;
        t <- on_store (datetime_now w) ;;
        let cutoff_date := plus_days t (-90) in
        for_each snapshots (scan_snapshot cutoff_date)).

(** The body of the loop over the images, given the cutoff date. *)
Definition scan_image (cutoff_date : Z) (image : Image)
  : M (State * list ImageFinding) unit :=
  create_date <- lift (strptime inv (CreationDate image)) ;;
  if (create_date <? cutoff_date)%Z then
    let ami_id := ImageId image in
    t <- on_store (datetime_now w) ;;
    let age_days := days_between t create_date in
    append {| i_resource_id := ami_id;
              i_resource_type := "ami";
              i_name := default "N/A" (Name image);
              i_create_time := CreationDate image;
              i_age_days := age_days;
              i_estimated_monthly_cost := PyFloat 0.05 |} ;;;
    on_store (save_idle_resource w ami_id "ami"
                [("age_days", MetaNum (PyInt age_days));
                 ("name", MetaStr (default "N/A" (Name image)))])
  else ret tt.

Definition scan_old_amis : M State (list ImageFinding) :=
  scan (images <- lift (describe_images inv) ;;
        t <- on_store (datetime_now w) ;;
        let cutoff_date := plus_days t (-180) in
        for_each images (scan_image cutoff_date)).

(** [any(t['TargetHealth']['State'] == 'healthy' for t in ...)] *)
Definition any_healthy (states : list string) : bool :=
  existsb (fun state => String.eqb state "healthy") states.

(** The loop over the target groups, which stops at the first group with
    a healthy target: whether one was found. *)
Fixpoint has_healthy_targets (target_groups : list string) : Exn + bool :=
  match target_groups with
  | [] => inr false
  | tg :: rest =>
      match describe_target_health inv tg with
      | inl e => inl e
      | inr states =>
          if any_healthy states then inr true
          else has_healthy_targets rest
      end
  end.

(** The body of the loop over the load balancers. *)
Definition scan_load_balancer (lb : LoadBalancer)
  : M (State * list LoadBalancerFinding) unit :=
  let lb_arn := LoadBalancerArn lb in
  let lb_name := LoadBalancerName lb in
  target_groups <- lift (describe_target_groups inv lb_arn) ;;
  healthy <- lift (has_healthy_targets target_groups) ;;
  if negb healthy then
    append {| l_resource_id := lb_arn;
              l_resource_type := "load_balancer";
              l_name := lb_name;
              l_type := LbType lb;
              l_scheme := Scheme lb;
              l_create_time := isoformat (clock w) (CreatedTime lb);
              l_estimated_monthly_cost :=
                if String.eqb (LbType lb) "application"
                then PyFloat 16.20 else PyFloat 16.20 |} ;;;
    on_store (save_idle_resource w lb_arn "load_balancer"
                [("name", MetaStr lb_name); ("type", MetaStr (LbType lb))])
  else ret tt.

Definition scan_unused_load_balancers : M State (list LoadBalancerFinding) :=
  scan (lbs <- lift (describe_load_balancers inv) ;;
        for_each lbs scan_load_balancer).

End Kinds.

End ResourceScannerKinds.

(** ** tag-enforcer/lambda_function.py (the scans and the handler) *)

Module TagEnforcerScans.
Import Py.
Local Open Scope py_scope.

(** The fields of the described resources that the scans read; [Tags]
    is [.get('Tags', [])] as (Key, Value) pairs.  A bucket is its
    [Name]. *)
Record Instance := {
  InstanceId : string;
  InstanceTags : list (string * string)
}.

Record Volume := {
  VolumeId : string;
  VolumeTags : list (string * string)
}.

Record DBInstance := {
  DBInstanceArn : string;
  DBInstanceIdentifier : string
}.

(** The policies: a dict that has the key ['required_tags'] or not. *)
Record Policies := {
  required_tags : option (list TagEnforcer.RequiredTag)
}.

(** An entry of [results['resources']]. *)
Record Resource := {
  resource_id : string;
  resource_type : string;
  resource_arn : string;
  tags : gmap string string;
  compliant : bool;
  missing_tags : list string;
  invalid_tags : list TagEnforcer.InvalidTag
}.

(** An item of the compliance table. *)
Record ComplianceItem := {
  item_resource_arn : string;
  scan_date : string;
  item_resource_type : string;
  compliance_status : string;
  item_missing_tags : list string;
  item_invalid_tags : list TagEnforcer.InvalidTag;
  scanned_at : string;
  ttl : Z
}.

(** The dict the handler passes to [json.dumps] for its body. *)
Record Body := {
  total_resources : Z;
  compliant_resources : Z;
  compliance_rate : pynum;
  non_compliant_count : Z
}.

(** The outside world of a run.  [get_parameter] is the parameter read
    from the store and parsed by [json.loads]; [region_name] is what
    [boto3.session.Session().region_name] formats to; [round_float] is
    the builtin [round(x, ndigits)] on a [float]. *)
Record World := {
  get_parameter : Exn + Policies;
  describe_instances : Exn + list (list Instance);
  describe_volumes : Exn + list Volume;
  describe_db_instances : Exn + list DBInstance;
  list_tags_for_resource : string -> Exn + list (string * string);
  list_buckets : Exn + list string;
  get_bucket_tagging : string -> Exn + list (string * string);
  region_name : string;
  re_match : string -> string -> Exn + bool;
  put_item_raises : list ComplianceItem -> ComplianceItem -> option Exn;
  publish_raises : string -> string -> option Exn;
  round_float : float -> nat -> float;
  clock : Clock
}.

(** The items put into the compliance table and the (subject, message)
    pairs published to the topic, oldest first, and the clock readings
    used. *)
Record State := {
  writes : list ComplianceItem;
  published : list (string * string);
  ticks : nat
}.

(** What the [try] around a bucket's tag lookup can raise: besides the
    exceptions of the calls, the [NameError] of a name that is not
    bound. *)
Inductive Raised :=
| NameError (name : string)
| Raised_by (e : Exn).

(** A loop that appends to [results['resources']] runs over the state
    together with that list. *)
Definition on_store {L A} (m : M State A) : M (State * L) A :=
  fun sl =>
    match m sl.1 with
    | (r, st') => (r, (st', sl.2))
    end.

Definition append {L} (x : L) : M (State * list L) unit :=
  fun sl => (inr tt, (sl.1, sl.2 ++ [x])).

(** The [try] around the loop of a scan, and [results['resources']]
    returned whatever happened. *)
Definition check_tags (body : M (State * list Resource) unit)
  : M State (list Resource) :=
  fun st =>
    match try_except body (fun _ => ret tt) (st, []) with
    | (_, (st', resources)) => (inr resources, st')
    end.

(** [s.upper()] for a string of ASCII characters, which the resource
    types are. *)
Definition upper_ascii (c : ascii) : ascii :=
  let n := nat_of_ascii c in
  if (97 <=? n)%nat && (n <=? 122)%nat then ascii_of_nat (n - 32) else c.

Fixpoint upper (s : string) : string :=
  match s with
  | EmptyString => EmptyString
  | String c s' => String (upper_ascii c) (upper s')
  end.

(** [s * n] *)
Fixpoint times (s : string) (n : nat) : string :=
  match n with
  | O => EmptyString
  | S n' => s +:+ times s n'
  end.

(** The newline character. *)
Definition nl : string := String "010" EmptyString.

(** [if rtype not in by_type: by_type[rtype] = []] and
    [by_type[rtype].append(resource)]; the dict keeps its keys in the
    order they were first set. *)
Fixpoint group_append (rtype : string) (resource : Resource)
    (by_type : list (string * list Resource))
  : list (string * list Resource) :=
  match by_type with
  | [] => [(rtype, [resource])]
  | (k, resources) :: rest =>
      if String.eqb k rtype then (k, resources ++ [resource]) :: rest
      else (k, resources) :: group_append rtype resource rest
  end.

Section Enforcer.
Variable w : World.

Definition datetime_now : M State Z :=
  fun st => (inr (now (clock w) (ticks st)),
             {| writes := writes st;
                published := published st;
                ticks := S (ticks st) |}).

Definition put_item (item : ComplianceItem) : M State unit :=
  fun st =>
    match put_item_raises w (writes st) item with
    | Some e => (inl e, st)
    | None =>
        (inr tt,
         {| writes := writes st ++ [item];
            published := published st;
            ticks := ticks st |})
    end.

Definition publish (subject message : string) : M State unit :=
  fun st =>
    match publish_raises w subject message with
    | Some e => (inl e, st)
    | None =>
        (inr tt,
         {| writes := writes st;
            published := published st ++ [(subject, message)];
            ticks := ticks st |})
    end.

(** The policies [load_tag_policies] falls back to; their
    ['enforcement'] entries are read nowhere. *)
Definition default_policies : Policies :=
  {| required_tags :=
       Some [ {| TagEnforcer.key := "Environment";
                 TagEnforcer.values :=
                   ["Production"; "Staging"; "Development"];
                 TagEnforcer.pattern := None |};
              {| TagEnforcer.key := "Owner";
                 TagEnforcer.values := [];
                 TagEnforcer.pattern := None |};
              {| TagEnforcer.key := "CostCenter";
                 TagEnforcer.values := [];
                 TagEnforcer.pattern := None |} ] |}.

Definition load_tag_policies : M State Policies :=
  try_except (lift (get_parameter w)) (fun _ => ret default_policies).

(** [policies['required_tags']] *)
Definition subscript_required_tags (policies : Policies)
  : Exn + list TagEnforcer.RequiredTag :=
  match required_tags policies with
  | Some rules => inr rules
  | None => inl (KeyError "required_tags")
  end.

Definition save_compliance_record (resource_id resource_type : string)
    (compliance : TagEnforcer.Compliance) : M State unit :=
  t1 <- datetime_now ;;
  let scan_date := strftime (clock w) "%Y-%m-%d" t1 in
  t2 <- datetime_now ;;
  let ttl := int_timestamp (plus_days t2 90) in
  t3 <- datetime_now ;;
  put_item {| item_resource_arn := resource_type +:+ ":" +:+ resource_id;
              scan_date := scan_date;
              item_resource_type := resource_type;
              compliance_status :=
                if TagEnforcer.compliant compliance then "compliant"
                else "non_compliant";
              item_missing_tags := TagEnforcer.missing_tags compliance;
              item_invalid_tags := TagEnforcer.invalid_tags compliance;
              scanned_at := isoformat (clock w) t3;
              ttl := ttl |}.

(** What every scan does with a resource once it has its tags: check
    them, append the entry, save the record. *)
Definition report (policies : Policies)
    (resource_id resource_type resource_arn : string)
    (tags : gmap string string) : M (State * list Resource) unit :=
  rules <- lift (subscript_required_tags policies) ;;
  compliance <- lift (TagEnforcer.check_resource_compliance (re_match w)
                        tags rules) ;;
  append {| resource_id := resource_id;
            resource_type := resource_type;
            resource_arn := resource_arn;
            tags := tags;
            compliant := TagEnforcer.compliant compliance;
            missing_tags := TagEnforcer.missing_tags compliance;
            invalid_tags := TagEnforcer.invalid_tags compliance |} ;;;
  on_store (save_compliance_record resource_id resource_type compliance).

(** The body of the loop over the instances of a reservation. *)
Definition check_instance (policies : Policies) (instance : Instance)
  : M (State * list Resource) unit :=
  let instance_id := InstanceId instance in
  let tags := dict_of_pairs (InstanceTags instance) in
  report policies instance_id "ec2_instance"
    ("arn:aws:ec2:" +:+ region_name w +:+ "::instance/" +:+ instance_id)
    tags.

Definition check_ec2_tags (policies : Policies) : M State (list Resource) :=
  check_tags
    (reservations <- lift (describe_instances w) ;;
     for_each reservations
       (fun reservation => for_each reservation (check_instance policies))).

(** The body of the loop over the volumes. *)
Definition check_volume (policies : Policies) (volume : Volume)
  : M (State * list Resource) unit :=
  let volume_id := VolumeId volume in
  let tags := dict_of_pairs (VolumeTags volume) in
  report policies volume_id "ebs_volume"
    ("arn:aws:ec2:" +:+ region_name w +:+ "::volume/" +:+ volume_id)
    tags.

Definition check_ebs_tags (policies : Policies) : M State (list Resource) :=
  check_tags
    (volumes <- lift (describe_volumes w) ;;
     for_each volumes (check_volume policies)).

(** The body of the loop over the database instances. *)
Definition check_db_instance (policies : Policies) (db_instance : DBInstance)
  : M (State * list Resource) unit :=
  let db_arn := DBInstanceArn db_instance in
  tag_list <- lift (list_tags_for_resource w db_arn) ;;
  let tags := dict_of_pairs tag_list in
  report policies (DBInstanceIdentifier db_instance) "rds_instance" db_arn
    tags.

Definition check_rds_tags (policies : Policies) : M State (list Resource) :=
  check_tags
    (db_instances <- lift (describe_db_instances w) ;;
     for_each db_instances (check_db_instance policies)).

(** The argument of [get_bucket_tagging(Bucket=bucket_830)]: no
    assignment, parameter or import of the module binds the name
    [bucket_830], so evaluating it raises. *)
Definition bucket_830 : Raised + string := inl (NameError "bucket_830").

(** The inner [try] of the bucket loop, whose bare [except] turns
    whatever was raised into [tags = {}]. *)
Definition bucket_tags (bucket_name : string) : gmap string string :=
  let tags_of_bucket :=
    match bucket_830 with
    | inl raised => inl raised
    | inr bucket =>
        match get_bucket_tagging w bucket with
        | inl e => inl (Raised_by e)
        | inr tag_set => inr (dict_of_pairs tag_set)
        end
    end in
  match tags_of_bucket with
  | inr tags => tags
  | inl _ => ∅
  end.

(** The body of the loop over the buckets. *)
Definition check_bucket (policies : Policies) (bucket_name : string)
  : M (State * list Resource) unit :=
  let tags := bucket_tags bucket_name in
  report policies bucket_name "s3_bucket" ("arn:aws:s3:::" +:+ bucket_name)
    tags.

Definition check_s3_tags (policies : Policies) : M State (list Resource) :=
  check_tags
    (buckets <- lift (list_buckets w) ;;
     for_each buckets (check_bucket policies)).

(** The lines of the message about one resource. *)
Definition resource_lines (resource : Resource) : string :=
  ("Resource: " +:+ resource_id resource +:+ nl)
  +:+ (match missing_tags resource with
       | [] => ""
       | _ :: _ =>
           "  Missing tags: " +:+ join ", " (missing_tags resource) +:+ nl
       end)
  +:+ (match invalid_tags resource with
       | [] => ""
       | _ :: _ =>
           "  Invalid tags: "
           +:+ pretty (Z.of_nat (length (invalid_tags resource))) +:+ nl
       end)
  +:+ nl.

(** The part of the message about one resource type: at most five of its
    resources, and how many more there are. *)
Definition type_lines (entry : string * list Resource) : string :=
  let '(rtype, resources) := entry in
  (nl +:+ upper rtype +:+ " ("
   +:+ pretty (Z.of_nat (length resources)) +:+ " resources):" +:+ nl)
  +:+ (times "-" 50 +:+ nl)
  +:+ fold_left (fun message resource => message +:+ resource_lines resource)
        (firstn 5 resources) ""
  +:+ (if (5 <? length resources)%nat
       then "... and " +:+ pretty (Z.of_nat (length resources) - 5)%Z
            +:+ " more" +:+ nl +:+ nl
       else "").

Definition send_compliance_notifications
    (non_compliant_resources : list Resource) : M State unit :=
  match non_compliant_resources with
  | [] => ret tt
  | _ :: _ =>
      let subject :=
        "AWS Tag Compliance Alert: "
        +:+ pretty (Z.of_nat (length non_compliant_resources))
        +:+ " non-compliant resources" in
      let message :=
        ("AWS Tag Compliance Report" +:+ nl +:+ nl)
        +:+ ("Found "
             +:+ pretty (Z.of_nat (length non_compliant_resources))
             +:+ " resources not compliant with tagging policies."
             +:+ nl +:+ nl) in
      let by_type :=
        fold_left
          (fun by_type resource =>
             group_append (resource_type resource) resource by_type)
          non_compliant_resources [] in
      let message :=
        fold_left (fun message entry => message +:+ type_lines entry)
          by_type message in
      let message :=
        message +:+ nl
        +:+ "Please add the required tags to these resources within 7 days."
        +:+ nl in
      publish subject message
  end.

(** [sum(len(... ) for r in compliance_results.values())] *)
Definition sum_len {A} (lists : list (list A)) : Z :=
  fold_left (fun total l => (total + Z.of_nat (length l))%Z) lists 0%Z.

(** [round(x, 2)] of a number that is an [int] or a [float]. *)
Definition round2 (x : pynum) : pynum :=
  match x with
  | PyInt z => PyInt (round_int z 2)
  | PyFloat f => PyFloat (round_float w f 2)
  end.

(** The handler.  Its [except] only logs and raises again.  The first
    clock reading is the one of the message it prints. *)
Definition lambda_handler : M State Body :=
  datetime_now ;;;
  policies <- load_tag_policies ;;
  ec2_instances <- check_ec2_tags policies ;;
  ebs_volumes <- check_ebs_tags policies ;;
  rds_instances <- check_rds_tags policies ;;
  s3_buckets <- check_s3_tags policies ;;
  let compliance_results :=
    [ec2_instances; ebs_volumes; rds_instances; s3_buckets] in
  let total_resources := sum_len compliance_results in
  let compliant_resources :=
    sum_len (map (List.filter compliant) compliance_results) in
  compliance_rate <-
    (if (0 <? total_resources)%Z
     then ratio <- lift (truediv (PyInt compliant_resources)
                           (PyInt total_resources)) ;;
          ret (mul ratio (PyInt 100))
     else ret (PyInt 100)) ;;
  let non_compliant :=
    flat_map (List.filter (fun res => negb (compliant res)))
      compliance_results in
  match non_compliant with
  | [] => ret tt
  | _ :: _ => send_compliance_notifications non_compliant
  end ;;;
  ret {| total_resources := total_resources;
         compliant_resources := compliant_resources;
         compliance_rate := round2 compliance_rate;
         non_compliant_count := Z.of_nat (length non_compliant) |}.

End Enforcer.

End TagEnforcerScans.

(** * Properties *)

(** Concrete surroundings for the examples. *)
Module Fixtures.
Import Py.

(** A clock that starts on 2024-01-15 10:00:00 UTC and advances by one
    second per reading; times print as seconds, dates as day numbers. *)
Definition steady_clock : Clock :=
  {| now := fun n => (1705312800000000 + Z.of_nat n * 1000000)%Z;
     isoformat := fun t => pretty (t ÷ 1000000)%Z;
     strftime := fun _ t => pretty (t ÷ 86400000000)%Z |}.

End Fixtures.

(** ** The cleanup executor *)

Module CleanupExecutorProofs.
Import Py CleanupExecutor Fixtures.

(** The date under which [update_action_status] files an action. *)
Definition scheduled_date (action_id : string) : string :=
  join "-" (firstn 3 (split "-" action_id)).

(** The [update_item] call an action ends with. *)
Definition status_update (w : World) (st : State) (action_id : string)
    (result : Result) : Call :=
  UpdateItem action_id (scheduled_date action_id) (status_of result)
    (isoformat (clock w) (now (clock w) (ticks st))) (message result).

(** A world where every call succeeds; [i-1] has one attached volume. *)
Definition calm : World :=
  {| raises := fun _ _ => None;
     reservations := fun _ _ =>
       [[ {| BlockDeviceMappings := [ {| Ebs := Some "vol-1" |} ] |} ]];
     new_snapshot_id := fun _ _ => "snap-1";
     clock := steady_clock |}.

(** A world where snapshots cannot be created. *)
Definition no_snapshots : World :=
  {| raises := fun _ c =>
       match c with
       | CreateSnapshot _ _ => Some (ClientError "SnapshotLimitExceeded")
       | _ => None
       end;
     reservations := reservations calm;
     new_snapshot_id := new_snapshot_id calm;
     clock := steady_clock |}.

Definition fresh : State := {| trace := []; table := ∅; ticks := 0 |}.

Definition pending (resource_type action_type : string) : Action :=
  {| a_action_id := "2024-01-15-i-1";
     a_resource_id := "i-1";
     a_resource_type := resource_type;
     a_action_type := action_type;
     a_estimated_savings := Some 847%Z |}.

(** *** How the status update runs *)

Lemma update_action_status_run (w : World) (action_id : string)
    (result : Result) (st : State) :
  let c := status_update w st action_id result in
  update_action_status w action_id result st =
  match raises w (trace st) c with
  | Some e =>
      (inl e, {| trace := trace st ++ [c]; table := table st;
                 ticks := S (ticks st) |})
  | None =>
      (inr tt,
       {| trace := trace st ++ [c];
          table := set_attributes (action_id, scheduled_date action_id)
                     (status_of result)
                     (isoformat (clock w) (now (clock w) (ticks st)))
                     (message result) (table st);
          ticks := S (ticks st) |})
  end.
Proof.
  unfold update_action_status, update_item, now_isoformat, call, bind,
    status_update, scheduled_date.
  simpl. destruct (raises w (trace st) _); reflexivity.
Qed.

Lemma stored_set_attributes (st : State)
    (action_id status executed msg : string)
    (t : gmap (string * string) (gmap string AttributeValue)) (n : nat)
    (tr : list Call) :
  let st' := {| trace := tr;
                table := set_attributes (action_id, scheduled_date action_id)
                           status executed msg t;
                ticks := n |} in
  stored st' action_id "status" = Some (AttrS status) /\
  stored st' action_id "executed_at" = Some (AttrS executed) /\
  stored st' action_id "result_message" = Some (AttrS msg).
Proof.
  unfold stored, set_attributes, scheduled_date. simpl.
  rewrite lookup_insert_eq. simpl.
  repeat split; by simplify_map_eq.
Qed.

Lemma set_attributes_lookup (key : string * string)
    (status executed msg : string)
    (t : gmap (string * string) (gmap string AttributeValue)) :
  set_attributes key status executed msg t !! key
  = Some (<["status" := AttrS status]>
            (<["executed_at" := AttrS executed]>
               (<["result_message" := AttrS msg]>
                  (default (<["action_id" := AttrS key.1]>
                              (<["scheduled_date" := AttrS key.2]> ∅))
                     (t !! key))))).
Proof.
  unfold set_attributes. rewrite lookup_insert_eq.
  destruct (t !! key); reflexivity.
Qed.

(** What [execute_cleanup_action] does once the dispatch has produced
    [result'] in state [st1]. *)
Lemma execute_after_dispatch (w : World) (dry : bool) (action : Action)
    (st st1 : State) (result' : Result) :
  dispatch w dry (a_resource_id action) (a_resource_type action)
    (a_action_type action)
    {| action_id := a_action_id action;
       resource_id := a_resource_id action;
       resource_type := a_resource_type action;
       action_type := a_action_type action;
       success := false; skipped := false; message := "";
       savings := default 0%Z (a_estimated_savings action) |} st
  = (inr result', st1) ->
  let c := status_update w st1 (a_action_id action) result' in
  exists result st',
    execute_cleanup_action w dry action st = (inr result, st') /\
    trace st' = trace st1 ++ [c] /\
    success result = success result' /\
    skipped result = skipped result' /\
    (raises w (trace st1) c = None ->
       result = result' /\
       stored st' (a_action_id action) "status"
         = Some (AttrS (status_of result')) /\
       stored st' (a_action_id action) "result_message"
         = Some (AttrS (message result'))).
Proof.
  intros Hd c. unfold execute_cleanup_action. rewrite Hd.
  rewrite update_action_status_run. fold c.
  destruct (raises w (trace st1) c) as [e|] eqn:Hr.
  - eexists _, _. split; [reflexivity|]. simpl.
    repeat split; try reflexivity; intros; discriminate.
  - eexists _, _. split; [reflexivity|]. simpl.
    repeat split; try reflexivity;
      apply (stored_set_attributes st1).
Qed.

(** The calls issued between two states of a run. *)
Definition issued (st st' : State) : list Call :=
  drop (length (trace st)) (trace st').

Lemma issued_app (st st' : State) (calls : list Call) :
  trace st' = trace st ++ calls -> issued st st' = calls.
Proof. unfold issued. intros ->. apply drop_app_length. Qed.

(** *** Dry run *)

Lemma dispatch_dry_run (w : World) (rid rt act : string) (result : Result)
    (st : State) :
  In (rt, act) dispatch_table ->
  exists msg,
    dispatch w true rid rt act result st
      = (inr (set_message msg (set_success true result)), st) /\
    String.prefix "[DRY RUN]" msg = true.
Proof.
  intros H. simpl in H.
  repeat (destruct H as [H|H]; [inversion H; subst; clear H|]);
    [eexists; split; reflexivity ..|destruct H].
Qed.

(** C1: in dry-run mode an action whose (resource type, action type) pair
    has a handler issues no stop, terminate, delete, release or deregister
    call (its only call is the status update), its result has
    [success = true], and the message written to the table starts with
    the marker [[DRY RUN]]. *)
Theorem dry_run_simulates (w : World) (action : Action) (st : State) :
  In (a_resource_type action, a_action_type action) dispatch_table ->
  exists result st' msg,
    execute_cleanup_action w true action st = (inr result, st') /\
    String.prefix "[DRY RUN]" msg = true /\
    issued st st'
      = [UpdateItem (a_action_id action) (scheduled_date (a_action_id action))
           "completed" (isoformat (clock w) (now (clock w) (ticks st))) msg] /\
    Forall (fun c => mutating c = false) (issued st st') /\
    success result = true /\
    (raises w (trace st) 
       (UpdateItem (a_action_id action) (scheduled_date (a_action_id action))
          "completed" (isoformat (clock w) (now (clock w) (ticks st))) msg)
       = None ->
     message result = msg /\
     stored st' (a_action_id action) "status" = Some (AttrS "completed") /\
     stored st' (a_action_id action) "result_message" = Some (AttrS msg)).
Proof.
  intros Hin.
  destruct (dispatch_dry_run w (a_resource_id action) _ _
              {| action_id := a_action_id action;
                 resource_id := a_resource_id action;
                 resource_type := a_resource_type action;
                 action_type := a_action_type action;
                 success := false; skipped := false; message := "";
                 savings := default 0%Z (a_estimated_savings action) |}
              st Hin) as (msg & Hd & Hp).
  destruct (execute_after_dispatch w true action st st _ Hd)
    as (result & st' & Hrun & Htr & Hs & _ & Hst).
  apply issued_app in Htr.
  exists result, st', msg. split; [exact Hrun|]. split; [exact Hp|].
  split; [exact Htr|]. split.
  { rewrite Htr. repeat constructor. }
  split; [rewrite Hs; reflexivity|].
  intros Hok. destruct (Hst Hok) as (-> & Hstatus & Hmsg).
  repeat split; assumption.
Qed.

Lemma dry_run_simulates_witness :
  exists result st' msg,
    execute_cleanup_action calm true (pending "ec2_instance" "terminate") fresh
      = (inr result, st') /\
    String.prefix "[DRY RUN]" msg = true /\
    issued fresh st'
      = [UpdateItem "2024-01-15-i-1" "2024-01-15" "completed" "1705312800"
           msg] /\
    Forall (fun c => mutating c = false) (issued fresh st') /\
    success result = true /\
    (raises calm (trace fresh)
       (UpdateItem "2024-01-15-i-1" "2024-01-15" "completed" "1705312800" msg)
       = None ->
     message result = msg /\
     stored st' "2024-01-15-i-1" "status" = Some (AttrS "completed") /\
     stored st' "2024-01-15-i-1" "result_message" = Some (AttrS msg)).
Proof.
  apply (dry_run_simulates calm (pending "ec2_instance" "terminate") fresh).
  simpl. auto.
Defined.

(** *** Snapshot before delete *)

(** What the live handler has tried when the snapshot step fails. *)
Definition attempted (w : World) (st : State) (volume_id : string)
  : list Call :=
  let create :=
    CreateSnapshot volume_id ("Pre-deletion snapshot of " +:+ volume_id) in
  match raises w (trace st) create with
  | Some _ => [create]
  | None =>
      [create; WaitSnapshotCompleted (new_snapshot_id w (trace st) volume_id)]
  end.

Definition snapshot_step_fails (w : World) (st : State) (volume_id : string)
    (e : Exn) : Prop :=
  let create :=
    CreateSnapshot volume_id ("Pre-deletion snapshot of " +:+ volume_id) in
  raises w (trace st) create = Some e \/
  (raises w (trace st) create = None /\
   raises w (trace st ++ [create])
     (WaitSnapshotCompleted (new_snapshot_id w (trace st) volume_id))
   = Some e).

Lemma snapshot_and_delete_fails (w : World) (volume_id : string)
    (result : Result) (st : State) (e : Exn) :
  snapshot_step_fails w st volume_id e ->
  snapshot_and_delete_volume w false volume_id result st =
  (inr (set_message ("Failed to snapshot/delete volume: " +:+ str e) result),
   {| trace := trace st ++ attempted w st volume_id;
      table := table st; ticks := ticks st |}).
Proof.
  unfold snapshot_step_fails, attempted, snapshot_and_delete_volume,
    try_except, create_snapshot, call, bind, get, ret.
  simpl. intros [H | [H1 H2]].
  - rewrite H. reflexivity.
  - rewrite H1. simpl. rewrite H2. simpl. rewrite <- app_assoc. reflexivity.
Qed.

Lemma dispatch_snapshot_and_delete (w : World) (dry : bool)
    (rid rt act : string) (result : Result) (st : State) :
  rt = "ebs_volume" -> act = "snapshot_and_delete" ->
  dispatch w dry rid rt act result st
  = snapshot_and_delete_volume w dry rid result st.
Proof. intros -> ->. reflexivity. Qed.

(** C2: in live mode, when creating the snapshot or waiting for it fails,
    a snapshot_and_delete action on a volume issues no [delete_volume]
    call, and the status it records is [failed], not [skipped]. *)
Theorem snapshot_failure_blocks_delete (w : World) (action : Action)
    (st : State) (e : Exn) :
  a_resource_type action = "ebs_volume" ->
  a_action_type action = "snapshot_and_delete" ->
  snapshot_step_fails w st (a_resource_id action) e ->
  exists result st' update,
    execute_cleanup_action w false action st = (inr result, st') /\
    Forall (fun c => is_delete_volume c = false) (issued st st') /\
    issued st st' = attempted w st (a_resource_id action) ++ [update] /\
    update = UpdateItem (a_action_id action)
               (scheduled_date (a_action_id action)) "failed"
               (isoformat (clock w) (now (clock w) (ticks st)))
               ("Failed to snapshot/delete volume: " +:+ str e) /\
    success result = false /\
    skipped result = false /\
    (raises w (trace st ++ attempted w st (a_resource_id action)) update
       = None ->
     stored st' (a_action_id action) "status" = Some (AttrS "failed")).
Proof.
  intros Hrt Hat Hfail.
  pose proof (snapshot_and_delete_fails w (a_resource_id action)
                {| action_id := a_action_id action;
                   resource_id := a_resource_id action;
                   resource_type := a_resource_type action;
                   action_type := a_action_type action;
                   success := false; skipped := false; message := "";
                   savings := default 0%Z (a_estimated_savings action) |}
                st e Hfail) as Hd.
  rewrite <- (dispatch_snapshot_and_delete w false _ _ _ _ _ Hrt Hat) in Hd.
  destruct (execute_after_dispatch w false action st _ _ Hd)
    as (result & st' & Hrun & Htr & Hs & Hk & Hst).
  simpl in Htr. rewrite <- app_assoc in Htr. apply issued_app in Htr.
  eexists result, st', _. split; [exact Hrun|]. split.
  { rewrite Htr. apply Forall_app. split; [|repeat constructor].
    unfold attempted. destruct (raises w (trace st) _); repeat constructor. }
  split; [exact Htr|]. split; [reflexivity|].
  split; [rewrite Hs; reflexivity|]. split; [rewrite Hk; reflexivity|].
  intros Hok. apply Hst in Hok. tauto.
Qed.

Lemma snapshot_failure_blocks_delete_witness :
  exists result st' update,
    execute_cleanup_action no_snapshots false
      (pending "ebs_volume" "snapshot_and_delete") fresh = (inr result, st') /\
    Forall (fun c => is_delete_volume c = false) (issued fresh st') /\
    issued fresh st' = attempted no_snapshots fresh "i-1" ++ [update] /\
    update = UpdateItem "2024-01-15-i-1" "2024-01-15" "failed" "1705312800"
               "Failed to snapshot/delete volume: SnapshotLimitExceeded" /\
    success result = false /\
    skipped result = false /\
    (raises no_snapshots (trace fresh ++ attempted no_snapshots fresh "i-1")
       update = None ->
     stored st' "2024-01-15-i-1" "status" = Some (AttrS "failed")).
Proof.
  apply (snapshot_failure_blocks_delete no_snapshots
           (pending "ebs_volume" "snapshot_and_delete") fresh
           (ClientError "SnapshotLimitExceeded"));
    [reflexivity | reflexivity | left; reflexivity].
Defined.

(** *** Terminating an instance *)

Lemma snapshot_loop_trace (w : World) (instance_id : string)
    (bdms : list BlockDeviceMapping) (st : State) :
  exists calls,
    trace (for_each bdms (snapshot_attached w instance_id) st).2
      = trace st ++ calls /\
    Forall (fun c => is_wait c = false) calls.
Proof.
  revert st. induction bdms as [|bdm bdms IH]; intros st; simpl.
  - exists []. split; [symmetry; apply app_nil_r | constructor].
  - unfold bind at 1, snapshot_attached at 1.
    destruct (Ebs bdm) as [volume_id|]; simpl.
    + unfold create_snapshot, bind, get, call, ret. simpl.
      destruct (raises w (trace st) _); simpl.
      * eexists [_]. split; [reflexivity | repeat constructor].
      * match goal with
        | |- context [for_each bdms _ ?s] =>
            destruct (IH s) as (calls & Ht & Hf)
        end.
        simpl in Ht. rewrite <- app_assoc in Ht.
        eexists. split; [exact Ht|]. constructor; [reflexivity | exact Hf].
    + apply IH.
Qed.

(** Whatever the world answers, terminating an instance never waits for a
    snapshot to complete. *)
Lemma terminate_never_waits (w : World) (dry : bool) (instance_id : string)
    (result : Result) (st : State) :
  Forall (fun c => is_wait c = false)
    (issued st (terminate_ec2_instance w dry instance_id result st).2).
Proof.
  unfold terminate_ec2_instance. destruct dry; simpl.
  { unfold issued. simpl. rewrite drop_all. constructor. }
  unfold try_except, bind at 1, describe_instances, bind at 1, get, bind at 1,
    call, ret.
  simpl. destruct (raises w (trace st) _); simpl.
  { erewrite issued_app by reflexivity. repeat constructor. }
  unfold bind at 1, lift.
  destruct (first_instance _) as [e | instance]; simpl.
  { erewrite issued_app by reflexivity. repeat constructor. }
  unfold bind at 1.
  match goal with
  | |- context [for_each ?l ?f ?s] =>
      destruct (snapshot_loop_trace w instance_id l s) as (calls & Ht & Hf);
      destruct (for_each l f s) as [[e | []] st1]
  end; simpl in *.
  { erewrite issued_app by (rewrite Ht, <- app_assoc; reflexivity).
    constructor; [reflexivity | exact Hf]. }
  unfold bind, call, ret. simpl.
  destruct (raises w (trace st1) _); simpl;
    (erewrite issued_app
       by (rewrite Ht, <- !app_assoc; reflexivity));
    (constructor; [reflexivity|]);
    (apply Forall_app; split; [exact Hf | repeat constructor]).
Qed.

(** C3, as the code runs it: a live terminate of an instance with one
    attached volume, every call succeeding, issues the snapshot and then
    the terminate call with no wait for the snapshot in between. *)
Theorem terminate_without_waiting :
  issued fresh
    (execute_cleanup_action calm false (pending "ec2_instance" "terminate")
       fresh).2
  = [ DescribeInstances "i-1";
      CreateSnapshot "vol-1" "Pre-termination snapshot of i-1";
      TerminateInstances "i-1";
      UpdateItem "2024-01-15-i-1" "2024-01-15" "completed" "1705312800"
        "Successfully terminated instance i-1" ].
Proof. vm_compute. reflexivity. Qed.

(** *** Pairs without a handler *)

Definition supported_types : list string :=
  [ "ec2_instance"; "ebs_volume"; "elastic_ip"; "snapshot"; "ami";
    "load_balancer" ].

(** An action on a resource type the executor does not know is recorded
    as skipped, with the reason. *)
Lemma unsupported_type_is_skipped (w : World) (dry : bool) (action : Action)
    (st : State) :
  ~ In (a_resource_type action) supported_types ->
  exists result st',
    execute_cleanup_action w dry action st = (inr result, st') /\
    skipped result = true /\
    success result = false /\
    issued st st'
      = [UpdateItem (a_action_id action) (scheduled_date (a_action_id action))
           "skipped" (isoformat (clock w) (now (clock w) (ticks st)))
           ("Unsupported resource type: " +:+ a_resource_type action)].
Proof.
  intros Hn.
  assert (Hd : dispatch w dry (a_resource_id action) (a_resource_type action)
                 (a_action_type action)
                 {| action_id := a_action_id action;
                    resource_id := a_resource_id action;
                    resource_type := a_resource_type action;
                    action_type := a_action_type action;
                    success := false; skipped := false; message := "";
                    savings := default 0%Z (a_estimated_savings action) |} st
               = (inr (set_message
                         ("Unsupported resource type: "
                            +:+ a_resource_type action)
                         (set_skipped true
                            {| action_id := a_action_id action;
                               resource_id := a_resource_id action;
                               resource_type := a_resource_type action;
                               action_type := a_action_type action;
                               success := false; skipped := false;
                               message := "";
                               savings :=
                                 default 0%Z (a_estimated_savings action) |})),
                  st)).
  { unfold dispatch.
    repeat match goal with
    | |- context [String.eqb ?a ?b] =>
        destruct (String.eqb_spec a b) as [Heq | _];
        [exfalso; apply Hn; rewrite Heq; simpl; tauto|]
    end.
    reflexivity. }
  destruct (execute_after_dispatch w dry action st _ _ Hd)
    as (result & st' & Hrun & Htr & Hs & Hk & _).
  apply issued_app in Htr.
  exists result, st'. repeat split; assumption.
Qed.

(** A supported resource type with any action type outside the dispatch
    table is recorded as failed, with an empty message. *)
Lemma unmatched_action_type_recorded_failed (w : World) (dry : bool)
    (action : Action) (st : State) :
  In (a_resource_type action) supported_types ->
  ~ In (a_resource_type action, a_action_type action) dispatch_table ->
  exists result st',
    execute_cleanup_action w dry action st = (inr result, st') /\
    skipped result = false /\
    success result = false /\
    issued st st'
      = [UpdateItem (a_action_id action) (scheduled_date (a_action_id action))
           "failed" (isoformat (clock w) (now (clock w) (ticks st))) ""].
Proof.
  intros Hin Hn.
  assert (Hd : dispatch w dry (a_resource_id action) (a_resource_type action)
                 (a_action_type action)
                 {| action_id := a_action_id action;
                    resource_id := a_resource_id action;
                    resource_type := a_resource_type action;
                    action_type := a_action_type action;
                    success := false; skipped := false; message := "";
                    savings := default 0%Z (a_estimated_savings action) |} st
               = (inr {| action_id := a_action_id action;
                         resource_id := a_resource_id action;
                         resource_type := a_resource_type action;
                         action_type := a_action_type action;
                         success := false; skipped := false; message := "";
                         savings :=
                           default 0%Z (a_estimated_savings action) |},
                  st)).
  { destruct action as [aid rid rt act sav]. simpl in *.
    repeat (destruct Hin as [<- | Hin]; [|]); [..|destruct Hin];
      unfold dispatch; simpl;
      repeat match goal with
      | |- context [String.eqb act ?b] =>
          destruct (String.eqb_spec act b) as [-> | _];
          [exfalso; apply Hn; tauto|]
      end;
      reflexivity. }
  destruct (execute_after_dispatch w dry action st _ _ Hd)
    as (result & st' & Hrun & Htr & Hs & Hk & _).
  apply issued_app in Htr.
  exists result, st'. repeat split; assumption.
Qed.

(** C4, as the code runs it: a supported resource type with an action type
    that has no handler falls through the inner if/elif chain with the
    result untouched; the action is recorded as failed with an empty
    message, and the handler files it under [failed]. *)
Theorem unmatched_action_type_is_failed :
  let run :=
    execute_cleanup_action calm false (pending "ec2_instance" "delete") fresh in
  (exists result,
     run.1 = inr result /\
     success result = false /\ skipped result = false /\
     file_result result {| executed := []; failed := []; skipped_results := [] |}
       = {| executed := []; failed := [result]; skipped_results := [] |}) /\
  issued fresh run.2
    = [UpdateItem "2024-01-15-i-1" "2024-01-15" "failed" "1705312800" ""] /\
  stored run.2 "2024-01-15-i-1" "status" = Some (AttrS "failed") /\
  stored run.2 "2024-01-15-i-1" "result_message" = Some (AttrS "").
Proof.
  vm_compute. split; [eexists; repeat split|]; repeat split.
Qed.

(** *** Updating a status twice *)

(** The three attributes [update_action_status] writes. *)
Definition record_of (st : State) (action_id : string)
  : option AttributeValue * option AttributeValue * option AttributeValue :=
  (stored st action_id "status",
   stored st action_id "executed_at",
   stored st action_id "result_message").

Definition stopped : Result :=
  {| action_id := "2024-01-15-i-1";
     resource_id := "i-1";
     resource_type := "ec2_instance";
     action_type := "stop";
     success := true;
     skipped := false;
     message := "Successfully stopped instance i-1";
     savings := 847 |}.

Lemma set_attributes_again (key : string * string)
    (status executed msg : string)
    (t : gmap (string * string) (gmap string AttributeValue)) :
  set_attributes key status executed msg
    (set_attributes key status executed msg t)
  = set_attributes key status executed msg t.
Proof.
  unfold set_attributes at 1. rewrite set_attributes_lookup.
  unfold set_attributes. rewrite insert_insert_eq. f_equal.
  apply map_eq. intros i. rewrite !lookup_insert.
  repeat case_decide; reflexivity.
Qed.

(** C6 as stated fails: with a clock that advances between the calls, the
    second update with the same outcome leaves a record that differs from
    the one the first update left, in [executed_at]. *)
Lemma update_twice_changes_record :
  let run1 := update_action_status calm "2024-01-15-i-1" stopped fresh in
  let run2 := update_action_status calm "2024-01-15-i-1" stopped run1.2 in
  run1.1 = inr tt /\ run2.1 = inr tt /\
  record_of run1.2 "2024-01-15-i-1" <> record_of run2.2 "2024-01-15-i-1".
Proof.
  vm_compute. repeat split. intros H. discriminate H.
Qed.

(** C6, amended: two successful updates with the same outcome leave the
    same [status] and [result_message]; [executed_at] is overwritten with
    the time of the latest call, so the stored record is unchanged by the
    second call exactly when both calls read the same time. *)
Theorem update_twice_last_write_wins (w : World) (action_id : string)
    (result : Result) (st : State) :
  let run1 := update_action_status w action_id result st in
  let run2 := update_action_status w action_id result run1.2 in
  let time n := isoformat (clock w) (now (clock w) n) in
  run1.1 = inr tt -> run2.1 = inr tt ->
  stored run1.2 action_id "status" = Some (AttrS (status_of result)) /\
  stored run2.2 action_id "status" = Some (AttrS (status_of result)) /\
  stored run1.2 action_id "result_message" = Some (AttrS (message result)) /\
  stored run2.2 action_id "result_message" = Some (AttrS (message result)) /\
  stored run1.2 action_id "executed_at" = Some (AttrS (time (ticks st))) /\
  stored run2.2 action_id "executed_at" = Some (AttrS (time (S (ticks st)))) /\
  (time (S (ticks st)) = time (ticks st) <-> table run2.2 = table run1.2).
Proof.
  intros run1 run2 time. subst run2 run1.
  rewrite update_action_status_run.
  destruct (raises w (trace st) _); [intros H; discriminate H|]. simpl.
  rewrite update_action_status_run. simpl.
  destruct (raises w _ _); [intros _ H; discriminate H|]. simpl.
  intros _ _.
  repeat (split; [apply (stored_set_attributes st)|]).
  split.
  - intros Heq. fold (time (S (ticks st))). rewrite Heq.
    apply set_attributes_again.
  - intros Heq.
    pose proof (stored_set_attributes st action_id (status_of result)
                  (time (S (ticks st))) (message result)
                  (set_attributes (action_id, scheduled_date action_id)
                     (status_of result) (time (ticks st)) (message result)
                     (table st)) 0 []) as (_ & H2 & _).
    pose proof (stored_set_attributes st action_id (status_of result)
                  (time (ticks st)) (message result) (table st) 0 [])
      as (_ & H1 & _).
    unfold stored in H1, H2. simpl in H1, H2. subst time. simpl in *.
    rewrite Heq in H2. congruence.
Qed.

Lemma update_twice_last_write_wins_witness :
  let run1 := update_action_status calm "2024-01-15-i-1" stopped fresh in
  let run2 := update_action_status calm "2024-01-15-i-1" stopped run1.2 in
  let time n := isoformat (clock calm) (now (clock calm) n) in
  stored run1.2 "2024-01-15-i-1" "status" = Some (AttrS "completed") /\
  stored run2.2 "2024-01-15-i-1" "status" = Some (AttrS "completed") /\
  stored run1.2 "2024-01-15-i-1" "result_message"
    = Some (AttrS "Successfully stopped instance i-1") /\
  stored run2.2 "2024-01-15-i-1" "result_message"
    = Some (AttrS "Successfully stopped instance i-1") /\
  stored run1.2 "2024-01-15-i-1" "executed_at" = Some (AttrS (time 0)) /\
  stored run2.2 "2024-01-15-i-1" "executed_at" = Some (AttrS (time 1)) /\
  (time 1 = time 0 <-> table run2.2 = table run1.2).
Proof.
  apply (update_twice_last_write_wins calm "2024-01-15-i-1" stopped fresh);
    reflexivity.
Defined.

End CleanupExecutorProofs.

(** ** The cost analyzer *)

Module CostAnalyzerProofs.
Import Py CostAnalyzer Fixtures.

(** A world whose table accepts every item. *)
Definition quiet : World :=
  {| put_item_raises := fun _ _ => None; clock := steady_clock |}.

Definition start : State := {| table := []; ticks := 0 |}.

Definition series (costs : list float) : CostData :=
  {| daily_costs := map (fun c => {| date := "2024-01-01"; cost := c |}) costs;
     total_cost := sum costs;
     period_days := 30 |}.

(** The model on the numbers of the specification: with a baseline of 100
    and a threshold of 25, a day at 160 is a high anomaly, a day at 130 a
    medium one and a day at 120 none. *)
Example detect_anomalies_graded :
  map (fun a => (anomaly_cost a, deviation_percentage a, severity a))
    match (detect_anomalies quiet 25%float
             (series [100; 100; 160; 120; 130; 100; 100; 100; 100]%float)
             start).1
    with inr l => l | inl _ => [] end
  = [ (160%float, PyFloat 60%float, "high");
      (130%float, PyFloat 30%float, "medium") ].
Proof. vm_compute. reflexivity. Qed.

(** *** The baseline window *)

Lemma length_baseline_costs (daily_costs : list DailyCost) :
  length (map cost (slice_to_neg 7 daily_costs)) = length daily_costs - 7.
Proof.
  unfold slice_to_neg. rewrite length_map, length_take. lia.
Qed.

Lemma baseline_of_week (daily_costs : list DailyCost) :
  length daily_costs = 7 -> baseline_of daily_costs = inl ZeroDivisionError.
Proof.
  intros H. unfold baseline_of, slice_to_neg. rewrite H. reflexivity.
Qed.

Lemma baseline_of_longer (daily_costs : list DailyCost) :
  8 <= length daily_costs ->
  exists avg, baseline_of daily_costs = inr (PyFloat avg).
Proof.
  intros H. unfold baseline_of, truediv, len.
  rewrite length_baseline_costs. simpl.
  destruct (Z.eqb_spec (Z.of_nat (length daily_costs - 7)) 0) as [Hz|_];
    [lia|].
  eexists. reflexivity.
Qed.

(** C10: a series of exactly 7 days passes the length guard, has an empty
    baseline window, and makes [detect_anomalies] raise
    [ZeroDivisionError] before anything is written; from 8 days on the
    mean of the baseline window is defined. *)
Theorem seven_days_divide_by_zero (w : World) (threshold : float)
    (cost_data : CostData) (st : State) :
  length (daily_costs cost_data) = 7 ->
  detect_anomalies w threshold cost_data st = (inl ZeroDivisionError, st) /\
  (forall longer : list DailyCost,
     8 <= length longer ->
     exists avg, baseline_of longer = inr (PyFloat avg)).
Proof.
  intros H. split; [|exact baseline_of_longer].
  unfold detect_anomalies. rewrite H. simpl.
  unfold bind, lift. rewrite (baseline_of_week _ H). reflexivity.
Qed.

Lemma seven_days_divide_by_zero_witness :
  detect_anomalies quiet 25%float
    (series [10; 12; 11; 10; 13; 12; 11]%float) start
    = (inl ZeroDivisionError, start) /\
  (forall longer : list DailyCost,
     8 <= length longer ->
     exists avg, baseline_of longer = inr (PyFloat avg)).
Proof.
  apply (seven_days_divide_by_zero quiet 25
           (series [10; 12; 11; 10; 13; 12; 11]%float) start).
  reflexivity.
Defined.

(** *** A baseline of zero *)

Lemma evaluation_window_nonempty (daily_costs : list DailyCost) :
  7 <= length daily_costs ->
  exists day rest, slice_from_neg 7 daily_costs = day :: rest.
Proof.
  intros H. unfold slice_from_neg.
  destruct (drop (length daily_costs - 7) daily_costs) as [|day rest] eqn:E.
  - apply (f_equal length) in E. rewrite length_drop in E. simpl in E. lia.
  - eauto.
Qed.

(** Whenever the mean of the baseline window is zero, the first day of the
    evaluation window makes [detect_anomalies] raise. *)
Lemma zero_baseline_raises (w : World) (threshold : float)
    (cost_data : CostData) (st : State) (baseline_avg : pynum) :
  7 <= length (daily_costs cost_data) ->
  baseline_of (daily_costs cost_data) = inr baseline_avg ->
  is_zero baseline_avg = true ->
  detect_anomalies w threshold cost_data st = (inl ZeroDivisionError, st).
Proof.
  intros Hlen Hb Hz. unfold detect_anomalies.
  destruct (Nat.ltb_spec (length (daily_costs cost_data)) 7) as [?|_]; [lia|].
  unfold bind at 1, lift at 1. rewrite Hb.
  destruct (evaluation_window_nonempty _ Hlen) as (day & rest & ->).
  simpl. unfold bind, lift, deviation_of, truediv. rewrite Hz. reflexivity.
Qed.

(** C5, as the code runs it: with a baseline of 0, [detect_anomalies]
    raises [ZeroDivisionError] instead of giving a deviation, both when
    the evaluation days cost 0 and when they cost something. *)
Theorem zero_baseline_divides_by_zero :
  baseline_of (daily_costs (series [0; 0; 0; 0; 0; 0; 0; 0]%float))
    = inr (PyFloat 0%float) /\
  detect_anomalies quiet 25%float (series [0; 0; 0; 0; 0; 0; 0; 0]%float)
    start
    = (inl ZeroDivisionError, start) /\
  baseline_of (daily_costs (series [0; 5; 5; 5; 5; 5; 5; 5]%float))
    = inr (PyFloat 0%float) /\
  detect_anomalies quiet 25%float (series [0; 5; 5; 5; 5; 5; 5; 5]%float)
    start
    = (inl ZeroDivisionError, start).
Proof. repeat split; vm_compute; reflexivity. Qed.

End CostAnalyzerProofs.

(** ** The resource scanner *)

Module ResourceScannerProofs.
Import Py ResourceScanner Fixtures.

(** A metric query that raised or returned no datapoint. *)
Definition missing (r : Exn + list Datapoint) : bool :=
  match r with
  | inl _ => true
  | inr [] => true
  | inr (_ :: _) => false
  end.

Definition tick (st : State) : State :=
  {| table := table st; ticks := S (ticks st) |}.

(** The findings the scans produce for a resource whose average is 0. *)
Definition idle_ec2 (w : World) (instance : EC2Instance) : EC2Finding :=
  {| resource_id := InstanceId instance;
     resource_type := "ec2_instance";
     instance_type := InstanceType instance;
     launch_time := isoformat (clock w) (LaunchTime instance);
     cpu_average := PyInt 0;
     state := StateName instance;
     tags := dict_of_pairs (Tags instance);
     estimated_monthly_cost := estimate_ec2_cost (InstanceType instance) |}.

Definition idle_rds (w : World) (db_instance : DBInstance) : RDSFinding :=
  {| rds_resource_id := DBInstanceIdentifier db_instance;
     rds_resource_type := "rds_instance";
     instance_class := DBInstanceClass db_instance;
     engine := Engine db_instance;
     create_time := isoformat (clock w) (InstanceCreateTime db_instance);
     connections_average := PyInt 0;
     rds_estimated_monthly_cost :=
       estimate_rds_cost (DBInstanceClass db_instance) |}.

(** *** The metric readers *)



(** The readers never raise and only consume one clock reading. *)
Lemma get_cpu_utilization_returns (w : World) (instance_id : string)
    (days : Z) (st : State) :
  exists avg, get_cpu_utilization w instance_id days st = (inr avg, tick st).
Proof.
  unfold get_cpu_utilization, try_except, bind, datetime_now, lift, ret.
  simpl. destruct (get_metric_statistics _ _ _ _ _ _) as [e | [| d ds]];
    simpl; eauto.
Qed.


(** *** Loops that only append *)

Section Appending.
Context {A F : Type}.
Variable body : A -> M (State * list F) unit.




End Appending.

(** *** The scans *)

Definition store_accepts (w : World) : Prop :=
  forall t item, put_item_raises w t item = None.



Lemma save_idle_resource_returns (w : World)
    (resource_id resource_type : string)
    (metadata : list (string * MetaValue)) (st : State) :
  store_accepts w ->
  exists st', save_idle_resource w resource_id resource_type metadata st
              = (inr tt, st').
Proof.
  intros Hs. unfold save_idle_resource, bind, datetime_now, put_item. simpl.
  rewrite Hs. eauto.
Qed.






(** An account with a busy instance, an instance CloudWatch has no data
    for, a production instance and a database whose metric query is
    throttled. *)
Definition busy : EC2Instance :=
  {| InstanceId := "i-busy"; Tags := [("Owner", "data")];
     InstanceType := "t3.small"; LaunchTime := 1700000000000000;
     StateName := "running" |}.

Definition silent : EC2Instance :=
  {| InstanceId := "i-silent"; Tags := [("Environment", "Staging")];
     InstanceType := "t2.micro"; LaunchTime := 1700000000000000;
     StateName := "running" |}.

Definition production : EC2Instance :=
  {| InstanceId := "i-prod"; Tags := [("Environment", "Production")];
     InstanceType := "t3.medium"; LaunchTime := 1700000000000000;
     StateName := "running" |}.

Definition orders : DBInstance :=
  {| DBInstanceIdentifier := "orders"; DBInstanceClass := "db.t3.micro";
     Engine := "postgres"; InstanceCreateTime := 1700000000000000 |}.

Definition account : World :=
  {| describe_running_instances := inr [[busy; silent]; [production]];
     describe_db_instances := inr [orders];
     get_metric_statistics := fun _ _ dimension _ _ =>
       if String.eqb dimension "i-busy"
       then inr [ {| Average := 40 |}; {| Average := 60 |} ]
       else if String.eqb dimension "orders"
       then inl (ClientError "Throttling")
       else inr [];
     put_item_raises := fun _ _ => None;
     round_float := fun x _ => x;
     clock := steady_clock |}.

Definition empty_table : State := {| table := ∅; ticks := 0 |}.

Example scan_account :
  (scan_idle_ec2_instances account empty_table).1
    = inr [idle_ec2 account silent]
  /\ (scan_idle_rds_instances account empty_table).1
     = inr [idle_rds account orders].
Proof. split; vm_compute; reflexivity. Qed.


End ResourceScannerProofs.

(** ** The tag enforcer *)

Module TagEnforcerProofs.
Import Py TagEnforcer.

Section CheckerProperties.
Variable re_match : string -> string -> Exn + bool.
Variable tags : gmap string string.

(** Every pattern that the check gets to match compiles. *)
Definition compiles (rule : RequiredTag) : bool :=
  match tags !! key rule, pattern rule with
  | Some v, Some p =>
      match re_match p v with inr _ => true | inl _ => false end
  | _, _ => true
  end.

Definition patterns_compile (required_tags : list RequiredTag) : bool :=
  forallb compiles required_tags.

(** What one rule adds to the two lists. *)
Lemma check_rule_spec (rule : RequiredTag) (m0 m : list string)
    (i0 i : list InvalidTag) :
  check_rule re_match tags rule (m0, i0) = inr (m, i) ->
  match tags !! key rule with
  | None => m = m0 ++ [key rule] /\ i = i0
  | Some v =>
      m = m0 /\
      exists extra,
        i = i0 ++ extra /\
        (values rule <> [] -> ~ In v (values rule) ->
         In (NotAllowed (key rule) v (values rule)) extra)
  end.
Proof.
  unfold check_rule. destruct (tags !! key rule) as [v|].
  - set (i1 := if negb (bool_decide (values rule = []))
                  && negb (bool_decide (v ∈ values rule))
               then i0 ++ [NotAllowed (key rule) v (values rule)] else i0).
    assert (H1 : exists extra1,
               i1 = i0 ++ extra1 /\
               (values rule <> [] -> ~ In v (values rule) ->
                In (NotAllowed (key rule) v (values rule)) extra1)).
    { subst i1. case_bool_decide as Hv; simpl.
      - exists []. rewrite app_nil_r. split; [reflexivity|]. tauto.
      - case_bool_decide as Hm; simpl.
        + exists []. rewrite app_nil_r. split; [reflexivity|].
          intros _ Hn. apply list_elem_of_In in Hm. tauto.
        + eexists. split; [reflexivity|]. simpl. auto. }
    destruct H1 as (extra1 & E1 & Hin1). clearbody i1.
    destruct (pattern rule) as [p|].
    + destruct (re_match p v) as [e | [|]]; intros H;
        [discriminate H | |]; injection H as <- <-; (split; [reflexivity|]).
      * exists extra1. auto.
      * exists (extra1 ++ [NoMatch (key rule) v p]).
        rewrite E1, <- app_assoc. split; [reflexivity|].
        intros. apply in_or_app. auto.
    + intros H. injection H as <- <-. split; [reflexivity|].
      exists extra1. auto.
  - intros H. injection H as <- <-. auto.
Qed.

Lemma check_rules_spec (required_tags : list RequiredTag)
    (m0 m : list string) (i0 i : list InvalidTag) :
  check_rules re_match tags required_tags (m0, i0) = inr (m, i) ->
  (forall k, In k m0 -> In k m) /\
  (forall x, In x i0 -> In x i) /\
  (forall k, In k m -> In k m0 \/ tags !! k = None) /\
  (forall rule,
     In rule required_tags -> tags !! key rule = None -> In (key rule) m) /\
  (forall rule v,
     In rule required_tags -> tags !! key rule = Some v ->
     values rule <> [] -> ~ In v (values rule) ->
     In (NotAllowed (key rule) v (values rule)) i).
Proof.
  revert m0 i0. induction required_tags as [|rule rest IH]; intros m0 i0 H.
  - simpl in H. injection H as <- <-.
    repeat split; auto; intros;
      match goal with Hnil : In _ [] |- _ => destruct Hnil end.
  - cbn [check_rules] in H.
    destruct (check_rule re_match tags rule (m0, i0)) as [e | [m1 i1]] eqn:E;
      [discriminate H|].
    apply check_rule_spec in E.
    destruct (IH _ _ H) as (Hm & Hi & Hback & Hmiss & Hinv).
    destruct (tags !! key rule) as [v|] eqn:Hk.
    + destruct E as (-> & extra & -> & Hextra).
      split; [auto|].
      split; [intros x Hx; apply Hi, in_or_app; auto|].
      split; [auto|].
      split.
      * intros r [<- | Hr] Hnone; [congruence | auto].
      * intros r v' [<- | Hr] Hsome Hne Hnin; [|eauto].
        rewrite Hk in Hsome. injection Hsome as <-.
        apply Hi, in_or_app. auto.
    + destruct E as (-> & ->).
      split; [intros k Hin; apply Hm, in_or_app; auto|].
      split; [auto|].
      split.
      * intros k Hin. destruct (Hback k Hin) as [Hin'|]; [|auto].
        apply in_app_or in Hin'. destruct Hin' as [|[<-|[]]]; auto.
      * split.
        -- intros r [<- | Hr] Hnone; [|auto].
           apply Hm, in_or_app. simpl. auto.
        -- intros r v' [<- | Hr] Hsome Hne Hnin; [congruence | eauto].
Qed.

Lemma check_rules_returns (required_tags : list RequiredTag)
    (acc : list string * list InvalidTag) :
  patterns_compile required_tags = true ->
  exists acc', check_rules re_match tags required_tags acc = inr acc'.
Proof.
  revert acc. induction required_tags as [|rule rest IH]; intros acc Hp.
  - simpl. eauto.
  - cbn [check_rules]. unfold patterns_compile in Hp. simpl in Hp.
    apply andb_true_iff in Hp. destruct Hp as [Hrule Hrest].
    assert (H1 : exists acc1, check_rule re_match tags rule acc = inr acc1).
    { unfold check_rule, compiles in *. destruct acc as [m0 i0].
      destruct (tags !! key rule) as [v|]; [|eauto].
      destruct (pattern rule) as [p|]; [|eauto].
      destruct (re_match p v) as [e | [|]]; [discriminate Hrule | |]; eauto. }
    destruct H1 as (acc1 & ->). apply IH, Hrest.
Qed.

(** C8: when the patterns compile, the check returns a verdict in which
    every required key absent from the tags is in [missing_tags] and
    [compliant] is false; a key present with a value outside a rule's
    non-empty allowed values has an [invalid_tags] entry naming the key,
    the value and the allowed values, is not in [missing_tags], and
    [compliant] is false; and with no rule at all the verdict is
    compliant. *)
Theorem compliance_verdict (required_tags : list RequiredTag) :
  patterns_compile required_tags = true ->
  exists c,
    check_resource_compliance re_match tags required_tags = inr c /\
    (forall rule,
       In rule required_tags -> tags !! key rule = None ->
       In (key rule) (missing_tags c) /\ compliant c = false) /\
    (forall rule v,
       In rule required_tags -> tags !! key rule = Some v ->
       values rule <> [] -> ~ In v (values rule) ->
       In (NotAllowed (key rule) v (values rule)) (invalid_tags c) /\
       ~ In (key rule) (missing_tags c) /\
       compliant c = false) /\
    check_resource_compliance re_match tags []
      = inr {| compliant := true; missing_tags := []; invalid_tags := [] |}.
Proof.
  intros Hp. unfold check_resource_compliance.
  destruct (check_rules_returns required_tags ([], []) Hp) as ([m i] & E).
  rewrite E. eexists. split; [reflexivity|]. simpl.
  destruct (check_rules_spec _ _ _ _ _ E) as (_ & _ & Hback & Hmiss & Hinv).
  split; [|split; [|reflexivity]].
  - intros rule Hr Hnone. specialize (Hmiss rule Hr Hnone).
    split; [exact Hmiss|]. destruct m; [destruct Hmiss | reflexivity].
  - intros rule v Hr Hsome Hne Hnin.
    specialize (Hinv rule v Hr Hsome Hne Hnin).
    split; [exact Hinv|]. split.
    + intros Hin. destruct (Hback _ Hin) as [[] | Hnone]. congruence.
    + destruct i; [destruct Hinv|]. apply andb_false_r.
Qed.

End CheckerProperties.

(** The rules [load_tag_policies] falls back to, a resource that breaks
    two of them, and a matcher for patterns that are plain prefixes. *)
Definition default_required_tags : list RequiredTag :=
  [ {| key := "Environment";
       values := ["Production"; "Staging"; "Development"];
       pattern := None |};
    {| key := "Owner"; values := []; pattern := None |};
    {| key := "CostCenter"; values := []; pattern := None |} ].

Definition test_box : gmap string string :=
  dict_of_pairs [("Environment", "Test"); ("Owner", "alice")].

Definition prefix_match (p v : string) : Exn + bool :=
  if String.eqb p "(" then inl (ReError p) else inr (String.prefix p v).

Example check_test_box :
  check_resource_compliance prefix_match test_box default_required_tags
  = inr {| compliant := false;
           missing_tags := ["CostCenter"];
           invalid_tags :=
             [NotAllowed "Environment" "Test"
                ["Production"; "Staging"; "Development"]] |}.
Proof. vm_compute. reflexivity. Qed.

Lemma compliance_verdict_witness :
  exists c,
    check_resource_compliance prefix_match test_box default_required_tags
      = inr c /\
    (forall rule,
       In rule default_required_tags -> test_box !! key rule = None ->
       In (key rule) (missing_tags c) /\ compliant c = false) /\
    (forall rule v,
       In rule default_required_tags -> test_box !! key rule = Some v ->
       values rule <> [] -> ~ In v (values rule) ->
       In (NotAllowed (key rule) v (values rule)) (invalid_tags c) /\
       ~ In (key rule) (missing_tags c) /\
       compliant c = false) /\
    check_resource_compliance prefix_match test_box []
      = inr {| compliant := true; missing_tags := []; invalid_tags := [] |}.
Proof.
  apply (compliance_verdict prefix_match test_box default_required_tags).
  vm_compute. reflexivity.
Defined.

End TagEnforcerProofs.

(** ** The report generator *)

Module ReportGeneratorProofs.
Import Py ReportGenerator Fixtures.

(** The loop over the items never touches [total_savings]. *)
Lemma add_item_keeps_savings (item : Item)
    (d d' : gmap string TypeEntry) (s s' : Z) :
  add_item item (d, s) = inr (d', s') -> s' = s.
Proof.
  unfold add_item.
  destruct (subscript "resource_type" (resource_type item)) as [e | rtype];
    [intros H; discriminate H|].
  destruct (subscript "resource_id" (resource_id item)) as [e | rid];
    intros H; [discriminate H|].
  injection H as _ <-. reflexivity.
Qed.

Lemma add_items_keeps_savings (items : list Item)
    (d d' : gmap string TypeEntry) (s s' : Z) :
  add_items items (d, s) = inr (d', s') -> s' = s.
Proof.
  revert d s. induction items as [|item rest IH]; intros d s H.
  - simpl in H. injection H as _ <-. reflexivity.
  - cbn [add_items] in H.
    destruct (add_item item (d, s)) as [e | [d1 s1]] eqn:E;
      [discriminate H|].
    apply add_item_keeps_savings in E. apply IH in H. congruence.
Qed.

(** C9: whatever the idle-resources table holds and whether or not the
    scan of it succeeds, the summary is returned with
    [total_savings = 0]. *)
Theorem total_savings_is_zero (w : World) (st : State) :
  exists summary st',
    generate_idle_resources_summary w st = (inr summary, st') /\
    total_savings summary = 0%Z.
Proof.
  unfold generate_idle_resources_summary, bind at 1, datetime_now.
  unfold try_except, bind at 1, lift at 1.
  destruct (scan w _) as [e | items]; [eexists _, _; split; reflexivity|].
  unfold bind, lift.
  destruct (add_items items (∅, 0%Z)) as [e | [d s]] eqn:E;
    [eexists _, _; split; reflexivity|].
  apply add_items_keeps_savings in E. subst s.
  eexists _, _. split; reflexivity.
Qed.

(** A table with two findings that carry a cost of 8.47 and 0.80 a month:
    the summary counts them and still reports no savings. *)
Definition findings : World :=
  {| scan := fun _ =>
       inr [ {| resource_type := Some "ec2_instance";
                resource_id := Some "i-1";
                metadata := Some [("instance_type", Str "t2.micro")];
                other_attributes :=
                  {[ "estimated_monthly_cost" := Num (PyFloat 8.47) ]} |};
             {| resource_type := Some "ebs_volume";
                resource_id := Some "vol-1";
                metadata := None;
                other_attributes :=
                  {[ "estimated_monthly_cost" := Num (PyFloat 0.8) ]} |} ];
     clock := steady_clock |}.

Example summary_of_findings :
  match (generate_idle_resources_summary findings 0).1 with
  | inr summary =>
      (total_idle_resources summary, total_savings summary,
       count <$> by_type summary !! "ec2_instance")
  | inl _ => (0, 0, None)%Z
  end = (2, 0, Some 1)%Z.
Proof. vm_compute. reflexivity. Qed.

End ReportGeneratorProofs.

(** ** The cleanup executor, continued *)

Module CleanupExecutorExtras.
Import Py CleanupExecutor Fixtures CleanupExecutorProofs.

(** *** The key of the status update *)

Fixpoint contains (c : ascii) (s : string) : bool :=
  match s with
  | EmptyString => false
  | String a s' => Ascii.eqb a c || contains c s'
  end.

Lemma split_nonempty (c : ascii) (s : string) : split c s <> [].
Proof.
  destruct s as [|a s']; simpl; [discriminate|].
  destruct (Ascii.eqb a c); [discriminate|].
  destruct (split c s'); discriminate.
Qed.

Lemma join_cons (sep x : string) (l : list string) :
  l <> [] -> join sep (x :: l) = x +:+ sep +:+ join sep l.
Proof. destruct l; [congruence | reflexivity]. Qed.

Lemma join_split (c : ascii) (s : string) :
  join (String c EmptyString) (split c s) = s.
Proof.
  induction s as [|a s' IH]; [reflexivity|].
  simpl. destruct (Ascii.eqb_spec a c) as [-> | Hne].
  - rewrite join_cons by apply split_nonempty. simpl. rewrite IH. reflexivity.
  - pose proof (split_nonempty c s') as Hn.
    destruct (split c s') as [|p ps]; [congruence|].
    destruct ps as [|q qs]; [simpl in *; congruence|].
    rewrite <- IH. reflexivity.
Qed.

Lemma split_app (c : ascii) (a b : string) :
  contains c a = false ->
  split c (a +:+ String c b) = a :: split c b.
Proof.
  induction a as [|x a IH]; simpl; intros H.
  - rewrite Ascii.eqb_refl. reflexivity.
  - apply orb_false_iff in H. destruct H as [Hx Ha].
    rewrite Hx, (IH Ha). reflexivity.
Qed.

Lemma split_whole (c : ascii) (a : string) :
  contains c a = false -> split c a = [a].
Proof.
  induction a as [|x a IH]; simpl; intros H; [reflexivity|].
  apply orb_false_iff in H. destruct H as [Hx Ha].
  rewrite Hx, (IH Ha). reflexivity.
Qed.

(** X1: for an action id that starts with three hyphen-free components
    [y-m-d-], the status update is filed under the scheduled date
    [y-m-d], whatever follows in the id. *)
Theorem update_key_recovers_date (w : World) (result : Result) (st : State)
    (y m d rest : string) :
  contains "-" y = false -> contains "-" m = false ->
  contains "-" d = false ->
  let action_id := y +:+ "-" +:+ m +:+ "-" +:+ d +:+ "-" +:+ rest in
  issued st (update_action_status w action_id result st).2
  = [UpdateItem action_id (y +:+ "-" +:+ m +:+ "-" +:+ d)
       (status_of result) (isoformat (clock w) (now (clock w) (ticks st)))
       (message result)].
Proof.
  intros Hy Hm Hd action_id.
  assert (Hs : scheduled_date action_id = y +:+ "-" +:+ m +:+ "-" +:+ d).
  { unfold scheduled_date, action_id.
    change (y +:+ "-" +:+ m +:+ "-" +:+ d +:+ "-" +:+ rest)
      with (y +:+ String "-" (m +:+ String "-" (d +:+ String "-" rest))).
    rewrite !split_app by assumption.
    pose proof (split_nonempty "-" rest) as Hn.
    destruct (split "-" rest); [congruence | reflexivity]. }
  rewrite update_action_status_run. unfold status_update. rewrite Hs.
  destruct (raises w (trace st) _); simpl;
    (erewrite issued_app by reflexivity); reflexivity.
Qed.

Lemma update_key_recovers_date_witness :
  issued fresh
    (update_action_status calm "2024-01-15-i-0abc-stop" stopped fresh).2
  = [UpdateItem "2024-01-15-i-0abc-stop" "2024-01-15" "completed"
       "1705312800" "Successfully stopped instance i-1"].
Proof.
  apply (update_key_recovers_date calm stopped fresh "2024" "01" "15"
           "i-0abc-stop"); reflexivity.
Defined.

(** X2: an action id with fewer than three hyphens is its own scheduled
    date: splitting and joining gives the id back. *)
Theorem short_id_is_its_own_date (w : World) (result : Result) (st : State)
    (action_id : string) :
  length (split "-" action_id) <= 3 ->
  issued st (update_action_status w action_id result st).2
  = [UpdateItem action_id action_id (status_of result)
       (isoformat (clock w) (now (clock w) (ticks st))) (message result)].
Proof.
  intros Hlen.
  assert (Hs : scheduled_date action_id = action_id).
  { unfold scheduled_date. rewrite firstn_all2 by exact Hlen.
    apply (join_split "-"). }
  rewrite update_action_status_run. unfold status_update. rewrite Hs.
  destruct (raises w (trace st) _); simpl;
    (erewrite issued_app by reflexivity); reflexivity.
Qed.

Lemma short_id_is_its_own_date_witness :
  issued fresh (update_action_status calm "cleanup-42" stopped fresh).2
  = [UpdateItem "cleanup-42" "cleanup-42" "completed" "1705312800"
       "Successfully stopped instance i-1"].
Proof.
  apply (short_id_is_its_own_date calm stopped fresh "cleanup-42").
  simpl. lia.
Defined.

(** *** What a handler may do *)

Definition is_update (c : Call) : bool :=
  match c with UpdateItem _ _ _ _ _ => true | _ => false end.

(** A handler run: it returns normally, leaves the table and the clock
    alone, issues no status update, keeps [skipped], and either sets
    [success] or leaves it. *)
Definition handler_run (dry : bool) (h : Result -> M State Result) : Prop :=
  forall result st, exists result' st' calls,
    h result st = (inr result', st') /\
    trace st' = trace st ++ calls /\
    table st' = table st /\
    ticks st' = ticks st /\
    Forall (fun c => is_update c = false) calls /\
    (dry = true -> calls = []) /\
    skipped result' = skipped result /\
    (success result' = true \/ success result' = success result).

Ltac single_call_handler h :=
  let result := fresh "result" in
  let st := fresh "st" in
  intros result st; unfold h;
  match goal with
  | |- context [if ?dry then _ else _] => destruct dry
  end;
  [ eexists _, st, []; rewrite app_nil_r; (split; [reflexivity|]);
    repeat split; auto
  | unfold try_except, bind, call, ret; simpl;
    destruct (raises _ (trace st) _);
    eexists _, _, [_]; (split; [reflexivity|]); simpl;
    repeat split; auto; discriminate ].

Lemma stop_ec2_instance_run (w : World) (dry : bool) (id : string) :
  handler_run dry (stop_ec2_instance w dry id).
Proof. single_call_handler stop_ec2_instance. Qed.

Lemma delete_volume_run (w : World) (dry : bool) (id : string) :
  handler_run dry (delete_volume w dry id).
Proof. single_call_handler delete_volume. Qed.

Lemma release_elastic_ip_run (w : World) (dry : bool) (id : string) :
  handler_run dry (release_elastic_ip w dry id).
Proof. single_call_handler release_elastic_ip. Qed.

Lemma delete_snapshot_run (w : World) (dry : bool) (id : string) :
  handler_run dry (delete_snapshot w dry id).
Proof. single_call_handler delete_snapshot. Qed.

Lemma deregister_ami_run (w : World) (dry : bool) (id : string) :
  handler_run dry (deregister_ami w dry id).
Proof. single_call_handler deregister_ami. Qed.

Lemma delete_load_balancer_run (w : World) (dry : bool) (id : string) :
  handler_run dry (delete_load_balancer w dry id).
Proof. single_call_handler delete_load_balancer. Qed.

(** *** Terminating an instance, call by call *)

(** The volumes behind the block device mappings that have one. *)
Definition ebs_volumes (bdms : list BlockDeviceMapping) : list string :=
  omap Ebs bdms.

Definition snapshot_call (instance_id volume_id : string) : Call :=
  CreateSnapshot volume_id ("Pre-termination snapshot of " +:+ instance_id).

(** The loop over the mappings asks for the snapshots in order and stops
    at the first request that raises. *)
Lemma snapshot_loop_run (w : World) (instance_id : string)
    (bdms : list BlockDeviceMapping) (st st' : State) (r : Exn + unit) :
  for_each bdms (snapshot_attached w instance_id) st = (r, st') ->
  table st' = table st /\
  ticks st' = ticks st /\
  exists requested,
    trace st' = trace st ++ map (snapshot_call instance_id) requested /\
    requested `prefix_of` ebs_volumes bdms /\
    (forall u, r = inr u -> requested = ebs_volumes bdms).
Proof.
  revert st. induction bdms as [|bdm bdms IH]; intros st; simpl.
  - intros H. injection H as <- <-. repeat split; auto.
    exists []. rewrite app_nil_r. repeat split; auto.
  - unfold bind at 1, snapshot_attached at 1.
    unfold ebs_volumes. simpl. fold (ebs_volumes bdms).
    destruct (Ebs bdm) as [volume_id|]; simpl.
    + unfold create_snapshot, bind, get, call, ret. simpl.
      destruct (raises w (trace st) _); simpl.
      * intros H. injection H as <- <-. simpl. repeat split; auto.
        exists [volume_id]. repeat split; auto.
        -- apply prefix_cons, prefix_nil.
        -- intros u Hu. discriminate Hu.
      * intros H. apply IH in H.
        destruct H as (Ht & Hk & requested & Htr & Hp & Hall).
        simpl in *. repeat split; auto.
        exists (volume_id :: requested). simpl.
        rewrite Htr, <- app_assoc. repeat split; auto.
        -- apply prefix_cons, Hp.
        -- intros u Hu. f_equal. eapply Hall, Hu.
    + apply IH.
Qed.

(** The five ways a live terminate can go. *)
Lemma terminate_live_run (w : World) (instance_id : string) (result : Result)
    (st st' : State) (r : Exn + Result) :
  terminate_ec2_instance w false instance_id result st = (r, st') ->
  table st' = table st /\
  ticks st' = ticks st /\
  exists calls requested,
    trace st' = trace st ++ DescribeInstances instance_id :: calls /\
    ((calls = map (snapshot_call instance_id) requested /\
      (requested = [] \/
       exists instance,
         first_instance (reservations w (trace st) instance_id) = inr instance
         /\ requested `prefix_of` ebs_volumes (BlockDeviceMappings instance))
      /\ exists e,
           r = inr (set_message
                      ("Failed to terminate instance: " +:+ str e) result))
     \/
     (calls = map (snapshot_call instance_id) requested
                ++ [TerminateInstances instance_id] /\
      (exists instance,
         first_instance (reservations w (trace st) instance_id) = inr instance
         /\ requested = ebs_volumes (BlockDeviceMappings instance)) /\
      ((exists e,
          r = inr (set_message
                     ("Failed to terminate instance: " +:+ str e) result))
       \/ r = inr (set_message
                     ("Successfully terminated instance " +:+ instance_id)
                     (set_success true result))))).
Proof.
  unfold terminate_ec2_instance, try_except, bind at 1, describe_instances,
    bind at 1, get, bind at 1, call, ret.
  simpl. destruct (raises w (trace st) _) as [e|]; simpl.
  { intros H. injection H as <- <-. simpl. repeat split; auto.
    exists [], []. split; [reflexivity|]. left. eauto 6. }
  unfold bind at 1, lift.
  destruct (first_instance _) as [e | instance] eqn:Hfirst; simpl.
  { intros H. injection H as <- <-. simpl. repeat split; auto.
    exists [], []. split; [reflexivity|]. left. eauto 6. }
  unfold bind at 1.
  match goal with
  | |- context [for_each ?l ?f ?s] =>
      destruct (for_each l f s) as [[e | []] st1] eqn:Hloop
  end;
    apply snapshot_loop_run in Hloop;
    destruct Hloop as (Ht & Hk & requested & Htr & Hp & Hall); simpl in *.
  { intros H. injection H as <- <-. simpl. repeat split; auto.
    exists (map (snapshot_call instance_id) requested), requested.
    rewrite Htr, <- app_assoc. split; [reflexivity|]. left.
    repeat split; eauto. }
  rewrite (Hall tt eq_refl) in Htr.
  unfold bind, call, ret. simpl.
  destruct (raises w (trace st1) _) as [e|]; simpl;
    intros H; injection H as <- <-; simpl; repeat split; auto;
    eexists _, (ebs_volumes (BlockDeviceMappings instance));
    (split; [rewrite Htr, <- !app_assoc; reflexivity|]); right;
    repeat split; eauto.
Qed.



(** *** Snapshot and delete, call by call *)

Lemma snapshot_and_delete_live_run (w : World) (volume_id : string)
    (result : Result) (st st' : State) (r : Exn + Result) :
  snapshot_and_delete_volume w false volume_id result st = (r, st') ->
  let create :=
    CreateSnapshot volume_id ("Pre-deletion snapshot of " +:+ volume_id) in
  let snapshot_id := new_snapshot_id w (trace st) volume_id in
  let wait := WaitSnapshotCompleted snapshot_id in
  let failure e :=
    inr (set_message ("Failed to snapshot/delete volume: " +:+ str e)
           result) in
  table st' = table st /\
  ticks st' = ticks st /\
  exists calls,
    trace st' = trace st ++ calls /\
    ((calls = [create] /\ exists e, r = failure e)
     \/ (calls = [create; wait] /\
         raises w (trace st) create = None /\ exists e, r = failure e)
     \/ (calls = [create; wait; DeleteVolume volume_id] /\
         raises w (trace st) create = None /\
         raises w (trace st ++ [create]) wait = None /\
         ((exists e, r = failure e)
          \/ r = inr (set_message
                        ("Snapshotted (" +:+ snapshot_id
                           +:+ ") and deleted volume " +:+ volume_id)
                        (set_success true result))))).
Proof.
  unfold snapshot_and_delete_volume, try_except, create_snapshot, bind, get,
    call, ret.
  simpl. destruct (raises w (trace st) _) as [e|] eqn:Hc; simpl.
  { intros H. injection H as <- <-. simpl. repeat split; auto.
    eexists. split; [reflexivity|]. left. eauto. }
  destruct (raises w (trace st ++ _) (WaitSnapshotCompleted _)) as [e|]
    eqn:Hw; simpl.
  { intros H. injection H as <- <-. simpl. repeat split; auto.
    eexists. split; [rewrite <- app_assoc; reflexivity|].
    right. left. eauto. }
  destruct (raises w ((trace st ++ _) ++ _) (DeleteVolume _)) as [e|];
    simpl; intros H; injection H as <- <-; simpl; repeat split; auto;
    (eexists; split; [rewrite <- !app_assoc; reflexivity|]);
    right; right; repeat split; eauto.
Qed.

(** X4: a live snapshot_and_delete issues the delete only after the
    snapshot was created and the wait for its completion returned; the
    three calls are then create, wait on the id that create returned,
    delete, in that order. *)
Theorem delete_only_after_snapshot_completed (w : World)
    (volume_id : string) (result : Result) (st : State) :
  let st' := (snapshot_and_delete_volume w false volume_id result st).2 in
  let create :=
    CreateSnapshot volume_id ("Pre-deletion snapshot of " +:+ volume_id) in
  let wait := WaitSnapshotCompleted (new_snapshot_id w (trace st) volume_id) in
  In (DeleteVolume volume_id) (issued st st') ->
  raises w (trace st) create = None /\
  raises w (trace st ++ [create]) wait = None /\
  issued st st' = [create; wait; DeleteVolume volume_id].
Proof.
  intros st' create wait. subst st'.
  destruct (snapshot_and_delete_volume w false volume_id result st)
    as [r st'] eqn:Hrun.
  apply snapshot_and_delete_live_run in Hrun.
  destruct Hrun as (_ & _ & calls & Htr & Hcases). simpl.
  rewrite (issued_app _ _ _ Htr).
  destruct Hcases as [(-> & _) | [(-> & _) | (-> & Hc & Hw & _)]].
  - intros [H | []]. discriminate H.
  - intros [H | [H | []]]; discriminate H.
  - intros _. auto.
Qed.

Lemma delete_only_after_snapshot_completed_witness :
  raises calm (trace fresh)
    (CreateSnapshot "vol-1" "Pre-deletion snapshot of vol-1") = None /\
  raises calm
    (trace fresh ++ [CreateSnapshot "vol-1" "Pre-deletion snapshot of vol-1"])
    (WaitSnapshotCompleted (new_snapshot_id calm (trace fresh) "vol-1"))
  = None /\
  issued fresh (snapshot_and_delete_volume calm false "vol-1" stopped fresh).2
  = [ CreateSnapshot "vol-1" "Pre-deletion snapshot of vol-1";
      WaitSnapshotCompleted (new_snapshot_id calm (trace fresh) "vol-1");
      DeleteVolume "vol-1" ].
Proof.
  apply (delete_only_after_snapshot_completed calm "vol-1" stopped fresh).
  vm_compute. auto.
Defined.

(** *** Every handler, every action *)

Lemma terminate_ec2_instance_run (w : World) (dry : bool) (id : string) :
  handler_run dry (terminate_ec2_instance w dry id).
Proof.
  intros result st. destruct dry.
  - unfold terminate_ec2_instance. eexists _, st, []. rewrite app_nil_r.
    split; [reflexivity|]. repeat split; auto.
  - destruct (terminate_ec2_instance w false id result st) as [r st'] eqn:E.
    apply terminate_live_run in E.
    destruct E as (Ht & Hk & calls & requested & Htr & Hcases).
    assert (Hsnap : Forall (fun c => is_update c = false)
                      (map (snapshot_call id) requested)).
    { apply Forall_forall. intros c Hc. apply list_elem_of_In in Hc.
      apply in_map_iff in Hc. destruct Hc as (v & <- & _). reflexivity. }
    destruct Hcases as [(-> & _ & e & ->)
                       | (-> & _ & [(e & ->) | ->])];
      eexists _, st', _; (split; [reflexivity|]);
      (split; [exact Htr|]); repeat split; auto; try discriminate;
      constructor; auto; apply Forall_app; split; auto.
Qed.

Lemma snapshot_and_delete_volume_run (w : World) (dry : bool) (id : string) :
  handler_run dry (snapshot_and_delete_volume w dry id).
Proof.
  intros result st. destruct dry.
  - unfold snapshot_and_delete_volume. eexists _, st, []. rewrite app_nil_r.
    split; [reflexivity|]. repeat split; auto.
  - destruct (snapshot_and_delete_volume w false id result st)
      as [r st'] eqn:E.
    apply snapshot_and_delete_live_run in E.
    destruct E as (Ht & Hk & calls & Htr & Hcases).
    destruct Hcases as [(-> & e & ->)
                       | [(-> & _ & e & ->)
                         | (-> & _ & _ & [(e & ->) | ->])]];
      eexists _, st', _; (split; [reflexivity|]);
      (split; [exact Htr|]); repeat split; auto; try discriminate;
      repeat constructor.
Qed.

(** The dispatch of an action that is neither successful nor skipped yet:
    it returns, touches neither table nor clock, and never leaves the
    result both successful and skipped. *)
Lemma dispatch_run (w : World) (dry : bool) (rid rt act : string)
    (result : Result) (st : State) :
  success result = false -> skipped result = false ->
  exists result' st' calls,
    dispatch w dry rid rt act result st = (inr result', st') /\
    trace st' = trace st ++ calls /\
    table st' = table st /\
    ticks st' = ticks st /\
    Forall (fun c => is_update c = false) calls /\
    (dry = true -> calls = []) /\
    success result' && skipped result' = false.
Proof.
  intros Hs Hk.
  assert (Hh : forall h, handler_run dry h ->
             exists result' st' calls,
               h result st = (inr result', st') /\
               trace st' = trace st ++ calls /\
               table st' = table st /\
               ticks st' = ticks st /\
               Forall (fun c => is_update c = false) calls /\
               (dry = true -> calls = []) /\
               success result' && skipped result' = false).
  { intros h Hrun.
    destruct (Hrun result st)
      as (result' & st' & calls & E & Htr & Ht & Hc & Hf & Hd & Hk' & _).
    exists result', st', calls. repeat split; auto.
    rewrite Hk', Hk. apply andb_false_r. }
  assert (Hret : exists result' st' calls,
             ret result st = (inr result', st') /\
             trace st' = trace st ++ calls /\
             table st' = table st /\
             ticks st' = ticks st /\
             Forall (fun c => is_update c = false) calls /\
             (dry = true -> calls = []) /\
             success result' && skipped result' = false).
  { exists result, st, []. rewrite app_nil_r. repeat split; auto.
    rewrite Hs. reflexivity. }
  unfold dispatch.
  repeat match goal with
  | |- context [if String.eqb ?a ?b then _ else _] =>
      destruct (String.eqb a b)
  end;
    try exact Hret;
    try (apply Hh;
         first [ apply stop_ec2_instance_run
               | apply terminate_ec2_instance_run
               | apply snapshot_and_delete_volume_run
               | apply delete_volume_run
               | apply release_elastic_ip_run
               | apply delete_snapshot_run
               | apply deregister_ami_run
               | apply delete_load_balancer_run ]).
  eexists _, st, []. rewrite app_nil_r. split; [reflexivity|].
  repeat split; auto. simpl. rewrite Hs. reflexivity.
Qed.

(** How an action runs as a whole: the handler, then one status update,
    which writes the table when it returns and leaves it alone when it
    raises. *)
Lemma execute_run (w : World) (dry : bool) (action : Action) (st : State) :
  exists result' st1 calls,
    trace st1 = trace st ++ calls /\
    table st1 = table st /\
    ticks st1 = ticks st /\
    Forall (fun c => is_update c = false) calls /\
    (dry = true -> calls = []) /\
    success result' && skipped result' = false /\
    let c := status_update w st1 (a_action_id action) result' in
    execute_cleanup_action w dry action st =
    match raises w (trace st1) c with
    | Some e =>
        (inr (set_message (str e) result'),
         {| trace := trace st1 ++ [c]; table := table st1;
            ticks := S (ticks st1) |})
    | None =>
        (inr result',
         {| trace := trace st1 ++ [c];
            table := set_attributes
                       (a_action_id action,
                        scheduled_date (a_action_id action))
                       (status_of result')
                       (isoformat (clock w) (now (clock w) (ticks st1)))
                       (message result') (table st1);
            ticks := S (ticks st1) |})
    end.
Proof.
  destruct (dispatch_run w dry (a_resource_id action) (a_resource_type action)
              (a_action_type action)
              {| action_id := a_action_id action;
                 resource_id := a_resource_id action;
                 resource_type := a_resource_type action;
                 action_type := a_action_type action;
                 success := false; skipped := false; message := "";
                 savings := default 0%Z (a_estimated_savings action) |}
              st eq_refl eq_refl)
    as (result' & st1 & calls & E & Htr & Ht & Hc & Hf & Hd & Hfl).
  exists result', st1, calls. repeat split; auto.
  unfold execute_cleanup_action. rewrite E.
  rewrite update_action_status_run.
  destruct (raises w (trace st1) _); reflexivity.
Qed.

(** X5: whatever the world answers, executing an action returns a
    result, reads the clock once, and issues exactly one status update,
    as its last call; the status written is completed, failed or skipped
    and agrees with the flags by which [lambda_handler] files the result,
    which are never both set. *)
Theorem one_status_update_per_action (w : World) (dry : bool)
    (action : Action) (st : State) :
  exists result st' calls status executed msg,
    execute_cleanup_action w dry action st = (inr result, st') /\
    ticks st' = S (ticks st) /\
    issued st st'
    = calls ++ [UpdateItem (a_action_id action)
                  (scheduled_date (a_action_id action)) status executed msg]
    /\ Forall (fun c => is_update c = false) calls /\
    ((status = "completed" /\ success result = true
      /\ skipped result = false)
     \/ (status = "failed" /\ success result = false
         /\ skipped result = false)
     \/ (status = "skipped" /\ success result = false
         /\ skipped result = true)).
Proof.
  destruct (execute_run w dry action st)
    as (result' & st1 & calls & Htr & Ht & Hc & Hf & _ & Hfl & E).
  simpl in E.
  assert (Hstatus :
            (status_of result' = "completed" /\ success result' = true
             /\ skipped result' = false)
            \/ (status_of result' = "failed" /\ success result' = false
                /\ skipped result' = false)
            \/ (status_of result' = "skipped" /\ success result' = false
                /\ skipped result' = true)).
  { unfold status_of.
    destruct (success result'), (skipped result'); try discriminate Hfl;
      auto. }
  destruct (raises w (trace st1) _) as [e|];
    eexists _, _, calls, _, _, _; (split; [exact E|]); simpl;
    (split; [rewrite Hc; reflexivity|]);
    (split; [apply issued_app; simpl; rewrite Htr, <- app_assoc;
             reflexivity|]);
    (split; [exact Hf|]); exact Hstatus.
Qed.

(** A queue holding the pending item of the action [pending rt act], and
    an item of another action. *)
Definition queued : State :=
  {| trace := [];
     table :=
       <[("2024-01-15-i-1", "2024-01-15") :=
           <["action_id" := AttrS "2024-01-15-i-1"]>
             (<["scheduled_date" := AttrS "2024-01-15"]>
                (<["status" := AttrS "pending"]>
                   (<["resource_id" := AttrS "i-1"]>
                      (<["estimated_savings" := AttrN 847]> ∅))))]>
         (<[("2024-01-16-vol-9", "2024-01-16") :=
              <["status" := AttrS "pending"]> ∅]> ∅);
     ticks := 0 |}.

(** X6: executing an action changes no item of the table but the one
    with the action's own key, and of that item only the attributes
    [status], [executed_at] and [result_message]. *)
Theorem other_items_untouched (w : World) (dry : bool) (action : Action)
    (st : State) (key : string * string) (attribute : string) :
  key <> (a_action_id action, scheduled_date (a_action_id action)) ->
  attribute <> "status" -> attribute <> "executed_at" ->
  attribute <> "result_message" ->
  let st' := (execute_cleanup_action w dry action st).2 in
  table st' !! key = table st !! key /\
  (forall item,
     table st !! (a_action_id action, scheduled_date (a_action_id action))
       = Some item ->
     stored st' (a_action_id action) attribute = item !! attribute).
Proof.
  intros Hkey H1 H2 H3.
  destruct (execute_run w dry action st)
    as (result' & st1 & calls & _ & Ht & _ & _ & _ & _ & E).
  simpl in E. rewrite E.
  destruct (raises w (trace st1) _) as [e|]; simpl; rewrite Ht.
  - split; [reflexivity|]. intros item Hitem.
    unfold stored. simpl. fold (scheduled_date (a_action_id action)).
    rewrite Hitem. reflexivity.
  - split.
    + unfold set_attributes. rewrite lookup_insert_ne by congruence.
      reflexivity.
    + intros item Hitem. unfold stored. simpl.
      fold (scheduled_date (a_action_id action)).
      rewrite set_attributes_lookup, Hitem. simpl.
      rewrite !lookup_insert_ne by congruence. reflexivity.
Qed.

Lemma other_items_untouched_witness :
  let st' :=
    (execute_cleanup_action calm false (pending "ec2_instance" "stop")
       queued).2 in
  table st' !! ("2024-01-16-vol-9", "2024-01-16")
    = table queued !! ("2024-01-16-vol-9", "2024-01-16") /\
  (forall item,
     table queued !! ("2024-01-15-i-1", scheduled_date "2024-01-15-i-1")
       = Some item ->
     stored st' "2024-01-15-i-1" "estimated_savings"
       = item !! "estimated_savings").
Proof.
  apply (other_items_untouched calm false (pending "ec2_instance" "stop")
           queued ("2024-01-16-vol-9", "2024-01-16") "estimated_savings");
    vm_compute; discriminate.
Defined.

(** X7: when the status update raises, the table is left exactly as it
    was, so the action stays pending there, and the message of the
    returned result is the text of that error, not the handler's. *)
Theorem failed_update_leaves_table (w : World) (dry : bool)
    (action : Action) (st : State) (e : Exn) :
  (forall history id date status executed msg,
     raises w history (UpdateItem id date status executed msg) = Some e) ->
  exists result st',
    execute_cleanup_action w dry action st = (inr result, st') /\
    table st' = table st /\
    message result = str e.
Proof.
  intros Hraise.
  destruct (execute_run w dry action st)
    as (result' & st1 & calls & _ & Ht & _ & _ & _ & _ & E).
  simpl in E. unfold status_update in E. rewrite Hraise in E.
  eexists _, _. split; [exact E|]. simpl. auto.
Qed.

(** A world whose table cannot be written. *)
Definition throttled : World :=
  {| raises := fun _ c =>
       match c with
       | UpdateItem _ _ _ _ _ =>
           Some (ClientError "ProvisionedThroughputExceededException")
       | _ => None
       end;
     reservations := reservations calm;
     new_snapshot_id := new_snapshot_id calm;
     clock := steady_clock |}.

Lemma failed_update_leaves_table_witness :
  exists result st',
    execute_cleanup_action throttled false (pending "ec2_instance" "stop")
      queued = (inr result, st') /\
    table st' = table queued /\
    message result
    = str (ClientError "ProvisionedThroughputExceededException").
Proof.
  apply (failed_update_leaves_table throttled false
           (pending "ec2_instance" "stop") queued
           (ClientError "ProvisionedThroughputExceededException")).
  reflexivity.
Defined.

(** *** The handlers with one call *)

(** The pairs whose live handler makes a single call, with that call. *)
Definition live_calls (resource_id : string)
  : list (string * string * Call) :=
  [ ("ec2_instance", "stop", StopInstances resource_id);
    ("ebs_volume", "delete", DeleteVolume resource_id);
    ("elastic_ip", "release", ReleaseAddress resource_id);
    ("snapshot", "delete", DeleteSnapshot resource_id);
    ("ami", "deregister", DeregisterImage resource_id);
    ("load_balancer", "delete", DeleteLoadBalancer resource_id) ].

(** [s] ends with [suffix]. *)
Definition ends_with (suffix s : string) : Prop :=
  exists before, s = before +:+ suffix.

(** X10: a live stop, delete, release or deregister makes one mutating
    call, on the resource of the action, and then the status update; the
    action is completed when the call returns, and when it raises the
    action is failed with a message that ends with the text of the
    error. *)
Theorem live_action_is_one_call (w : World) (action : Action) (st : State)
    (c : Call) :
  In (a_resource_type action, a_action_type action, c)
    (live_calls (a_resource_id action)) ->
  exists result st' status executed msg,
    execute_cleanup_action w false action st = (inr result, st') /\
    mutating c = true /\
    issued st st'
    = [c; UpdateItem (a_action_id action)
            (scheduled_date (a_action_id action)) status executed msg] /\
    match raises w (trace st) c with
    | None => status = "completed" /\ success result = true
    | Some e =>
        status = "failed" /\ success result = false
        /\ ends_with (str e) msg
    end.
Proof.
  intros Hin.
  assert (Hd : exists result',
             dispatch w false (a_resource_id action) (a_resource_type action)
               (a_action_type action)
               {| action_id := a_action_id action;
                  resource_id := a_resource_id action;
                  resource_type := a_resource_type action;
                  action_type := a_action_type action;
                  success := false; skipped := false; message := "";
                  savings := default 0%Z (a_estimated_savings action) |} st
             = (inr result',
                {| trace := trace st ++ [c]; table := table st;
                   ticks := ticks st |}) /\
             mutating c = true /\
             skipped result' = false /\
             match raises w (trace st) c with
             | None => success result' = true
             | Some e => success result' = false
                         /\ ends_with (str e) (message result')
             end).
  { destruct action as [aid rid rt act sav]. simpl in *.
    repeat (destruct Hin as [Hin | Hin];
            [injection Hin as <- <- <-; unfold dispatch; simpl;
             unfold try_except, bind, call, ret; simpl;
             destruct (raises w (trace st) _); simpl;
             eexists; (split; [reflexivity|]); repeat split;
             try (eexists; reflexivity)
            |]).
    destruct Hin. }
  destruct Hd as (result' & Hd & Hm & Hk & Hres).
  destruct (execute_after_dispatch w false action st _ _ Hd)
    as (result & st' & Hrun & Htr & Hs & _ & _).
  simpl in Htr. rewrite <- app_assoc in Htr. apply issued_app in Htr.
  exists result, st'. eexists _, _, _. split; [exact Hrun|].
  split; [exact Hm|]. split; [exact Htr|].
  unfold status_of. rewrite Hk, Hs.
  destruct (raises w (trace st) c) as [e|].
  - destruct Hres as [-> He]. auto.
  - rewrite Hres. auto.
Qed.

Lemma live_action_is_one_call_witness :
  exists result st' status executed msg,
    execute_cleanup_action calm false (pending "elastic_ip" "release") fresh
    = (inr result, st') /\
    mutating (ReleaseAddress "i-1") = true /\
    issued fresh st'
    = [ReleaseAddress "i-1";
       UpdateItem "2024-01-15-i-1" (scheduled_date "2024-01-15-i-1")
         status executed msg] /\
    match raises calm (trace fresh) (ReleaseAddress "i-1") with
    | None => status = "completed" /\ success result = true
    | Some e =>
        status = "failed" /\ success result = false
        /\ ends_with (str e) msg
    end.
Proof.
  apply (live_action_is_one_call calm (pending "elastic_ip" "release") fresh
           (ReleaseAddress "i-1")).
  simpl. auto.
Defined.

(** *** A whole pass over the queue *)

Definition filed (results : Results) : nat :=
  length (executed results) + length (failed results)
  + length (skipped_results results).

Lemma file_result_filed (result : Result) (results : Results) :
  filed (file_result result results) = S (filed results).
Proof.
  unfold file_result, filed.
  destruct (success result); [|destruct (skipped result)]; simpl;
    rewrite length_app; simpl; lia.
Qed.

Lemma execute_all_run (w : World) (dry : bool) (actions : list Action)
    (results : Results) (st : State) :
  exists results' st' calls,
    execute_all w dry actions results st = (inr results', st') /\
    filed results' = filed results + length actions /\
    ticks st' = ticks st + length actions /\
    trace st' = trace st ++ calls /\
    length (List.filter is_update calls) = length actions /\
    (dry = true -> Forall (fun c => is_update c = true) calls).
Proof.
  revert results st. induction actions as [|action rest IH];
    intros results st; simpl.
  - exists results, st, []. rewrite app_nil_r. repeat split; auto; lia.
  - unfold bind.
    destruct (execute_run w dry action st)
      as (result' & st1 & calls & Htr & _ & Hc & Hf & Hd & _ & E).
    simpl in E. rewrite E. clear E.
    assert (Hnone : List.filter is_update calls = []).
    { clear -Hf. induction Hf as [|c l Hc _ IHl]; simpl; [reflexivity|].
      rewrite Hc. exact IHl. }
    destruct (raises w (trace st1) _) as [e|];
      match goal with
      | |- context [execute_all w dry rest ?rs ?s] =>
          destruct (IH rs s)
            as (results' & st' & calls' & E' & Hfiled & Hticks & Htr'
                & Hupd & Hdry)
      end;
      rewrite E'; simpl in *;
      exists results', st', (calls ++ [status_update w st1
                                         (a_action_id action) result']
                             ++ calls');
      (split; [reflexivity|]);
      (split; [rewrite Hfiled, file_result_filed; lia|]);
      (split; [lia|]);
      (split; [rewrite Htr', Htr, <- !app_assoc; reflexivity|]);
      (split; [rewrite !List.filter_app, Hnone; simpl; lia|]);
      intros Hdry'; rewrite (Hd Hdry'); simpl; constructor; auto.
Qed.


(** X9: in dry-run mode a pass over any list of pending actions,
    dispatchable or not, issues nothing but status updates: no call that
    stops, terminates, deletes, releases or deregisters, and no snapshot
    either. *)
Theorem dry_run_pass_only_updates (w : World) (actions : list Action)
    (results : Results) (st : State) :
  let st' := (execute_all w true actions results st).2 in
  Forall (fun c => is_update c = true /\ mutating c = false) (issued st st').
Proof.
  destruct (execute_all_run w true actions results st)
    as (results' & st' & calls & E & _ & _ & Htr & _ & Hdry).
  rewrite E. simpl. rewrite (issued_app _ _ _ Htr).
  eapply Forall_impl; [apply Hdry; reflexivity|].
  intros [] H; try discriminate H. auto.
Qed.

End CleanupExecutorExtras.

(** ** The cost analyzer, continued *)

Module CostAnalyzerExtras.
Import Py CostAnalyzer Fixtures CostAnalyzerProofs.

(** A day whose deviation from the baseline is beyond the threshold. *)
Definition flagged (baseline_avg : pynum) (threshold : float)
    (day : DailyCost) : bool :=
  match deviation_of (cost day) baseline_avg with
  | inr deviation => gt (abs deviation) (PyFloat threshold)
  | inl _ => false
  end.

(** The anomaly reported for a flagged day. *)
Definition reported (baseline_avg : pynum) (day : DailyCost)
    (anomaly : Anomaly) : Prop :=
  anomaly_date anomaly = date day /\
  anomaly_cost anomaly = cost day /\
  baseline anomaly = baseline_avg /\
  deviation_of (cost day) baseline_avg = inr (deviation_percentage anomaly) /\
  severity anomaly
  = if gt (abs (deviation_percentage anomaly)) (PyInt 50)
    then "high" else "medium".

(** The item written for an anomaly. *)
Definition saved_as (anomaly : Anomaly) (item : AnomalyItem) : Prop :=
  detected_date item = anomaly_date anomaly /\
  item_cost item = anomaly_cost anomaly /\
  item_baseline item = baseline anomaly /\
  item_deviation_percentage item = deviation_percentage anomaly /\
  item_severity item = severity anomaly /\
  item_status item = "new".

Lemma save_anomaly_returns (w : World) (anomaly : Anomaly) (st st' : State)
    (u : unit) :
  save_anomaly w anomaly st = (inr u, st') ->
  exists item,
    table st' = table st ++ [item] /\ saved_as anomaly item /\
    ticks st' = 3 + ticks st.
Proof.
  unfold save_anomaly, bind, datetime_now, put_item. simpl.
  destruct (put_item_raises w (table st) _); intros H; [discriminate H|].
  inversion H; subst; clear H. eexists. split; [reflexivity|].
  unfold saved_as. simpl. auto 7.
Qed.

Lemma check_days_returns (w : World) (threshold : float)
    (days : list DailyCost) (baseline_avg : pynum)
    (found anomalies : list Anomaly) (st st' : State) :
  check_days w threshold days baseline_avg found st = (inr anomalies, st') ->
  exists new written,
    anomalies = found ++ new /\
    table st' = table st ++ written /\
    Forall2 (reported baseline_avg)
      (List.filter (flagged baseline_avg threshold) days) new /\
    Forall2 saved_as new written /\
    ticks st' = 3 * length new + ticks st.
Proof.
  revert found st. induction days as [|day rest IH]; intros found st;
    cbn [check_days List.filter].
  - intros H. inversion H; subst; clear H. exists [], [].
    rewrite !app_nil_r. repeat split; auto.
  - unfold bind at 1, lift at 1. unfold flagged at 1.
    destruct (deviation_of (cost day) baseline_avg) as [e | deviation]
      eqn:Hdev; [intros H; discriminate H|].
    destruct (gt (abs deviation) (PyFloat threshold)).
    + cbv zeta. unfold bind at 1.
      match goal with
      | |- context [save_anomaly w ?a st] =>
          destruct (save_anomaly w a st) as [[e | u] st1] eqn:Hsave
      end;
        [intros H; discriminate H|].
      apply save_anomaly_returns in Hsave.
      destruct Hsave as (item & Ht & Hitem & Hk).
      intros H. apply IH in H.
      destruct H as (new & written & -> & Ht' & Hrep & Hsaved & Hk').
      eexists (_ :: new), (item :: written). rewrite <- app_assoc.
      split; [reflexivity|]. rewrite Ht', Ht, <- app_assoc.
      split; [reflexivity|]. split.
      * constructor; [|exact Hrep]. unfold reported. simpl. auto.
      * split; [constructor; assumption|]. simpl length. lia.
    + apply IH.
Qed.

(** X11: when [detect_anomalies] returns, it reports exactly the days of
    the last seven whose deviation from the baseline is beyond the
    threshold, in order, each graded high above 50 and medium otherwise,
    and it has appended one item per reported anomaly to the table, in
    the same order and with the same date, cost, baseline, deviation and
    severity. *)
Theorem anomalies_are_the_flagged_days (w : World) (threshold : float)
    (cost_data : CostData) (st st' : State) (anomalies : list Anomaly) :
  7 <= length (daily_costs cost_data) ->
  detect_anomalies w threshold cost_data st = (inr anomalies, st') ->
  exists baseline_avg written,
    baseline_of (daily_costs cost_data) = inr baseline_avg /\
    Forall2 (reported baseline_avg)
      (List.filter (flagged baseline_avg threshold)
         (slice_from_neg 7 (daily_costs cost_data)))
      anomalies /\
    length anomalies <= 7 /\
    table st' = table st ++ written /\
    Forall2 saved_as anomalies written.
Proof.
  intros Hlen. unfold detect_anomalies.
  destruct (Nat.ltb_spec (length (daily_costs cost_data)) 7) as [?|_]; [lia|].
  unfold bind at 1, lift at 1.
  destruct (baseline_of (daily_costs cost_data)) as [e | baseline_avg];
    [intros H; discriminate H|].
  intros H. apply check_days_returns in H.
  destruct H as (new & written & -> & Ht & Hrep & Hsaved & _).
  exists baseline_avg, written. simpl. repeat split; auto.
  apply Forall2_length in Hrep. rewrite <- Hrep.
  etransitivity; [apply List.filter_length_le|].
  unfold slice_from_neg. rewrite length_drop. lia.
Qed.

Lemma anomalies_are_the_flagged_days_witness :
  exists anomalies st',
    detect_anomalies quiet 25%float
      (series [100; 100; 160; 120; 130; 100; 100; 100; 100]%float) start
    = (inr anomalies, st') /\
    exists baseline_avg written,
      baseline_of
        (daily_costs
           (series [100; 100; 160; 120; 130; 100; 100; 100; 100]%float))
      = inr baseline_avg /\
      Forall2 (reported baseline_avg)
        (List.filter (flagged baseline_avg 25%float)
           (slice_from_neg 7
              (daily_costs
                 (series
                    [100; 100; 160; 120; 130; 100; 100; 100; 100]%float))))
        anomalies /\
      length anomalies <= 7 /\
      table st' = table start ++ written /\
      Forall2 saved_as anomalies written.
Proof.
  eexists _, _. split; [vm_compute; reflexivity|].
  apply (anomalies_are_the_flagged_days quiet 25%float
           (series [100; 100; 160; 120; 130; 100; 100; 100; 100]%float)
           start);
    [vm_compute; lia | vm_compute; reflexivity].
Defined.

Lemma save_anomaly_appends (w : World) (anomaly : Anomaly) (st : State) :
  exists written,
    table (save_anomaly w anomaly st).2 = table st ++ written /\
    length written <= 1.
Proof.
  unfold save_anomaly, bind, datetime_now, put_item. simpl.
  destruct (put_item_raises w (table st) _); simpl.
  - exists []. rewrite app_nil_r. auto.
  - eexists [_]. auto.
Qed.

Lemma check_days_appends (w : World) (threshold : float)
    (days : list DailyCost) (baseline_avg : pynum) (found : list Anomaly)
    (st : State) :
  exists written,
    table (check_days w threshold days baseline_avg found st).2
    = table st ++ written /\
    length written <= length days.
Proof.
  revert found st. induction days as [|day rest IH]; intros found st;
    cbn [check_days].
  - exists []. rewrite app_nil_r. auto.
  - unfold bind at 1, lift at 1.
    destruct (deviation_of (cost day) baseline_avg) as [e | deviation].
    { exists []. rewrite app_nil_r. simpl. split; [reflexivity | lia]. }
    destruct (gt (abs deviation) (PyFloat threshold)).
    + cbv zeta. unfold bind at 1.
      match goal with
      | |- context [save_anomaly w ?a st] =>
          destruct (save_anomaly_appends w a st) as (w1 & Ht1 & Hl1);
          destruct (save_anomaly w a st) as [[e | u] st1]
      end; simpl in Ht1.
      * exists w1. simpl. split; [exact Ht1 | lia].
      * match goal with
        | |- context [check_days w threshold rest baseline_avg ?f st1] =>
            destruct (IH f st1) as (w2 & Ht2 & Hl2)
        end.
        exists (w1 ++ w2). rewrite Ht2, Ht1, <- app_assoc.
        split; [reflexivity|]. rewrite length_app. simpl. lia.
    + destruct (IH found st) as (w2 & Ht2 & Hl2).
      exists w2. split; [exact Ht2 | simpl; lia].
Qed.

(** X12: whether it returns or raises, a run of [detect_anomalies] only
    appends to the table, at most seven items, and appends nothing when
    the series has fewer than eight days. *)
Theorem at_most_seven_items_written (w : World) (threshold : float)
    (cost_data : CostData) (st : State) :
  exists written,
    table (detect_anomalies w threshold cost_data st).2
    = table st ++ written /\
    length written <= 7 /\
    (length (daily_costs cost_data) < 8 -> written = []).
Proof.
  unfold detect_anomalies.
  destruct (Nat.ltb_spec (length (daily_costs cost_data)) 7) as [Hlt | Hge].
  { exists []. rewrite app_nil_r. simpl. repeat split; auto; lia. }
  unfold bind at 1, lift at 1.
  destruct (baseline_of (daily_costs cost_data)) as [e | baseline_avg]
    eqn:Hb.
  { exists []. rewrite app_nil_r. simpl. repeat split; auto; lia. }
  destruct (check_days_appends w threshold
              (slice_from_neg 7 (daily_costs cost_data)) baseline_avg [] st)
    as (written & Ht & Hl).
  exists written. split; [exact Ht|]. split.
  - etransitivity; [exact Hl|]. unfold slice_from_neg.
    rewrite length_drop. lia.
  - intros Hshort.
    assert (Hweek : length (daily_costs cost_data) = 7) by lia.
    rewrite (baseline_of_week _ Hweek) in Hb. discriminate Hb.
Qed.

End CostAnalyzerExtras.

(** ** The resource scanner, continued *)

Module ResourceScannerExtras.
Import Py ResourceScanner Fixtures ResourceScannerProofs.

(** *** Loops that may stop early *)

Section Loops.
Context {A F : Type}.
Variable body : A -> M (State * list F) unit.
Variable l : list A.
(** What holds after a turn that returned, and after one that raised. *)
Variables after_return after_raise : State * list F -> Prop.

Lemma for_each_outcome (sl : State * list F) :
  (forall a s, In a l -> after_return s ->
     match body a s with
     | (inr _, s') => after_return s'
     | (inl _, s') => after_raise s'
     end) ->
  after_return sl ->
  match for_each l body sl with
  | (inr _, sl') => after_return sl'
  | (inl _, sl') => after_raise sl'
  end.
Proof.
  revert sl. induction l as [|a l' IH]; intros sl Hbody Hsl; simpl.
  - exact Hsl.
  - unfold bind. pose proof (Hbody a sl (or_introl eq_refl) Hsl) as Ha.
    destruct (body a sl) as [[e | u] s']; [exact Ha|].
    apply IH; [|exact Ha].
    intros a' s Hin. apply Hbody. right. exact Hin.
Qed.

End Loops.

(** *** What the EC2 scan flags *)

(** [finding] is what the scan reports for [instance]. *)
Definition finding_of (instance : EC2Instance) (finding : EC2Finding) : Prop :=
  resource_id finding = InstanceId instance /\
  resource_type finding = "ec2_instance" /\
  instance_type finding = InstanceType instance /\
  tags finding = dict_of_pairs (Tags instance) /\
  exempt (tags finding) = false /\
  lt (cpu_average finding) (PyInt 5) = true /\
  estimated_monthly_cost finding = estimate_ec2_cost (InstanceType instance).


(** The table holds an item for this resource. *)
Definition saved (st : State) (resource_id : string) : Prop :=
  exists date item,
    table st !! (resource_id, date) = Some item /\
    item_resource_id item = resource_id.

Lemma saved_insert (st st' : State) (item : IdleItem) (resource_id : string) :
  table st' = <[(item_resource_id item, scan_date item) := item]> (table st) ->
  saved st resource_id -> saved st' resource_id.
Proof.
  intros Ht (date & item0 & Hl & Hid). unfold saved. rewrite Ht.
  destruct (decide ((item_resource_id item, scan_date item)
                    = (resource_id, date))) as [Heq | Hne].
  - exists date, item. rewrite <- Heq, lookup_insert_eq.
    injection Heq as Hr _. auto.
  - exists date, item0. rewrite lookup_insert_ne by exact Hne. auto.
Qed.

Lemma saved_same_table (st st' : State) (resource_id : string) :
  table st' = table st -> saved st resource_id -> saved st' resource_id.
Proof. intros Ht. unfold saved. rewrite Ht. auto. Qed.

(** The ways [save_idle_resource] can go. *)
Lemma save_idle_resource_cases (w : World) (resource_id resource_type : string)
    (metadata : list (string * MetaValue)) (st : State) :
  exists r st',
    save_idle_resource w resource_id resource_type metadata st = (r, st') /\
    ((exists e, r = inl e /\ table st' = table st)
     \/ (r = inr tt /\
         exists item,
           item_resource_id item = resource_id /\
           table st'
           = <[(item_resource_id item, scan_date item) := item]> (table st))).
Proof.
  unfold save_idle_resource, bind, datetime_now, put_item. simpl.
  destruct (put_item_raises w (table st) _) as [e|];
    eexists _, _; (split; [reflexivity|]); simpl; [left; eauto | right].
  split; [reflexivity|].
  match goal with
  | |- context [<[_ := ?item]> (table st)] => exists item
  end.
  split; reflexivity.
Qed.

(** The ways one turn of the EC2 loop can go. *)
Lemma scan_instance_cases (w : World) (instance : EC2Instance)
    (st : State) (idle : list EC2Finding) :
  exists r st' idle',
    scan_instance w instance (st, idle) = (r, (st', idle')) /\
    ((r = inr tt /\ idle' = idle /\ table st' = table st)
     \/ exists finding,
         idle' = idle ++ [finding] /\ finding_of instance finding /\
         ((exists e, r = inl e /\ table st' = table st)
          \/ (r = inr tt /\
              exists item,
                item_resource_id item = resource_id finding /\
                table st'
                = <[(item_resource_id item, scan_date item) := item]>
                    (table st)))).
Proof.
  unfold scan_instance.
  destruct (exempt (dict_of_pairs (Tags instance))) eqn:He.
  { eexists _, _, _. split; [reflexivity|]. left. auto. }
  unfold bind at 1, on_store at 1. simpl.
  destruct (get_cpu_utilization_returns w (InstanceId instance) 7 st)
    as (avg & ->).
  destruct (lt avg (PyInt 5)) eqn:Hlt.
  2:{ eexists _, _, _. split; [reflexivity|]. left. auto. }
  unfold bind, append, on_store. simpl.
  match goal with
  | |- context [save_idle_resource w ?a ?b ?c ?s] =>
      destruct (save_idle_resource_cases w a b c s) as (r & st' & -> & Hs)
  end.
  simpl in Hs.
  destruct Hs as [(e & -> & Ht) | (-> & item & Hid & Ht)];
    eexists _, _, _; (split; [reflexivity|]); right;
    eexists; (split; [reflexivity|]);
    (split; [unfold finding_of; simpl; auto 8|]); [left | right]; eauto.
Qed.


(** The list a scan returns. *)
Definition returned {F} (run : (Exn + list F) * State) : list F :=
  match run.1 with
  | inr l => l
  | inl _ => []
  end.





(** *** Findings survive a failed write *)

(** All the findings are in the table. *)
Definition all_saved (sl : State * list EC2Finding) : Prop :=
  Forall (fun f => saved sl.1 (resource_id f)) sl.2.

(** All the findings but the last one are in the table. *)
Definition all_but_last_saved (sl : State * list EC2Finding) : Prop :=
  Forall (fun f => saved sl.1 (resource_id f)) (removelast sl.2).

Lemma scan_instance_saves (w : World) (instance : EC2Instance)
    (s : State * list EC2Finding) :
  all_saved s ->
  match scan_instance w instance s with
  | (inr _, s') => all_saved s'
  | (inl _, s') => all_but_last_saved s'
  end.
Proof.
  destruct s as [st idle]. intros Hs.
  destruct (scan_instance_cases w instance st idle)
    as (r & st1 & idle1 & -> & Hcase).
  unfold all_saved, all_but_last_saved in *. simpl in *.
  destruct Hcase as [(-> & -> & Ht)
                    | (f & -> & _ & [(e & -> & Ht)
                                    | (-> & item & Hid & Ht)])].
  - eapply Forall_impl; [exact Hs|]. intros f. apply saved_same_table, Ht.
  - rewrite removelast_last.
    eapply Forall_impl; [exact Hs|]. intros f'. apply saved_same_table, Ht.
  - apply Forall_app. split.
    + eapply Forall_impl; [exact Hs|]. intros f'.
      apply (saved_insert st st1 item), Ht.
    + constructor; [|constructor].
      exists (scan_date item), item. rewrite Ht, <- Hid, lookup_insert_eq.
      auto.
Qed.

Lemma scan_idle_ec2_instances_loop (w : World) (st : State) :
  scan_idle_ec2_instances w st
  = match describe_running_instances w with
    | inl _ => (inr [], st)
    | inr reservations =>
        let loop :=
          for_each reservations
            (fun reservation : list EC2Instance =>
               for_each reservation (scan_instance w)) (st, []) in
        (inr loop.2.2, loop.2.1)
    end.
Proof.
  unfold scan_idle_ec2_instances, try_except, bind at 1, lift.
  destruct (describe_running_instances w) as [e | reservations];
    [reflexivity|].
  simpl. destruct (for_each reservations _ (st, [])) as [[e | u] [st' idle]];
    reflexivity.
Qed.

(** X15: all the findings the EC2 scan returns, except possibly the last
    one, are in the idle-resources table when the scan ends: a write that
    raises stops the scan, loses nothing of what was found before, and
    leaves only the finding being written unsaved. *)
Theorem findings_survive_failed_write (w : World) (st : State) :
  let run := scan_idle_ec2_instances w st in
  Forall (fun f => saved run.2 (resource_id f)) (removelast (returned run)).
Proof.
  rewrite scan_idle_ec2_instances_loop.
  destruct (describe_running_instances w) as [e | reservations];
    [constructor|].
  unfold returned. simpl.
  pose proof (for_each_outcome
                (fun reservation : list EC2Instance =>
                   for_each reservation (scan_instance w))
                reservations all_saved all_but_last_saved (st, []))
    as Hloop.
  simpl in Hloop.
  assert (Hfinal :
            match for_each reservations
                    (fun reservation : list EC2Instance =>
                       for_each reservation (scan_instance w)) (st, [])
            with
            | (inr _, sl') => all_saved sl'
            | (inl _, sl') => all_but_last_saved sl'
            end).
  { apply Hloop; [|constructor].
    intros reservation s _ Hs.
    apply (for_each_outcome (scan_instance w) reservation
             all_saved all_but_last_saved s); [|exact Hs].
    intros instance s0 _. apply scan_instance_saves. }
  destruct (for_each reservations _ (st, [])) as [[e | u] [st' idle]];
    simpl; [exact Hfinal|].
  unfold all_saved in Hfinal. simpl in Hfinal.
  clear -Hfinal. induction Hfinal as [|f l Hf Hl IH]; [constructor|].
  destruct l; [constructor|]. simpl. constructor; [exact Hf | exact IH].
Qed.

End ResourceScannerExtras.

(** ** The tag enforcer, continued *)

Module TagEnforcerExtras.
Import Py TagEnforcer TagEnforcerProofs.

Section CheckerLaws.
Variable re_match : string -> string -> Exn + bool.
Variable tags : gmap string string.

(** The rule's key is not among the tags. *)
Definition absent (rule : RequiredTag) : bool :=
  bool_decide (tags !! key rule = None).

(** The entries a rule adds to [invalid_tags]. *)
Definition invalid_of (rule : RequiredTag) : list InvalidTag :=
  match tags !! key rule with
  | None => []
  | Some v =>
      (if negb (bool_decide (values rule = []))
          && negb (bool_decide (v ∈ values rule))
       then [NotAllowed (key rule) v (values rule)] else [])
      ++ match pattern rule with
         | Some p =>
             match re_match p v with
             | inr false => [NoMatch (key rule) v p]
             | _ => []
             end
         | None => []
         end
  end.

(** The rule holds of the tags: the key is there, its value is allowed,
    and it matches the pattern. *)
Definition satisfied (rule : RequiredTag) : bool :=
  match tags !! key rule with
  | None => false
  | Some v =>
      (bool_decide (values rule = []) || bool_decide (v ∈ values rule))
      && match pattern rule with
         | Some p =>
             match re_match p v with inr true => true | _ => false end
         | None => true
         end
  end.

Lemma check_rule_exact (rule : RequiredTag) (m0 m : list string)
    (i0 i : list InvalidTag) :
  check_rule re_match tags rule (m0, i0) = inr (m, i) ->
  m = m0 ++ (if absent rule then [key rule] else []) /\
  i = i0 ++ invalid_of rule.
Proof.
  unfold check_rule, absent, invalid_of.
  destruct (tags !! key rule) as [v|].
  - rewrite (bool_decide_eq_false_2 (Some v = None)) by discriminate.
    rewrite app_nil_r.
    destruct (negb (bool_decide (values rule = []))
              && negb (bool_decide (v ∈ values rule)));
      destruct (pattern rule) as [p|];
      try destruct (re_match p v) as [e | [|]];
      intros H; try discriminate H; injection H as <- <-;
      rewrite ?app_nil_r, <- ?app_assoc; auto.
  - rewrite (bool_decide_eq_true_2 (None = None)) by reflexivity.
    intros H. injection H as <- <-. rewrite app_nil_r. auto.
Qed.

Lemma check_rules_exact (required_tags : list RequiredTag)
    (m0 m : list string) (i0 i : list InvalidTag) :
  check_rules re_match tags required_tags (m0, i0) = inr (m, i) ->
  m = m0 ++ map key (List.filter absent required_tags) /\
  i = i0 ++ flat_map invalid_of required_tags.
Proof.
  revert m0 i0. induction required_tags as [|rule rest IH]; intros m0 i0;
    cbn [check_rules List.filter flat_map].
  - intros H. injection H as <- <-. rewrite !app_nil_r. auto.
  - destruct (check_rule re_match tags rule (m0, i0)) as [e | [m1 i1]] eqn:E;
      [intros H; discriminate H|].
    apply check_rule_exact in E. destruct E as [-> ->].
    intros H. apply IH in H. destruct H as [-> ->].
    rewrite <- !app_assoc. destruct (absent rule); auto.
Qed.

Lemma check_exact (required_tags : list RequiredTag) (c : Compliance) :
  check_resource_compliance re_match tags required_tags = inr c ->
  missing_tags c = map key (List.filter absent required_tags) /\
  invalid_tags c = flat_map invalid_of required_tags /\
  compliant c = (length (missing_tags c) =? 0)%nat
                && (length (invalid_tags c) =? 0)%nat.
Proof.
  unfold check_resource_compliance.
  destruct (check_rules re_match tags required_tags ([], []))
    as [e | [m i]] eqn:E; [intros H; discriminate H|].
  apply check_rules_exact in E. destruct E as [-> ->].
  intros H. injection H as <-. simpl. auto.
Qed.

(** A rule adds nothing to either list exactly when it is satisfied,
    provided its pattern compiles. *)
Lemma satisfied_iff (rule : RequiredTag) :
  compiles re_match tags rule = true ->
  satisfied rule = true <-> absent rule = false /\ invalid_of rule = [].
Proof.
  unfold compiles, satisfied, absent, invalid_of.
  destruct (tags !! key rule) as [v|].
  - rewrite (bool_decide_eq_false_2 (Some v = None)) by discriminate.
    destruct (bool_decide (values rule = []));
      destruct (bool_decide (v ∈ values rule));
      destruct (pattern rule) as [p|];
      try destruct (re_match p v) as [e | [|]];
      simpl; intros Hc; split; try discriminate Hc; auto;
      try (intros H; discriminate H);
      try (intros [_ H]; discriminate H).
  - rewrite (bool_decide_eq_true_2 (None = None)) by reflexivity. intros _.
    split; [intros H | intros [H _]]; discriminate H.
Qed.

Lemma returns_compiles (required_tags : list RequiredTag) (c : Compliance) :
  check_resource_compliance re_match tags required_tags = inr c ->
  patterns_compile re_match tags required_tags = true.
Proof.
  unfold check_resource_compliance.
  generalize (@nil string, @nil InvalidTag).
  induction required_tags as [|rule rest IH]; intros acc;
    cbn [check_rules]; [reflexivity|].
  destruct (check_rule re_match tags rule acc) as [e | acc1] eqn:E;
    [intros H; discriminate H|].
  intros H. unfold patterns_compile. simpl.
  apply andb_true_iff. split; [|exact (IH acc1 H)].
  clear -E. unfold check_rule, compiles in *. destruct acc as [m0 i0].
  destruct (tags !! key rule) as [v|]; [|reflexivity].
  destruct (pattern rule) as [p|]; [|reflexivity].
  destruct (re_match p v); [discriminate E | reflexivity].
Qed.

(** X16: when the check returns, the resource is compliant exactly when
    every required-tag rule is satisfied: its key is among the tags, the
    value is one of the allowed values when there are any, and the value
    matches the pattern when there is one. *)
Theorem compliant_iff_all_rules_hold (required_tags : list RequiredTag)
    (c : Compliance) :
  check_resource_compliance re_match tags required_tags = inr c ->
  compliant c = forallb satisfied required_tags.
Proof.
  intros H. pose proof (returns_compiles _ _ H) as Hp.
  apply check_exact in H. destruct H as (Hm & Hi & ->). rewrite Hm, Hi.
  clear Hm Hi c. unfold patterns_compile in Hp.
  induction required_tags as [|rule rest IH]; [reflexivity|].
  simpl in Hp. apply andb_true_iff in Hp. destruct Hp as [Hrule Hrest].
  specialize (IH Hrest). cbn [List.filter flat_map forallb].
  pose proof (satisfied_iff rule Hrule) as Hsat.
  destruct (satisfied rule).
  - destruct (proj1 Hsat eq_refl) as [-> ->]. simpl. exact IH.
  - destruct (absent rule) eqn:Ha; [reflexivity|].
    destruct (invalid_of rule) eqn:Hinv.
    + discriminate (proj2 Hsat (conj eq_refl eq_refl)).
    + simpl. apply andb_false_r.
Qed.

Lemma invalid_of_spec (rule : RequiredTag) (i : InvalidTag) :
  In i (invalid_of rule) ->
  exists v,
    tags !! key rule = Some v /\
    (i = NotAllowed (key rule) v (values rule)
     \/ exists p, pattern rule = Some p /\ i = NoMatch (key rule) v p).
Proof.
  unfold invalid_of. destruct (tags !! key rule) as [v|]; [|intros []].
  intros H. exists v. split; [reflexivity|].
  apply in_app_or in H. destruct H as [H | H].
  - destruct (_ && _); [|destruct H]. destruct H as [<- | []]. auto.
  - destruct (pattern rule) as [p|]; [|destruct H].
    destruct (re_match p v) as [e | [|]]; [destruct H | destruct H |].
    destruct H as [<- | []]. eauto.
Qed.

(** X17: the two lists of a verdict never overlap and say only what is
    so: every key in [missing_tags] is the key of a rule and is absent
    from the tags; every entry of [invalid_tags] names the key of a rule
    that is present in the tags, with the value the resource has; so no
    key is reported both missing and invalid. *)
Theorem missing_and_invalid_are_disjoint (required_tags : list RequiredTag)
    (c : Compliance) :
  check_resource_compliance re_match tags required_tags = inr c ->
  (forall k,
     In k (missing_tags c) ->
     tags !! k = None /\ exists rule, In rule required_tags /\ key rule = k)
  /\ (forall i,
        In i (invalid_tags c) ->
        exists rule v,
          In rule required_tags /\ invalid_key i = key rule /\
          tags !! key rule = Some v /\
          (i = NotAllowed (key rule) v (values rule)
           \/ exists p, pattern rule = Some p
                        /\ i = NoMatch (key rule) v p))
  /\ (forall i,
        In i (invalid_tags c) -> ~ In (invalid_key i) (missing_tags c)).
Proof.
  intros H. apply check_exact in H. destruct H as (Hm & Hi & _).
  assert (H1 : forall k,
             In k (missing_tags c) ->
             tags !! k = None
             /\ exists rule, In rule required_tags /\ key rule = k).
  { intros k Hk. rewrite Hm in Hk. apply in_map_iff in Hk.
    destruct Hk as (rule & <- & Hr). apply List.filter_In in Hr.
    destruct Hr as [Hr Ha]. unfold absent in Ha.
    apply bool_decide_eq_true_1 in Ha. eauto. }
  assert (H2 : forall i,
             In i (invalid_tags c) ->
             exists rule v,
               In rule required_tags /\ invalid_key i = key rule /\
               tags !! key rule = Some v /\
               (i = NotAllowed (key rule) v (values rule)
                \/ exists p, pattern rule = Some p
                             /\ i = NoMatch (key rule) v p)).
  { intros i Hin. rewrite Hi in Hin. apply in_flat_map in Hin.
    destruct Hin as (rule & Hr & Hin). apply invalid_of_spec in Hin.
    destruct Hin as (v & Hv & Hshape). exists rule, v.
    repeat split; auto.
    destruct Hshape as [-> | (p & _ & ->)]; reflexivity. }
  split; [exact H1|]. split; [exact H2|].
  intros i Hin Hmiss. apply H1 in Hmiss. destruct Hmiss as [Hnone _].
  apply H2 in Hin. destruct Hin as (rule & v & _ & Hk & Hv & _).
  congruence.
Qed.

(** X18: the order of the rules does not matter: when the check returns
    for a list of rules, it returns for every reordering of the list,
    with the same [compliant] and with the same missing keys and invalid
    entries up to their order. *)
Theorem rule_order_does_not_matter (required_tags reordered : list RequiredTag)
    (c : Compliance) :
  Permutation required_tags reordered ->
  check_resource_compliance re_match tags required_tags = inr c ->
  exists c',
    check_resource_compliance re_match tags reordered = inr c' /\
    compliant c' = compliant c /\
    Permutation (missing_tags c') (missing_tags c) /\
    Permutation (invalid_tags c') (invalid_tags c).
Proof.
  intros Hperm H.
  assert (Hall : forall f : RequiredTag -> bool,
             forallb f reordered = forallb f required_tags).
  { intros f. clear -Hperm.
    induction Hperm as [|x l l' _ IH|x y l|l l' l'' _ IH1 _ IH2]; simpl.
    - reflexivity.
    - rewrite IH. reflexivity.
    - destruct (f x), (f y); reflexivity.
    - congruence. }
  pose proof (returns_compiles _ _ H) as Hp.
  unfold patterns_compile in Hp. rewrite <- Hall in Hp.
  destruct (check_rules_returns re_match tags reordered ([], []) Hp)
    as ([m i] & E).
  assert (E' : check_resource_compliance re_match tags reordered
               = inr {| compliant := (length m =? 0)%nat
                                     && (length i =? 0)%nat;
                        missing_tags := m; invalid_tags := i |}).
  { unfold check_resource_compliance. rewrite E. reflexivity. }
  eexists. split; [exact E'|].
  rewrite (compliant_iff_all_rules_hold _ _ E'),
    (compliant_iff_all_rules_hold _ _ H).
  split; [apply Hall|].
  apply check_exact in E'. apply check_exact in H.
  destruct E' as (-> & -> & _). destruct H as (-> & -> & _).
  split.
  - apply Permutation_map. symmetry. clear -Hperm.
    induction Hperm as [|x l l' _ IH|x y l|l l' l'' _ IH1 _ IH2]; simpl.
    + reflexivity.
    + destruct (absent x); [constructor|]; exact IH.
    + destruct (absent x), (absent y); try reflexivity. constructor.
    + etransitivity; eassumption.
  - symmetry. clear -Hperm.
    induction Hperm as [|x l l' _ IH|x y l|l l' l'' _ IH1 _ IH2]; simpl.
    + reflexivity.
    + apply Permutation_app_head, IH.
    + rewrite !app_assoc. apply Permutation_app_tail, Permutation_app_comm.
    + etransitivity; eassumption.
Qed.

End CheckerLaws.

Lemma compliant_iff_all_rules_hold_witness :
  false
  = forallb (satisfied prefix_match test_box) default_required_tags.
Proof.
  apply (compliant_iff_all_rules_hold prefix_match test_box
           default_required_tags
           {| compliant := false;
              missing_tags := ["CostCenter"];
              invalid_tags :=
                [NotAllowed "Environment" "Test"
                   ["Production"; "Staging"; "Development"]] |}).
  vm_compute. reflexivity.
Defined.

Definition test_box_verdict : Compliance :=
  {| compliant := false;
     missing_tags := ["CostCenter"];
     invalid_tags :=
       [NotAllowed "Environment" "Test"
          ["Production"; "Staging"; "Development"]] |}.

Lemma missing_and_invalid_are_disjoint_witness :
  (forall k,
     In k (missing_tags test_box_verdict) ->
     test_box !! k = None
     /\ exists rule, In rule default_required_tags /\ key rule = k)
  /\ (forall i,
        In i (invalid_tags test_box_verdict) ->
        exists rule v,
          In rule default_required_tags /\ invalid_key i = key rule /\
          test_box !! key rule = Some v /\
          (i = NotAllowed (key rule) v (values rule)
           \/ exists p, pattern rule = Some p
                        /\ i = NoMatch (key rule) v p))
  /\ (forall i,
        In i (invalid_tags test_box_verdict) ->
        ~ In (invalid_key i) (missing_tags test_box_verdict)).
Proof.
  apply (missing_and_invalid_are_disjoint prefix_match test_box
           default_required_tags test_box_verdict).
  vm_compute. reflexivity.
Defined.

Lemma rule_order_does_not_matter_witness :
  exists c',
    check_resource_compliance prefix_match test_box
      (rev default_required_tags) = inr c' /\
    compliant c' = compliant test_box_verdict /\
    Permutation (missing_tags c') (missing_tags test_box_verdict) /\
    Permutation (invalid_tags c') (invalid_tags test_box_verdict).
Proof.
  apply (rule_order_does_not_matter prefix_match test_box
           default_required_tags (rev default_required_tags)
           test_box_verdict).
  - apply Permutation_rev.
  - vm_compute. reflexivity.
Defined.

End TagEnforcerExtras.

(** ** The report generator, continued *)

Module ReportGeneratorExtras.
Import Py ReportGenerator Fixtures ReportGeneratorProofs.

(** The items of one resource type, in the order of the scan, and the
    entry the loop builds for them. *)
Definition group (rtype : string) (items : list Item) : list Item :=
  List.filter (fun item => bool_decide (resource_type item = Some rtype))
    items.

Definition resource_of (item : Item) : Resource :=
  {| id := default EmptyString (resource_id item);
     resource_metadata := default [] (metadata item) |}.

Definition entry_of (items : list Item) : option TypeEntry :=
  match items with
  | [] => None
  | _ :: _ =>
      Some {| count := Z.of_nat (length items);
              resources := map resource_of items |}
  end.

(** An item has the two attributes the loop subscripts. *)
Definition well_formed (item : Item) : bool :=
  match resource_type item, resource_id item with
  | Some _, Some _ => true
  | _, _ => false
  end.

Definition total (d : gmap string TypeEntry) : Z :=
  map_fold (fun _ r n => (n + count r)%Z) 0%Z d.

Lemma total_insert (d : gmap string TypeEntry) (k : string) (e : TypeEntry) :
  total (<[k := e]> d)
  = (total d + count e
     - match d !! k with Some old => count old | None => 0 end)%Z.
Proof.
  unfold total.
  assert (Hcomm : forall (m : gmap string TypeEntry)
                    (j1 j2 : string) (z1 z2 : TypeEntry) (y : Z),
             j1 <> j2 -> m !! j1 = Some z1 -> m !! j2 = Some z2 ->
             (y + count z2 + count z1 = y + count z1 + count z2)%Z).
  { intros. lia. }
  destruct (d !! k) as [old|] eqn:Hk.
  - rewrite <- insert_delete_eq.
    rewrite map_fold_insert_L;
      [|intros; lia | apply lookup_delete_eq].
    rewrite (map_fold_delete_L _ _ k old d); [lia | intros; lia | exact Hk].
  - rewrite map_fold_insert_L; [lia | intros; lia | exact Hk].
Qed.

Lemma group_snoc (rtype : string) (seen : list Item) (item : Item) :
  group rtype (seen ++ [item])
  = group rtype seen
    ++ (if bool_decide (resource_type item = Some rtype) then [item] else []).
Proof. unfold group. rewrite List.filter_app. reflexivity. Qed.

(** One turn of the loop on a well-formed item keeps the entries equal to
    the groups of the items seen and the total equal to their number. *)
Lemma add_item_groups (seen : list Item) (item : Item)
    (d : gmap string TypeEntry) (s : Z) :
  well_formed item = true ->
  (forall rtype, d !! rtype = entry_of (group rtype seen)) ->
  total d = Z.of_nat (length seen) ->
  exists d',
    add_item item (d, s) = inr (d', s) /\
    (forall rtype, d' !! rtype = entry_of (group rtype (seen ++ [item]))) /\
    total d' = Z.of_nat (length (seen ++ [item])).
Proof.
  intros Hwf Hd Ht. unfold well_formed in Hwf. unfold add_item.
  destruct (resource_type item) as [t|] eqn:Htype; [|discriminate Hwf].
  destruct (resource_id item) as [rid|] eqn:Hid; [|discriminate Hwf].
  simpl. eexists. split; [reflexivity|].
  set (d0 := match d !! t with
             | Some _ => d
             | None => <[t := {| count := 0; resources := [] |}]> d
             end).
  assert (Hentry : default {| count := 0; resources := [] |} (d0 !! t)
                   = {| count := Z.of_nat (length (group t seen));
                        resources := map resource_of (group t seen) |}).
  { subst d0. pose proof (Hd t) as Hdt.
    destruct (d !! t) as [old|] eqn:Hold.
    - rewrite Hold. simpl. destruct (group t seen); [discriminate Hdt|].
      simpl in Hdt. injection Hdt as ->. reflexivity.
    - rewrite lookup_insert_eq. simpl.
      destruct (group t seen); [reflexivity | discriminate Hdt]. }
  rewrite Hentry. simpl. split.
  - intros rtype. rewrite group_snoc, Htype.
    destruct (decide (t = rtype)) as [<- | Hne].
    + rewrite lookup_insert_eq, bool_decide_eq_true_2 by reflexivity.
      assert (Hr : resource_of item
                   = {| id := rid;
                        resource_metadata := default [] (metadata item) |}).
      { unfold resource_of. rewrite Hid. reflexivity. }
      rewrite <- Hr.
      destruct (group t seen) as [|x g]; simpl; [reflexivity|].
      rewrite length_app, map_app. simpl. do 2 f_equal. lia.
    + rewrite lookup_insert_ne by exact Hne.
      rewrite bool_decide_eq_false_2 by congruence. rewrite app_nil_r.
      subst d0. destruct (d !! t); [apply Hd|].
      rewrite lookup_insert_ne by exact Hne. apply Hd.
  - rewrite total_insert. rewrite length_app. simpl.
    assert (Ht0 : (total d0
                   - match d0 !! t with
                     | Some old => count old
                     | None => 0
                     end = total d
                           - Z.of_nat (length (group t seen)))%Z).
    { subst d0. pose proof (Hd t) as Hdt.
      destruct (d !! t) as [old|] eqn:Hold.
      - rewrite Hold. destruct (group t seen); [discriminate Hdt|].
        simpl in Hdt. injection Hdt as ->. reflexivity.
      - rewrite total_insert, Hold, lookup_insert_eq. simpl.
        destruct (group t seen); [simpl; lia | discriminate Hdt]. }
    lia.
Qed.

Lemma add_items_groups (items seen : list Item)
    (d : gmap string TypeEntry) (s : Z) :
  forallb well_formed items = true ->
  (forall rtype, d !! rtype = entry_of (group rtype seen)) ->
  total d = Z.of_nat (length seen) ->
  exists d',
    add_items items (d, s) = inr (d', s) /\
    (forall rtype, d' !! rtype = entry_of (group rtype (seen ++ items))) /\
    total d' = Z.of_nat (length (seen ++ items)).
Proof.
  revert seen d. induction items as [|item rest IH]; intros seen d Hwf Hd Ht.
  - exists d. rewrite app_nil_r. auto.
  - simpl in Hwf. apply andb_true_iff in Hwf. destruct Hwf as [Hitem Hrest].
    destruct (add_item_groups seen item d s Hitem Hd Ht)
      as (d1 & E1 & Hd1 & Ht1).
    destruct (IH (seen ++ [item]) d1 Hrest Hd1 Ht1) as (d' & E' & Hd' & Ht').
    exists d'. cbn [add_items]. rewrite E1, E'.
    rewrite <- app_assoc in Hd', Ht'. auto.
Qed.

(** X19: when the scan of the table returns items that all have a
    resource type and a resource id, the summary groups them by type:
    each type that occurs has an entry whose count is the number of its
    items and whose resources are those items in the order of the scan,
    a type that does not occur has no entry, and the total is the number
    of items. *)
Theorem summary_groups_by_type (w : World) (st : State) (items : list Item) :
  scan w (strftime (clock w) "%Y-%m-%d" (plus_days (now (clock w) st) (-1)))
    = inr items ->
  forallb well_formed items = true ->
  exists summary,
    generate_idle_resources_summary w st = (inr summary, S st) /\
    total_idle_resources summary = Z.of_nat (length items) /\
    (forall rtype,
       by_type summary !! rtype = entry_of (group rtype items)).
Proof.
  intros Hscan Hwf.
  unfold generate_idle_resources_summary, bind at 1, datetime_now.
  unfold try_except, bind at 1, lift at 1. rewrite Hscan.
  unfold bind, lift.
  destruct (add_items_groups items [] ∅ 0%Z Hwf) as (d' & -> & Hd' & Ht').
  - intros rtype. apply lookup_empty.
  - reflexivity.
  - eexists. split; [reflexivity|]. simpl. split; [exact Ht' | exact Hd'].
Qed.

Lemma summary_groups_by_type_witness :
  exists summary,
    generate_idle_resources_summary findings 0 = (inr summary, 1) /\
    total_idle_resources summary = 2%Z /\
    (forall rtype,
       by_type summary !! rtype
       = entry_of
           (group rtype
              match scan findings "" with inr items => items | inl _ => [] end)).
Proof.
  apply (summary_groups_by_type findings 0
           match scan findings "" with inr items => items | inl _ => [] end);
    reflexivity.
Defined.

Lemma add_items_malformed (items : list Item)
    (acc : gmap string TypeEntry * Z) :
  forallb well_formed items = false ->
  exists e, add_items items acc = inl e.
Proof.
  revert acc. induction items as [|item rest IH]; intros acc Hwf;
    [discriminate Hwf|].
  simpl in Hwf. cbn [add_items].
  destruct (add_item item acc) as [e | acc1] eqn:E; [eauto|].
  apply IH. destruct (well_formed item) eqn:Hitem; [exact Hwf|].
  exfalso. clear -E Hitem. unfold add_item, well_formed in *.
  destruct acc as [d s].
  destruct (resource_type item); [|discriminate E].
  destruct (resource_id item); [discriminate Hitem | discriminate E].
Qed.

(** An item without its resource id, after a complete one. *)
Definition with_a_gap : World :=
  {| scan := fun _ =>
       inr [ {| resource_type := Some "ec2_instance";
                resource_id := Some "i-1";
                metadata := None;
                other_attributes := ∅ |};
             {| resource_type := Some "ebs_volume";
                resource_id := None;
                metadata := None;
                other_attributes := ∅ |} ];
     clock := steady_clock |}.

(** X20: one item without a resource type or a resource id empties the
    whole summary: the [KeyError] is caught, and the summary returned has
    no resources and no types, whatever the other items are. *)
Theorem one_bad_item_empties_summary (w : World) (st : State)
    (items : list Item) :
  scan w (strftime (clock w) "%Y-%m-%d" (plus_days (now (clock w) st) (-1)))
    = inr items ->
  forallb well_formed items = false ->
  generate_idle_resources_summary w st
  = (inr {| total_idle_resources := 0; by_type := ∅; total_savings := 0 |},
     S st).
Proof.
  intros Hscan Hwf.
  unfold generate_idle_resources_summary, bind at 1, datetime_now.
  unfold try_except, bind at 1, lift at 1. rewrite Hscan.
  unfold bind, lift.
  destruct (add_items_malformed items (∅, 0%Z) Hwf) as (e & ->).
  reflexivity.
Qed.

Lemma one_bad_item_empties_summary_witness :
  generate_idle_resources_summary with_a_gap 0
  = (inr {| total_idle_resources := 0; by_type := ∅; total_savings := 0 |},
     1).
Proof.
  apply (one_bad_item_empties_summary with_a_gap 0
           match scan with_a_gap "" with inr items => items | inl _ => [] end);
    reflexivity.
Defined.

End ReportGeneratorExtras.

(** ** The resource scanner: volumes, addresses, snapshots, images and
    load balancers *)

Module ResourceScannerKindsProofs.
Import Py ResourceScanner ResourceScannerKinds Fixtures.
Import ResourceScannerProofs ResourceScannerExtras.

(** *** The list a scan returns *)

Lemma returned_scan {F} (body : M (State * list F) unit) (st : State) :
  returned (scan body st) = (body (st, [])).2.2.
Proof.
  unfold returned, scan, try_except.
  destruct (body (st, [])) as [[e | u] [st' found]]; reflexivity.
Qed.

Lemma table_scan {F} (body : M (State * list F) unit) (st : State) :
  table (scan body st).2 = table (body (st, [])).2.1.
Proof.
  unfold scan, try_except.
  destruct (body (st, [])) as [[e | u] [st' found]]; reflexivity.
Qed.

(** Whatever a loop does, a property that every turn keeps for the
    findings holds of all the findings at the end. *)
Lemma for_each_all {A F} (body : A -> M (State * list F) unit)
    (l : list A) (P : F -> Prop) (sl : State * list F) :
  (forall a s, In a l -> Forall P s.2 -> Forall P (body a s).2.2) ->
  Forall P sl.2 -> Forall P (for_each l body sl).2.2.
Proof.
  intros Hbody Hsl.
  pose proof (for_each_outcome body l
                (fun s => Forall P s.2) (fun s => Forall P s.2) sl) as H.
  destruct (for_each l body sl) as [[e | u] s']; apply H; auto;
    intros a s Hin Hs; specialize (Hbody a s Hin Hs);
    destruct (body a s) as [[e' | u'] s'']; exact Hbody.
Qed.

(** Appending a finding and then writing it keeps what holds of the
    findings, if it holds of the new one. *)
Lemma append_and_save {F} (w : World) (finding : F)
    (resource_id resource_type : string)
    (metadata : list (string * MetaValue)) (P : F -> Prop)
    (s : State * list F) :
  P finding -> Forall P s.2 ->
  Forall P
    (bind (append finding)
       (fun _ => on_store (save_idle_resource w resource_id resource_type
                             metadata)) s).2.2.
Proof.
  intros Hf Hs. unfold bind, append, on_store. simpl.
  destruct (save_idle_resource w _ _ _ _) as [r st']. simpl.
  apply Forall_app. split; [exact Hs | repeat constructor; exact Hf].
Qed.

(** *** Volumes *)

Definition volume_finding_of (w : World) (volume : Volume)
    (finding : VolumeFinding) : Prop :=
  v_resource_id finding = VolumeId volume /\
  v_resource_type finding = "ebs_volume" /\
  dict_of_pairs (VolumeTags volume) !! "DoNotDelete" = None /\
  (7 <= v_days_unattached finding)%Z /\
  (exists n,
     v_days_unattached finding
     = days_between (now (clock w) n) (CreateTime volume)) /\
  v_estimated_monthly_cost finding
  = estimate_ebs_cost w (Size volume) (VolumeType volume).

(** X21: every finding of the volume scan is for a volume that
    [describe_volumes] listed, that has no [DoNotDelete] tag, and that
    was created at least 7 whole days before the clock reading taken for
    it; a tagged or recent volume is never flagged, whatever fails
    during the scan. *)
Theorem flagged_volumes_are_old_and_untagged (w : World) (inv : Inventory)
    (st : State) (finding : VolumeFinding) :
  In finding (returned (scan_unattached_ebs_volumes w inv st)) ->
  exists volumes volume,
    describe_volumes inv = inr volumes /\
    In volume volumes /\
    volume_finding_of w volume finding.
Proof.
  unfold scan_unattached_ebs_volumes. rewrite returned_scan.
  unfold bind at 1, lift.
  destruct (describe_volumes inv) as [e | volumes]; [intros []|].
  intros Hin.
  set (P := fun f : VolumeFinding =>
              exists volume,
                In volume volumes /\ volume_finding_of w volume f).
  assert (Hall : Forall P
                   (for_each volumes (scan_volume w) (st, [])).2.2).
  { apply for_each_all; [|constructor].
    intros volume s Hv Hs. unfold scan_volume.
    case_bool_decide as Htag; [exact Hs|].
    unfold bind at 1, on_store at 1, datetime_now. simpl.
    destruct (Z.leb_spec 7 (days_between (now (clock w) (ticks s.1))
                              (CreateTime volume))) as [Hold | _];
      [|exact Hs].
    apply append_and_save; [|exact Hs].
    exists volume. split; [exact Hv|].
    unfold volume_finding_of. simpl. repeat split; eauto.
    destruct (dict_of_pairs (VolumeTags volume) !! "DoNotDelete") eqn:E;
      [|reflexivity].
    exfalso. apply Htag. eauto. }
  rewrite Forall_forall in Hall. apply list_elem_of_In, Hall in Hin.
  destruct Hin as (volume & Hv & Hf). eauto.
Qed.

(** *** Addresses *)

Definition unassociated (address : Address) : bool :=
  match AssociationId address with
  | None => true
  | Some _ => false
  end.

Definition address_finding (address : Address) : AddressFinding :=
  {| a_resource_id := default (PublicIp address) (AllocationId address);
     a_resource_type := "elastic_ip";
     a_public_ip := PublicIp address;
     a_domain := default "vpc" (Domain address);
     a_estimated_monthly_cost := PyFloat 3.65 |}.

Lemma scan_addresses_loop (w : World) (addresses : list Address)
    (st : State) (found : list AddressFinding) :
  store_accepts w ->
  exists st',
    for_each addresses (scan_address w) (st, found)
    = (inr tt,
       (st', found ++ map address_finding
                        (List.filter unassociated addresses))).
Proof.
  intros Hs. revert st found.
  induction addresses as [|address rest IH]; intros st found; simpl.
  - exists st. rewrite app_nil_r. reflexivity.
  - unfold bind at 1, scan_address at 1, unassociated at 1.
    destruct (AssociationId address) as [association|]; simpl.
    + apply IH.
    + unfold bind, append, on_store. simpl.
      match goal with
      | |- context [save_idle_resource w ?a ?b ?c ?s] =>
          destruct (save_idle_resource_returns w a b c s Hs) as (st1 & ->)
      end.
      match goal with
      | |- context [for_each rest _ (st1, ?l)] =>
          destruct (IH st1 l) as (st' & ->)
      end.
      exists st'. rewrite <- app_assoc. reflexivity.
Qed.

(** X22: when the table accepts the findings, the address scan returns
    exactly the addresses without an association, in the order
    [describe_addresses] listed them, each under its allocation id or,
    when it has none, under its public IP. *)
Theorem unassociated_addresses_are_flagged (w : World) (inv : Inventory)
    (st : State) (addresses : list Address) :
  store_accepts w ->
  describe_addresses inv = inr addresses ->
  returned (scan_unassociated_elastic_ips w inv st)
  = map address_finding (List.filter unassociated addresses).
Proof.
  intros Hs Hd. unfold scan_unassociated_elastic_ips.
  rewrite returned_scan. unfold bind at 1, lift. rewrite Hd.
  destruct (scan_addresses_loop w addresses st [] Hs) as (st' & ->).
  reflexivity.
Qed.

(** *** Snapshots and images *)

(** The clock never goes back. *)
Definition monotone (c : Clock) : Prop :=
  forall n m, n <= m -> (now c n <= now c m)%Z.

Lemma for_each_keeps {A F} (body : A -> M (State * list F) unit)
    (l : list A) (I : State * list F -> Prop) (sl : State * list F) :
  (forall a s, In a l -> I s -> I (body a s).2) ->
  I sl -> I (for_each l body sl).2.
Proof.
  intros Hbody Hsl.
  pose proof (for_each_outcome body l I I sl) as H.
  destruct (for_each l body sl) as [[e | u] s']; apply H; auto;
    intros a s Hin Hs; specialize (Hbody a s Hin Hs);
    destruct (body a s) as [[e' | u'] s'']; exact Hbody.
Qed.

Lemma save_idle_resource_ticks (w : World) (resource_id resource_type : string)
    (metadata : list (string * MetaValue)) (st : State) :
  ticks (save_idle_resource w resource_id resource_type metadata st).2
  = 3 + ticks st.
Proof.
  unfold save_idle_resource, bind, datetime_now, put_item. simpl.
  destruct (put_item_raises w (table st) _); reflexivity.
Qed.

Lemma old_enough (t0 t1 start days : Z) :
  (start < plus_days t0 (- days))%Z -> (t0 <= t1)%Z ->
  (days <= days_between t1 start)%Z.
Proof.
  unfold plus_days, days_between. intros Hs Ht.
  apply Z.div_le_lower_bound; lia.
Qed.

(** The findings so far satisfy [P], and the clock has been read since
    the cutoff was taken at reading [t0]. *)
Definition after_cutoff {F} (t0 : nat) (P : F -> Prop)
    (s : State * list F) : Prop :=
  t0 < ticks s.1 /\ Forall P s.2.

Lemma append_and_save_after {F} (w : World) (t0 : nat) (finding : F)
    (resource_id resource_type : string)
    (metadata : list (string * MetaValue)) (P : F -> Prop)
    (s : State * list F) :
  P finding -> after_cutoff t0 P s ->
  after_cutoff t0 P
    (bind (append finding)
       (fun _ => on_store (save_idle_resource w resource_id resource_type
                             metadata)) s).2.
Proof.
  destruct s as [st found]. intros Hf [Ht Hs].
  unfold bind, append, on_store, after_cutoff. simpl in *.
  pose proof (save_idle_resource_ticks w resource_id resource_type metadata
                st) as Hk.
  destruct (save_idle_resource w resource_id resource_type metadata st)
    as [r st']. simpl in *.
  split; [lia|].
  apply Forall_app. split; [exact Hs | repeat constructor; exact Hf].
Qed.

(** X23: with a clock that never goes back, every finding of the
    snapshot scan is for a snapshot that [describe_snapshots] listed and
    that started before the cutoff, 90 days before the scan read the
    clock, and the age it reports is at least 90 days. *)
Theorem flagged_snapshots_are_old (w : World) (inv : Inventory) (st : State)
    (finding : SnapshotFinding) :
  monotone (clock w) ->
  In finding (returned (scan_old_snapshots w inv st)) ->
  exists snapshots snapshot,
    describe_snapshots inv = inr snapshots /\
    In snapshot snapshots /\
    s_resource_id finding = SnapshotId snapshot /\
    (StartTime snapshot < plus_days (now (clock w) (ticks st)) (-90))%Z /\
    (90 <= s_age_days finding)%Z.
Proof.
  intros Hmono. unfold scan_old_snapshots. rewrite returned_scan.
  unfold bind at 1, lift.
  destruct (describe_snapshots inv) as [e | snapshots]; [intros []|].
  unfold bind at 1, on_store at 1, datetime_now. simpl.
  set (cutoff := plus_days (now (clock w) (ticks st)) (-90)).
  set (P := fun f : SnapshotFinding =>
              exists snapshot,
                In snapshot snapshots /\
                s_resource_id f = SnapshotId snapshot /\
                (StartTime snapshot < cutoff)%Z /\
                (90 <= s_age_days f)%Z).
  intros Hin.
  assert (Hall : after_cutoff (ticks st) P
                   (for_each snapshots (scan_snapshot w cutoff)
                      ({| table := table st; ticks := S (ticks st) |},
                       [])).2).
  { apply for_each_keeps; [|split; [simpl; lia | constructor]].
    intros snapshot s Hsn Hs. unfold scan_snapshot.
    destruct (Z.ltb_spec (StartTime snapshot) cutoff) as [Hold | _];
      [|exact Hs].
    unfold bind at 1, on_store at 1, datetime_now. simpl.
    apply append_and_save_after.
    - exists snapshot. simpl. repeat split; auto.
      apply (old_enough (now (clock w) (ticks st))); [exact Hold|].
      apply Hmono. destruct Hs as [Ht _]. lia.
    - destruct Hs as [Ht Hs]. split; [simpl; lia | exact Hs]. }
  destruct Hall as [_ Hall].
  rewrite Forall_forall in Hall. apply list_elem_of_In, Hall in Hin.
  destruct Hin as (snapshot & Hsn & Hf). eauto.
Qed.

(** X24: with a clock that never goes back, every finding of the image
    scan is for an image that [describe_images] listed, whose creation
    date parses to a time before the cutoff, 180 days before the scan
    read the clock, and the age it reports is at least 180 days. *)
Theorem flagged_images_are_old (w : World) (inv : Inventory) (st : State)
    (finding : ImageFinding) :
  monotone (clock w) ->
  In finding (returned (scan_old_amis w inv st)) ->
  exists images image create_date,
    describe_images inv = inr images /\
    In image images /\
    i_resource_id finding = ImageId image /\
    strptime inv (CreationDate image) = inr create_date /\
    (create_date < plus_days (now (clock w) (ticks st)) (-180))%Z /\
    (180 <= i_age_days finding)%Z.
Proof.
  intros Hmono. unfold scan_old_amis. rewrite returned_scan.
  unfold bind at 1, lift.
  destruct (describe_images inv) as [e | images]; [intros []|].
  unfold bind at 1, on_store at 1, datetime_now. simpl.
  set (cutoff := plus_days (now (clock w) (ticks st)) (-180)).
  set (P := fun f : ImageFinding =>
              exists image create_date,
                In image images /\
                i_resource_id f = ImageId image /\
                strptime inv (CreationDate image) = inr create_date /\
                (create_date < cutoff)%Z /\
                (180 <= i_age_days f)%Z).
  intros Hin.
  assert (Hall : after_cutoff (ticks st) P
                   (for_each images (scan_image w inv cutoff)
                      ({| table := table st; ticks := S (ticks st) |},
                       [])).2).
  { apply for_each_keeps; [|split; [simpl; lia | constructor]].
    intros image s Him Hs. unfold scan_image.
    unfold bind at 1, lift at 1.
    destruct (strptime inv (CreationDate image)) as [e | create_date]
      eqn:Hparse; [exact Hs|].
    destruct (Z.ltb_spec create_date cutoff) as [Hold | _]; [|exact Hs].
    unfold bind at 1, on_store at 1, datetime_now. simpl.
    apply append_and_save_after.
    - exists image, create_date. simpl. repeat split; auto.
      apply (old_enough (now (clock w) (ticks st))); [exact Hold|].
      apply Hmono. destruct Hs as [Ht _]. lia.
    - destruct Hs as [Ht Hs]. split; [simpl; lia | exact Hs]. }
  destruct Hall as [_ Hall].
  rewrite Forall_forall in Hall. apply list_elem_of_In, Hall in Hin.
  destruct Hin as (image & create_date & Him & Hf). eauto 10.
Qed.

(** *** Load balancers *)

Lemma no_healthy_targets (inv : Inventory) (target_groups : list string) :
  has_healthy_targets inv target_groups = inr false ->
  forall tg,
    In tg target_groups ->
    exists states,
      describe_target_health inv tg = inr states /\
      ~ In "healthy" states.
Proof.
  induction target_groups as [|tg0 rest IH]; simpl; [intros _ tg []|].
  destruct (describe_target_health inv tg0) as [e | states] eqn:Hh;
    [intros H; discriminate H|].
  destruct (any_healthy states) eqn:Hany; [intros H; discriminate H|].
  intros H tg [<- | Hin]; [|apply IH; assumption].
  exists states. split; [exact Hh|].
  intros Hin. unfold any_healthy in Hany.
  assert (Htrue : existsb (fun state => String.eqb state "healthy") states
                  = true).
  { apply existsb_exists. exists "healthy". split; [exact Hin|].
    apply String.eqb_refl. }
  congruence.
Qed.

(** X25: every finding of the load balancer scan is for a load balancer
    that [describe_load_balancers] listed, whose target groups could be
    described, and none of whose target groups has a healthy target; a
    load balancer with a healthy target is never flagged. *)
Theorem flagged_load_balancers_have_no_healthy_target (w : World)
    (inv : Inventory) (st : State) (finding : LoadBalancerFinding) :
  In finding (returned (scan_unused_load_balancers w inv st)) ->
  exists lbs lb target_groups,
    describe_load_balancers inv = inr lbs /\
    In lb lbs /\
    l_resource_id finding = LoadBalancerArn lb /\
    describe_target_groups inv (LoadBalancerArn lb) = inr target_groups /\
    forall tg,
      In tg target_groups ->
      exists states,
        describe_target_health inv tg = inr states /\
        ~ In "healthy" states.
Proof.
  unfold scan_unused_load_balancers. rewrite returned_scan.
  unfold bind at 1, lift.
  destruct (describe_load_balancers inv) as [e | lbs]; [intros []|].
  intros Hin.
  set (P := fun f : LoadBalancerFinding =>
              exists lb target_groups,
                In lb lbs /\
                l_resource_id f = LoadBalancerArn lb /\
                describe_target_groups inv (LoadBalancerArn lb)
                = inr target_groups /\
                forall tg,
                  In tg target_groups ->
                  exists states,
                    describe_target_health inv tg = inr states /\
                    ~ In "healthy" states).
  assert (Hall : Forall P
                   (for_each lbs (scan_load_balancer w inv) (st, [])).2.2).
  { apply for_each_all; [|constructor].
    intros lb s Hlb Hs. unfold scan_load_balancer.
    unfold bind at 1, lift at 1.
    destruct (describe_target_groups inv (LoadBalancerArn lb))
      as [e | target_groups] eqn:Htg; [exact Hs|].
    unfold bind at 1, lift at 1.
    destruct (has_healthy_targets inv target_groups) as [e | [|]] eqn:Hh;
      [exact Hs | exact Hs |].
    simpl negb. cbv iota.
    apply append_and_save; [|exact Hs].
    exists lb, target_groups. simpl. repeat split; auto.
    apply no_healthy_targets, Hh. }
  rewrite Forall_forall in Hall. apply list_elem_of_In, Hall in Hin.
  destruct Hin as (lb & target_groups & Hlb & Hf). eauto 10.
Qed.

(** *** An account to scan *)

Definition day : Z := 86400000000%Z.

(** Three volumes, two addresses, two snapshots, two images and two load
    balancers, seen at the start of [steady_clock]. *)
Definition estate : Inventory :=
  {| describe_volumes :=
       inr [ {| VolumeId := "vol-old"; VolumeTags := [];
                CreateTime := (1705312800000000 - 15 * day)%Z;
                Size := 100; VolumeType := "gp3" |};
             {| VolumeId := "vol-kept";
                VolumeTags := [("DoNotDelete", "true")];
                CreateTime := (1705312800000000 - 40 * day)%Z;
                Size := 500; VolumeType := "io1" |};
             {| VolumeId := "vol-new"; VolumeTags := [];
                CreateTime := (1705312800000000 - 2 * day)%Z;
                Size := 20; VolumeType := "gp2" |} ];
     describe_addresses :=
       inr [ {| AssociationId := Some "eipassoc-1";
                AllocationId := Some "eipalloc-1";
                PublicIp := "203.0.113.1"; Domain := Some "vpc" |};
             {| AssociationId := None; AllocationId := None;
                PublicIp := "203.0.113.2"; Domain := None |} ];
     describe_snapshots :=
       inr [ {| SnapshotId := "snap-old"; SnapshotVolumeId := None;
                VolumeSize := 8;
                StartTime := (1705312800000000 - 120 * day)%Z |};
             {| SnapshotId := "snap-new"; SnapshotVolumeId := Some "vol-old";
                VolumeSize := 8;
                StartTime := (1705312800000000 - 10 * day)%Z |} ];
     describe_images :=
       inr [ {| ImageId := "ami-old"; Name := Some "base";
                CreationDate := "2023-01-15T10:00:00.000Z" |};
             {| ImageId := "ami-new"; Name := None;
                CreationDate := "2024-01-01T10:00:00.000Z" |} ];
     strptime := fun s =>
       if String.eqb s "2023-01-15T10:00:00.000Z"
       then inr (1705312800000000 - 365 * day)%Z
       else if String.eqb s "2024-01-01T10:00:00.000Z"
       then inr (1705312800000000 - 14 * day)%Z
       else inl (ClientError "time data does not match format");
     describe_load_balancers :=
       inr [ {| LoadBalancerArn := "arn:lb/web"; LoadBalancerName := "web";
                LbType := "application"; Scheme := "internet-facing";
                CreatedTime := 1700000000000000 |};
             {| LoadBalancerArn := "arn:lb/idle"; LoadBalancerName := "idle";
                LbType := "network"; Scheme := "internal";
                CreatedTime := 1700000000000000 |} ];
     describe_target_groups := fun arn =>
       if String.eqb arn "arn:lb/web" then inr ["tg-a"; "tg-b"]
       else inr ["tg-c"];
     describe_target_health := fun tg =>
       if String.eqb tg "tg-b" then inr ["unhealthy"; "healthy"]
       else inr ["unhealthy"] |}.

Lemma steady_clock_monotone : monotone steady_clock.
Proof. intros n m H. simpl. lia. Qed.

Example scan_estate :
  map v_resource_id
    (returned (scan_unattached_ebs_volumes account estate empty_table))
  = ["vol-old"]
  /\ map a_resource_id
       (returned (scan_unassociated_elastic_ips account estate empty_table))
     = ["203.0.113.2"]
  /\ map (fun f => (s_resource_id f, s_age_days f))
       (returned (scan_old_snapshots account estate empty_table))
     = [("snap-old", 120%Z)]
  /\ map (fun f => (i_resource_id f, i_age_days f))
       (returned (scan_old_amis account estate empty_table))
     = [("ami-old", 365%Z)]
  /\ map l_resource_id
       (returned (scan_unused_load_balancers account estate empty_table))
     = ["arn:lb/idle"].
Proof. repeat split; vm_compute; reflexivity. Qed.

Definition old_volume : VolumeFinding :=
  {| v_resource_id := "vol-old";
     v_resource_type := "ebs_volume";
     v_size_gb := 100;
     v_volume_type := "gp3";
     v_create_time := isoformat steady_clock (1705312800000000 - 15 * day)%Z;
     v_days_unattached := 15;
     v_tags := ∅;
     v_estimated_monthly_cost := estimate_ebs_cost account 100 "gp3" |}.

Lemma flagged_volumes_are_old_and_untagged_witness :
  exists volumes volume,
    describe_volumes estate = inr volumes /\
    In volume volumes /\
    volume_finding_of account volume old_volume.
Proof.
  apply (flagged_volumes_are_old_and_untagged account estate empty_table
           old_volume).
  vm_compute. auto.
Defined.

Lemma unassociated_addresses_are_flagged_witness :
  returned (scan_unassociated_elastic_ips account estate empty_table)
  = map address_finding
      (List.filter unassociated
         match describe_addresses estate with
         | inr addresses => addresses
         | inl _ => []
         end).
Proof.
  apply (unassociated_addresses_are_flagged account estate empty_table).
  - intros t item. reflexivity.
  - reflexivity.
Defined.

Definition old_snapshot : SnapshotFinding :=
  {| s_resource_id := "snap-old";
     s_resource_type := "snapshot";
     s_volume_id := "N/A";
     s_size_gb := 8;
     s_create_time := isoformat steady_clock (1705312800000000 - 120 * day)%Z;
     s_age_days := 120;
     s_estimated_monthly_cost := mul (PyInt 8) (PyFloat 0.05) |}.

Lemma flagged_snapshots_are_old_witness :
  exists snapshots snapshot,
    describe_snapshots estate = inr snapshots /\
    In snapshot snapshots /\
    s_resource_id old_snapshot = SnapshotId snapshot /\
    (StartTime snapshot
     < plus_days (now (clock account) (ticks empty_table)) (-90))%Z /\
    (90 <= s_age_days old_snapshot)%Z.
Proof.
  apply (flagged_snapshots_are_old account estate empty_table old_snapshot).
  - apply steady_clock_monotone.
  - vm_compute. auto.
Defined.

Definition old_image : ImageFinding :=
  {| i_resource_id := "ami-old";
     i_resource_type := "ami";
     i_name := "base";
     i_create_time := "2023-01-15T10:00:00.000Z";
     i_age_days := 365;
     i_estimated_monthly_cost := PyFloat 0.05 |}.

Lemma flagged_images_are_old_witness :
  exists images image create_date,
    describe_images estate = inr images /\
    In image images /\
    i_resource_id old_image = ImageId image /\
    strptime estate (CreationDate image) = inr create_date /\
    (create_date
     < plus_days (now (clock account) (ticks empty_table)) (-180))%Z /\
    (180 <= i_age_days old_image)%Z.
Proof.
  apply (flagged_images_are_old account estate empty_table old_image).
  - apply steady_clock_monotone.
  - vm_compute. auto.
Defined.

Definition idle_balancer : LoadBalancerFinding :=
  {| l_resource_id := "arn:lb/idle";
     l_resource_type := "load_balancer";
     l_name := "idle";
     l_type := "network";
     l_scheme := "internal";
     l_create_time := isoformat steady_clock 1700000000000000;
     l_estimated_monthly_cost := PyFloat 16.20 |}.

Lemma flagged_load_balancers_have_no_healthy_target_witness :
  exists lbs lb target_groups,
    describe_load_balancers estate = inr lbs /\
    In lb lbs /\
    l_resource_id idle_balancer = LoadBalancerArn lb /\
    describe_target_groups estate (LoadBalancerArn lb) = inr target_groups /\
    forall tg,
      In tg target_groups ->
      exists states,
        describe_target_health estate tg = inr states /\
        ~ In "healthy" states.
Proof.
  apply (flagged_load_balancers_have_no_healthy_target account estate
           empty_table idle_balancer).
  vm_compute. auto.
Defined.

End ResourceScannerKindsProofs.

(** ** The tag enforcer: the scans and the handler *)

Module TagEnforcerScansProofs.
Import Py TagEnforcerScans Fixtures.
Local Open Scope py_scope.

(** The resources a scan returns. *)
Definition reported (run : (Exn + list Resource) * State) : list Resource :=
  match run.1 with
  | inr resources => resources
  | inl _ => []
  end.

Lemma check_tags_run (body : M (State * list Resource) unit) (st : State) :
  check_tags body st = (inr (body (st, [])).2.2, (body (st, [])).2.1).
Proof.
  unfold check_tags, try_except.
  destruct (body (st, [])) as [[e | u] [st' found]]; reflexivity.
Qed.

(** *** Loops *)

Section Turns.
Context {A L : Type}.
Variable body : A -> M (State * L) unit.
Variable l : list A.

(** What holds after a turn that returned, and after one that raised. *)
Lemma turns_outcome (after_return after_raise : State * L -> Prop)
    (sl : State * L) :
  (forall a s, In a l -> after_return s ->
     match body a s with
     | (inr _, s') => after_return s'
     | (inl _, s') => after_raise s'
     end) ->
  after_return sl ->
  match for_each l body sl with
  | (inr _, sl') => after_return sl'
  | (inl _, sl') => after_raise sl'
  end.
Proof.
  revert sl. induction l as [|a l' IH]; intros sl Hbody Hsl; simpl.
  - exact Hsl.
  - unfold bind. pose proof (Hbody a sl (or_introl eq_refl) Hsl) as Ha.
    destruct (body a sl) as [[e | u] s']; [exact Ha|].
    apply IH; [|exact Ha].
    intros a' s Hin. apply Hbody. right. exact Hin.
Qed.

(** What every turn keeps, however it ends, holds at the end. *)
Lemma turns_keep (P : State * L -> Prop) (sl : State * L) :
  (forall a s, In a l -> P s -> P (body a s).2) ->
  P sl -> P (for_each l body sl).2.
Proof.
  intros Hbody Hsl.
  pose proof (turns_outcome P P sl) as H.
  destruct (for_each l body sl) as [[e | u] s']; apply H; auto;
    intros a s Hin Hs; specialize (Hbody a s Hin Hs);
    destruct (body a s) as [[e' | u'] s'']; exact Hbody.
Qed.

End Turns.

(** *** One resource *)

(** The record [save_compliance_record] writes when the clock has been
    read [t] times. *)
Definition record_at (w : World) (resource_id resource_type : string)
    (compliance : TagEnforcer.Compliance) (t : nat) : ComplianceItem :=
  {| item_resource_arn := resource_type +:+ ":" +:+ resource_id;
     scan_date := strftime (clock w) "%Y-%m-%d" (now (clock w) t);
     item_resource_type := resource_type;
     compliance_status :=
       if TagEnforcer.compliant compliance then "compliant"
       else "non_compliant";
     item_missing_tags := TagEnforcer.missing_tags compliance;
     item_invalid_tags := TagEnforcer.invalid_tags compliance;
     scanned_at := isoformat (clock w) (now (clock w) (S (S t)));
     ttl := int_timestamp (plus_days (now (clock w) (S t)) 90) |}.

Lemma save_compliance_record_run (w : World)
    (resource_id resource_type : string)
    (compliance : TagEnforcer.Compliance) (st : State) :
  save_compliance_record w resource_id resource_type compliance st
  = let item := record_at w resource_id resource_type compliance (ticks st) in
    match put_item_raises w (writes st) item with
    | Some e =>
        (inl e, {| writes := writes st;
                   published := published st;
                   ticks := S (S (S (ticks st))) |})
    | None =>
        (inr tt, {| writes := writes st ++ [item];
                    published := published st;
                    ticks := S (S (S (ticks st))) |})
    end.
Proof.
  unfold save_compliance_record, bind, datetime_now, put_item, record_at.
  simpl. destruct (put_item_raises w (writes st) _); reflexivity.
Qed.

(** The entry a scan appends for a resource with that verdict. *)
Definition entry (resource_id resource_type resource_arn : string)
    (tags : gmap string string) (compliance : TagEnforcer.Compliance)
  : Resource :=
  {| resource_id := resource_id;
     resource_type := resource_type;
     resource_arn := resource_arn;
     tags := tags;
     compliant := TagEnforcer.compliant compliance;
     missing_tags := TagEnforcer.missing_tags compliance;
     invalid_tags := TagEnforcer.invalid_tags compliance |}.

Lemma report_run (w : World) (policies : Policies)
    (resource_id resource_type resource_arn : string)
    (tags : gmap string string) (s : State * list Resource) :
  report w policies resource_id resource_type resource_arn tags s
  = match required_tags policies with
    | None => (inl (KeyError "required_tags"), s)
    | Some rules =>
        match TagEnforcer.check_resource_compliance (re_match w) tags rules
        with
        | inl e => (inl e, s)
        | inr compliance =>
            ((save_compliance_record w resource_id resource_type compliance
                s.1).1,
             ((save_compliance_record w resource_id resource_type compliance
                 s.1).2,
              s.2 ++ [entry resource_id resource_type resource_arn tags
                        compliance]))
        end
    end.
Proof.
  unfold report, subscript_required_tags, bind, lift, append, on_store, entry.
  destruct s as [st found]. simpl.
  destruct (required_tags policies) as [rules|]; [|reflexivity].
  destruct (TagEnforcer.check_resource_compliance (re_match w) tags rules)
    as [e | compliance]; [reflexivity|].
  destruct (save_compliance_record w resource_id resource_type compliance st);
    reflexivity.
Qed.

(** The verdict an entry carries is the one the check gives for the
    tags it carries. *)
Definition judged (w : World) (rules : list TagEnforcer.RequiredTag)
    (res : Resource) : Prop :=
  TagEnforcer.check_resource_compliance (re_match w) (tags res) rules
  = inr {| TagEnforcer.compliant := compliant res;
           TagEnforcer.missing_tags := missing_tags res;
           TagEnforcer.invalid_tags := invalid_tags res |}.

Lemma entry_judged (w : World) (rules : list TagEnforcer.RequiredTag)
    (resource_id resource_type resource_arn : string)
    (tags : gmap string string) (compliance : TagEnforcer.Compliance) :
  TagEnforcer.check_resource_compliance (re_match w) tags rules
  = inr compliance ->
  judged w rules
    (entry resource_id resource_type resource_arn tags compliance).
Proof.
  intros H. unfold judged, entry. simpl. rewrite H.
  destruct compliance; reflexivity.
Qed.

(** Reporting a resource keeps what holds of the entries, if it holds of
    the entry of that resource. *)
Lemma report_keeps (w : World) (policies : Policies)
    (resource_id resource_type resource_arn : string)
    (tags : gmap string string) (P : Resource -> Prop)
    (s : State * list Resource) :
  (forall rules compliance,
     required_tags policies = Some rules ->
     TagEnforcer.check_resource_compliance (re_match w) tags rules
     = inr compliance ->
     P (entry resource_id resource_type resource_arn tags compliance)) ->
  Forall P s.2 ->
  Forall P
    (report w policies resource_id resource_type resource_arn tags s).2.2.
Proof.
  intros Hentry Hs. rewrite report_run.
  destruct (required_tags policies) as [rules|]; [|exact Hs].
  destruct (TagEnforcer.check_resource_compliance (re_match w) tags rules)
    as [e | compliance] eqn:E; [exact Hs|].
  simpl. apply Forall_app. split; [exact Hs|].
  repeat constructor. apply (Hentry rules compliance eq_refl E).
Qed.

(** *** Buckets *)

(** With no tags, every rule's key is missing and no pattern is tried. *)
Lemma check_rules_untagged (re : string -> string -> Exn + bool)
    (rules : list TagEnforcer.RequiredTag) (missing : list string)
    (invalid : list TagEnforcer.InvalidTag) :
  TagEnforcer.check_rules re ∅ rules (missing, invalid)
  = inr (missing ++ map TagEnforcer.key rules, invalid).
Proof.
  revert missing. induction rules as [|rule rest IH]; intros missing;
    cbn [TagEnforcer.check_rules map].
  - rewrite app_nil_r. reflexivity.
  - unfold TagEnforcer.check_rule. rewrite lookup_empty.
    rewrite IH, <- app_assoc. reflexivity.
Qed.

Lemma check_untagged (re : string -> string -> Exn + bool)
    (rules : list TagEnforcer.RequiredTag) :
  TagEnforcer.check_resource_compliance re ∅ rules
  = inr {| TagEnforcer.compliant :=
             match rules with [] => true | _ :: _ => false end;
           TagEnforcer.missing_tags := map TagEnforcer.key rules;
           TagEnforcer.invalid_tags := [] |}.
Proof.
  unfold TagEnforcer.check_resource_compliance.
  rewrite check_rules_untagged. destruct rules; reflexivity.
Qed.

(** X26: the bucket scan never reads a bucket's tags.  Every bucket it
    reports is one that [list_buckets] listed, carries no tags, has the
    key of every required-tag rule among its missing tags, and is
    compliant only when there is no rule at all, whatever
    [get_bucket_tagging] would answer. *)
Theorem buckets_are_judged_without_their_tags (w : World)
    (policies : Policies) (st : State) (res : Resource) :
  In res (reported (check_s3_tags w policies st)) ->
  exists buckets rules,
    list_buckets w = inr buckets /\
    In (resource_id res) buckets /\
    required_tags policies = Some rules /\
    tags res = ∅ /\
    missing_tags res = map TagEnforcer.key rules /\
    invalid_tags res = [] /\
    (compliant res = true <-> rules = []).
Proof.
  unfold check_s3_tags, reported. rewrite check_tags_run. simpl.
  unfold bind at 1, lift.
  destruct (list_buckets w) as [e | buckets]; [intros []|].
  intros Hin.
  set (P := fun res : Resource =>
              exists rules,
                In (resource_id res) buckets /\
                required_tags policies = Some rules /\
                tags res = ∅ /\
                missing_tags res = map TagEnforcer.key rules /\
                invalid_tags res = [] /\
                (compliant res = true <-> rules = [])).
  assert (Hall : Forall P
                   (for_each buckets (check_bucket w policies) (st, [])).2.2).
  { apply (turns_keep _ _ (fun s => Forall P s.2)); [|constructor].
    intros bucket_name s Hb Hs. unfold check_bucket.
    apply report_keeps; [|exact Hs].
    intros rules compliance Hrules Hcheck.
    change (bucket_tags w bucket_name) with (∅ : gmap string string)
      in Hcheck.
    rewrite check_untagged in Hcheck. injection Hcheck as <-.
    exists rules. unfold entry. simpl.
    split; [exact Hb|]. split; [exact Hrules|].
    split; [reflexivity|]. split; [reflexivity|]. split; [reflexivity|].
    destruct rules; split; intros H; try reflexivity; discriminate H. }
  rewrite Forall_forall in Hall. apply list_elem_of_In, Hall in Hin.
  destruct Hin as (rules & H). exists buckets, rules.
  split; [reflexivity | exact H].
Qed.

(** *** Databases *)

(** X27: every database the RDS scan reports is one that
    [describe_db_instances] listed, carries the tags that
    [list_tags_for_resource] gave for its ARN, and has the verdict of the
    compliance check on those tags under the required-tag rules. *)
Theorem reported_databases_are_judged_on_listed_tags (w : World)
    (policies : Policies) (st : State) (res : Resource) :
  In res (reported (check_rds_tags w policies st)) ->
  exists db_instances db_instance tag_list rules,
    describe_db_instances w = inr db_instances /\
    In db_instance db_instances /\
    list_tags_for_resource w (DBInstanceArn db_instance) = inr tag_list /\
    required_tags policies = Some rules /\
    resource_id res = DBInstanceIdentifier db_instance /\
    resource_arn res = DBInstanceArn db_instance /\
    tags res = dict_of_pairs tag_list /\
    judged w rules res.
Proof.
  unfold check_rds_tags, reported. rewrite check_tags_run. simpl.
  unfold bind at 1, lift.
  destruct (describe_db_instances w) as [e | db_instances]; [intros []|].
  intros Hin.
  set (P := fun res : Resource =>
              exists db_instance tag_list rules,
                In db_instance db_instances /\
                list_tags_for_resource w (DBInstanceArn db_instance)
                = inr tag_list /\
                required_tags policies = Some rules /\
                resource_id res = DBInstanceIdentifier db_instance /\
                resource_arn res = DBInstanceArn db_instance /\
                tags res = dict_of_pairs tag_list /\
                judged w rules res).
  assert (Hall : Forall P
                   (for_each db_instances (check_db_instance w policies)
                      (st, [])).2.2).
  { apply (turns_keep _ _ (fun s => Forall P s.2)); [|constructor].
    intros db_instance s Hdb Hs. unfold check_db_instance.
    unfold bind at 1, lift.
    destruct (list_tags_for_resource w (DBInstanceArn db_instance))
      as [e | tag_list] eqn:Htags; [exact Hs|].
    apply report_keeps; [|exact Hs].
    intros rules compliance Hrules Hcheck.
    exists db_instance, tag_list, rules.
    split; [exact Hdb|]. split; [exact Htags|]. split; [exact Hrules|].
    split; [reflexivity|]. split; [reflexivity|]. split; [reflexivity|].
    apply entry_judged. exact Hcheck. }
  rewrite Forall_forall in Hall. apply list_elem_of_In, Hall in Hin.
  destruct Hin as (db_instance & tag_list & rules & H).
  exists db_instances, db_instance, tag_list, rules.
  split; [reflexivity | exact H].
Qed.

(** *** What a scan leaves alone *)

Lemma report_published (w : World) (policies : Policies)
    (resource_id resource_type resource_arn : string)
    (tags : gmap string string) (s : State * list Resource) :
  published
    (report w policies resource_id resource_type resource_arn tags s).2.1
  = published s.1.
Proof.
  rewrite report_run.
  destruct (required_tags policies) as [rules|]; [|reflexivity].
  destruct (TagEnforcer.check_resource_compliance (re_match w) tags rules)
    as [e | compliance]; [reflexivity|].
  simpl. rewrite save_compliance_record_run. simpl.
  destruct (put_item_raises w (writes s.1) _); reflexivity.
Qed.

Lemma check_instance_published (w : World) (policies : Policies)
    (instance : Instance) (s : State * list Resource) :
  published (check_instance w policies instance s).2.1 = published s.1.
Proof. apply report_published. Qed.

Lemma check_volume_published (w : World) (policies : Policies)
    (volume : Volume) (s : State * list Resource) :
  published (check_volume w policies volume s).2.1 = published s.1.
Proof. apply report_published. Qed.

Lemma check_db_instance_published (w : World) (policies : Policies)
    (db_instance : DBInstance) (s : State * list Resource) :
  published (check_db_instance w policies db_instance s).2.1 = published s.1.
Proof.
  unfold check_db_instance, bind at 1, lift.
  destruct (list_tags_for_resource w (DBInstanceArn db_instance));
    [reflexivity | apply report_published].
Qed.

Lemma check_bucket_published (w : World) (policies : Policies)
    (bucket_name : string) (s : State * list Resource) :
  published (check_bucket w policies bucket_name s).2.1 = published s.1.
Proof. apply report_published. Qed.

(** A loop whose turns publish nothing publishes nothing. *)
Lemma turns_publish_nothing {A} (body : A -> M (State * list Resource) unit)
    (l : list A) (s : State * list Resource) :
  (forall a s', published (body a s').2.1 = published s'.1) ->
  published (for_each l body s).2.1 = published s.1.
Proof.
  intros Hbody.
  apply (turns_keep body l (fun s' => published s'.1 = published s.1));
    [|reflexivity].
  intros a s' _ Hs'. rewrite Hbody. exact Hs'.
Qed.

(** A scan always returns, and publishes nothing. *)
Definition quiet_return (st : State) (run : (Exn + list Resource) * State)
  : Prop :=
  run = (inr (reported run), run.2) /\ published run.2 = published st.

Lemma check_tags_quiet (body : M (State * list Resource) unit) (st : State) :
  published (body (st, [])).2.1 = published st ->
  quiet_return st (check_tags body st).
Proof.
  intros H. unfold quiet_return. rewrite check_tags_run. simpl.
  split; [reflexivity | exact H].
Qed.

Lemma check_ec2_tags_quiet (w : World) (policies : Policies) (st : State) :
  quiet_return st (check_ec2_tags w policies st).
Proof.
  apply check_tags_quiet. unfold bind, lift.
  destruct (describe_instances w) as [e | reservations]; [reflexivity|].
  apply (turns_publish_nothing _ reservations (st, [])).
  intros reservation s. apply turns_publish_nothing.
  apply check_instance_published.
Qed.

Lemma check_ebs_tags_quiet (w : World) (policies : Policies) (st : State) :
  quiet_return st (check_ebs_tags w policies st).
Proof.
  apply check_tags_quiet. unfold bind, lift.
  destruct (describe_volumes w) as [e | volumes]; [reflexivity|].
  apply (turns_publish_nothing _ volumes (st, [])).
  apply check_volume_published.
Qed.

Lemma check_rds_tags_quiet (w : World) (policies : Policies) (st : State) :
  quiet_return st (check_rds_tags w policies st).
Proof.
  apply check_tags_quiet. unfold bind, lift.
  destruct (describe_db_instances w) as [e | db_instances]; [reflexivity|].
  apply (turns_publish_nothing _ db_instances (st, [])).
  apply check_db_instance_published.
Qed.

Lemma check_s3_tags_quiet (w : World) (policies : Policies) (st : State) :
  quiet_return st (check_s3_tags w policies st).
Proof.
  apply check_tags_quiet. unfold bind, lift.
  destruct (list_buckets w) as [e | buckets]; [reflexivity|].
  apply (turns_publish_nothing _ buckets (st, [])).
  apply check_bucket_published.
Qed.

Lemma load_tag_policies_run (w : World) (st : State) :
  load_tag_policies w st
  = (inr match get_parameter w with
         | inr policies => policies
         | inl _ => default_policies
         end, st).
Proof.
  unfold load_tag_policies, try_except, lift, ret.
  destruct (get_parameter w); reflexivity.
Qed.

(** *** The handler *)

(** The subject of the notification about [n] resources. *)
Definition subject_for (n : Z) : string :=
  "AWS Tag Compliance Alert: " +:+ pretty n +:+ " non-compliant resources".

Lemma send_compliance_notifications_run (w : World)
    (non_compliant : list Resource) (st st' : State) :
  send_compliance_notifications w non_compliant st = (inr tt, st') ->
  match non_compliant with
  | [] => published st' = published st
  | _ :: _ =>
      exists message,
        published st'
        = published st
          ++ [(subject_for (Z.of_nat (length non_compliant)), message)]
  end.
Proof.
  unfold send_compliance_notifications, publish, subject_for.
  destruct non_compliant as [|res rest].
  - intros H. injection H as <-. reflexivity.
  - match goal with
    | |- context [publish_raises w ?s ?m] =>
        destruct (publish_raises w s m); [intros H; discriminate H|];
        intros H; injection H as <-; exists m; reflexivity
    end.
Qed.

Lemma sum_len_four {A} (a b c d : list A) :
  sum_len [a; b; c; d]
  = (Z.of_nat (length a) + Z.of_nat (length b)
     + Z.of_nat (length c) + Z.of_nat (length d))%Z.
Proof. reflexivity. Qed.

Lemma split_by_verdict (l : list Resource) :
  (Z.of_nat (length (List.filter compliant l))
   + Z.of_nat (length (List.filter (fun res => negb (compliant res)) l))
   = Z.of_nat (length l))%Z.
Proof. rewrite <- (List.filter_length compliant l). lia. Qed.

(** X28: when the handler returns, the compliant and the non-compliant
    resources it counts add up to the total, a run that found no
    resource reports a compliance rate of 100, and it publishes one
    notification, whose subject carries the non-compliant count, exactly
    when that count is not zero. *)
Theorem handler_counts_add_up (w : World) (st st' : State) (body : Body) :
  lambda_handler w st = (inr body, st') ->
  (compliant_resources body + non_compliant_count body
   = total_resources body)%Z /\
  (total_resources body = 0%Z -> compliance_rate body = PyInt 100) /\
  (non_compliant_count body = 0%Z -> published st' = published st) /\
  (non_compliant_count body <> 0%Z ->
   exists message,
     published st'
     = published st ++ [(subject_for (non_compliant_count body), message)]).
Proof.
  unfold lambda_handler. unfold bind at 1. unfold datetime_now at 1.
  cbv iota beta.
  set (st0 := {| writes := writes st; published := published st;
                 ticks := S (ticks st) |}).
  unfold bind at 1. rewrite load_tag_policies_run.
  set (policies := match get_parameter w with
                   | inr policies => policies
                   | inl _ => default_policies
                   end).
  unfold bind at 1.
  destruct (check_ec2_tags_quiet w policies st0) as [-> Hp1].
  set (ec2 := reported (check_ec2_tags w policies st0)) in *.
  set (st1 := (check_ec2_tags w policies st0).2) in *.
  unfold bind at 1.
  destruct (check_ebs_tags_quiet w policies st1) as [-> Hp2].
  set (ebs := reported (check_ebs_tags w policies st1)) in *.
  set (st2 := (check_ebs_tags w policies st1).2) in *.
  unfold bind at 1.
  destruct (check_rds_tags_quiet w policies st2) as [-> Hp3].
  set (rds := reported (check_rds_tags w policies st2)) in *.
  set (st3 := (check_rds_tags w policies st2).2) in *.
  unfold bind at 1.
  destruct (check_s3_tags_quiet w policies st3) as [-> Hp4].
  set (s3 := reported (check_s3_tags w policies st3)) in *.
  set (st4 := (check_s3_tags w policies st3).2) in *.
  assert (Hp : published st4 = published st)
    by exact (eq_trans Hp4 (eq_trans Hp3 (eq_trans Hp2 Hp1))).
  clearbody ec2 ebs rds s3 st1 st2 st3 st4. clear Hp1 Hp2 Hp3 Hp4.
  cbn [map flat_map]. rewrite !sum_len_four, app_nil_r.
  set (total := (Z.of_nat (length ec2) + Z.of_nat (length ebs)
                 + Z.of_nat (length rds) + Z.of_nat (length s3))%Z).
  set (good := (Z.of_nat (length (List.filter compliant ec2))
                + Z.of_nat (length (List.filter compliant ebs))
                + Z.of_nat (length (List.filter compliant rds))
                + Z.of_nat (length (List.filter compliant s3)))%Z).
  set (bad := List.filter (fun res => negb (compliant res)) ec2
              ++ List.filter (fun res => negb (compliant res)) ebs
              ++ List.filter (fun res => negb (compliant res)) rds
              ++ List.filter (fun res => negb (compliant res)) s3).
  assert (Hsum : (good + Z.of_nat (length bad) = total)%Z).
  { unfold good, bad, total. rewrite !length_app.
    pose proof (split_by_verdict ec2). pose proof (split_by_verdict ebs).
    pose proof (split_by_verdict rds). pose proof (split_by_verdict s3).
    lia. }
  assert (Hrate : exists rate,
             (if (0 <? total)%Z
              then bind (lift (truediv (PyInt good) (PyInt total)))
                     (fun ratio => ret (mul ratio (PyInt 100)))
              else ret (PyInt 100)) st4 = (inr rate, st4) /\
             (total = 0%Z -> round2 w rate = PyInt 100)).
  { destruct (0 <? total)%Z eqn:Et.
    - apply Z.ltb_lt in Et. unfold bind, lift, truediv. simpl.
      destruct (total =? 0)%Z eqn:E0; [apply Z.eqb_eq in E0; lia|].
      eexists. split; [reflexivity|]. intros H. lia.
    - eexists. split; [reflexivity|]. intros _. reflexivity. }
  destruct Hrate as (rate & Hrate & Hzero).
  unfold bind at 1. rewrite Hrate. unfold bind at 1.
  destruct (match bad with
            | [] => ret tt
            | _ :: _ => send_compliance_notifications w bad
            end st4) as [[e | []] st5] eqn:Esend;
    [intros H; discriminate H|].
  unfold ret. intros H. injection H as <- <-. simpl.
  split; [exact Hsum|]. split; [exact Hzero|].
  destruct bad as [|res rest].
  - injection Esend as <-. split; [intros _; exact Hp|].
    intros H. exfalso. apply H. reflexivity.
  - apply send_compliance_notifications_run in Esend.
    destruct Esend as (message & Hpub).
    split; [intros H; discriminate H|].
    intros _. exists message. rewrite Hpub, Hp. reflexivity.
Qed.

(** *** Policies without rules *)

Lemma report_without_rules (w : World) (policies : Policies)
    (resource_id resource_type resource_arn : string)
    (tags : gmap string string) (s : State * list Resource) :
  required_tags policies = None ->
  (report w policies resource_id resource_type resource_arn tags s).2 = s.
Proof. intros H. rewrite report_run, H. reflexivity. Qed.

(** A loop whose turns change nothing changes nothing. *)
Lemma turns_change_nothing {A} (body : A -> M (State * list Resource) unit)
    (l : list A) (s : State * list Resource) :
  (forall a s', (body a s').2 = s') -> (for_each l body s).2 = s.
Proof.
  intros Hbody.
  apply (turns_keep body l (fun s' => s' = s)); [|reflexivity].
  intros a s' _ ->. apply Hbody.
Qed.

Lemma check_tags_nothing (body : M (State * list Resource) unit)
    (st : State) :
  (body (st, [])).2 = (st, []) -> check_tags body st = (inr [], st).
Proof. intros H. rewrite check_tags_run, H. reflexivity. Qed.

Lemma scans_without_rules (w : World) (policies : Policies) (st : State) :
  required_tags policies = None ->
  check_ec2_tags w policies st = (inr [], st) /\
  check_ebs_tags w policies st = (inr [], st) /\
  check_rds_tags w policies st = (inr [], st) /\
  check_s3_tags w policies st = (inr [], st).
Proof.
  intros Hnone.
  split; [|split; [|split]]; apply check_tags_nothing; unfold bind, lift.
  - destruct (describe_instances w) as [e | reservations]; [reflexivity|].
    apply turns_change_nothing. intros reservation s.
    apply turns_change_nothing. intros instance s'.
    apply report_without_rules. exact Hnone.
  - destruct (describe_volumes w) as [e | volumes]; [reflexivity|].
    apply turns_change_nothing. intros volume s.
    apply report_without_rules. exact Hnone.
  - destruct (describe_db_instances w) as [e | db_instances]; [reflexivity|].
    apply turns_change_nothing. intros db_instance s.
    unfold check_db_instance, bind, lift.
    destruct (list_tags_for_resource w (DBInstanceArn db_instance));
      [reflexivity|].
    apply report_without_rules. exact Hnone.
  - destruct (list_buckets w) as [e | buckets]; [reflexivity|].
    apply turns_change_nothing. intros bucket_name s.
    apply report_without_rules. exact Hnone.
Qed.

(** X29: when the stored policies have no ['required_tags'] key, every
    scan stops at its first resource and reports nothing, so the handler
    returns a compliance rate of 100 over zero resources, writes no
    record and publishes nothing. *)
Theorem policies_without_rules_read_as_compliant (w : World)
    (policies : Policies) (st : State) :
  get_parameter w = inr policies ->
  required_tags policies = None ->
  lambda_handler w st
  = (inr {| total_resources := 0;
            compliant_resources := 0;
            compliance_rate := PyInt 100;
            non_compliant_count := 0 |},
     {| writes := writes st;
        published := published st;
        ticks := S (ticks st) |}).
Proof.
  intros Hget Hnone. unfold lambda_handler.
  unfold bind at 1. unfold datetime_now at 1. cbv iota beta.
  unfold bind at 1. rewrite load_tag_policies_run, Hget.
  set (st0 := {| writes := writes st; published := published st;
                 ticks := S (ticks st) |}).
  destruct (scans_without_rules w policies st0 Hnone)
    as (Hec2 & Hebs & Hrds & Hs3).
  unfold bind at 1. rewrite Hec2.
  unfold bind at 1. rewrite Hebs.
  unfold bind at 1. rewrite Hrds.
  unfold bind at 1. rewrite Hs3.
  reflexivity.
Qed.

(** *** The records a scan writes *)

(** [item] is the record of the entry [res]. *)
Definition record_of (res : Resource) (item : ComplianceItem) : Prop :=
  item_resource_arn item = resource_type res +:+ ":" +:+ resource_id res /\
  item_resource_type item = resource_type res /\
  compliance_status item
  = (if compliant res then "compliant" else "non_compliant") /\
  item_missing_tags item = missing_tags res /\
  item_invalid_tags item = invalid_tags res.

(** Since [st], one record was written for each entry. *)
Definition all_recorded (st : State) (s : State * list Resource) : Prop :=
  exists new, writes s.1 = writes st ++ new /\ Forall2 record_of s.2 new.

(** Since [st], one record was written for each entry but at most the
    last. *)
Definition all_but_last_recorded (st : State) (s : State * list Resource)
  : Prop :=
  exists saved unsaved new,
    s.2 = saved ++ unsaved /\
    writes s.1 = writes st ++ new /\
    Forall2 record_of saved new /\
    length unsaved <= 1.

Lemma all_recorded_but_last (st : State) (s : State * list Resource) :
  all_recorded st s -> all_but_last_recorded st s.
Proof.
  intros (new & Hw & Hf). exists s.2, [], new.
  rewrite app_nil_r. simpl. auto.
Qed.

Lemma report_records (w : World) (policies : Policies) (st : State)
    (resource_id resource_type resource_arn : string)
    (tags : gmap string string) (s : State * list Resource) :
  all_recorded st s ->
  match report w policies resource_id resource_type resource_arn tags s with
  | (inr _, s') => all_recorded st s'
  | (inl _, s') => all_but_last_recorded st s'
  end.
Proof.
  intros Hs. rewrite report_run.
  destruct (required_tags policies) as [rules|];
    [|apply all_recorded_but_last; exact Hs].
  destruct (TagEnforcer.check_resource_compliance (re_match w) tags rules)
    as [e | compliance]; [apply all_recorded_but_last; exact Hs|].
  rewrite save_compliance_record_run. cbv zeta.
  destruct Hs as (new & Hw & Hf).
  destruct (put_item_raises w (writes s.1) _) as [e|]; simpl.
  - exists s.2, [entry resource_id resource_type resource_arn tags
                   compliance], new.
    simpl. auto.
  - eexists. split; [rewrite Hw, <- app_assoc; reflexivity|].
    apply Forall2_app; [exact Hf|].
    repeat constructor.
Qed.

(** X30: the records the EC2 scan writes follow the instances it
    reports: one record for each reported instance, in the same order,
    under the key made of its type and id and with the status, the
    missing and the invalid tags of the reported verdict.  At most the
    last reported instance has no record. *)
Theorem records_follow_reported_instances (w : World) (policies : Policies)
    (st : State) :
  exists saved unsaved new,
    reported (check_ec2_tags w policies st) = saved ++ unsaved /\
    writes (check_ec2_tags w policies st).2 = writes st ++ new /\
    Forall2 record_of saved new /\
    length unsaved <= 1.
Proof.
  unfold check_ec2_tags, reported. rewrite check_tags_run. simpl.
  match goal with
  | |- context [(?body (st, [])).2.2] => set (run := body (st, []))
  end.
  change (all_but_last_recorded st run.2). subst run.
  assert (Hstart : all_recorded st (st, [])).
  { exists []. rewrite app_nil_r. split; [reflexivity | constructor]. }
  unfold bind, lift.
  destruct (describe_instances w) as [e | reservations].
  { exact (all_recorded_but_last st (st, []) Hstart). }
  pose proof (turns_outcome
                (fun reservation =>
                   for_each reservation (check_instance w policies))
                reservations (all_recorded st) (all_but_last_recorded st)
                (st, [])) as Houter.
  cbv beta in Houter.
  assert (Hinner : forall reservation s,
             In reservation reservations -> all_recorded st s ->
             match for_each reservation (check_instance w policies) s with
             | (inr _, s') => all_recorded st s'
             | (inl _, s') => all_but_last_recorded st s'
             end).
  { intros reservation s _ Hs.
    apply (turns_outcome (check_instance w policies) reservation
             (all_recorded st) (all_but_last_recorded st) s); [|exact Hs].
    intros instance s0 _ Hs0. apply report_records. exact Hs0. }
  specialize (Houter Hinner Hstart).
  destruct (for_each reservations _ (st, [])) as [[e | u] s'].
  - exact Houter.
  - apply all_recorded_but_last. exact Houter.
Qed.

(** *** An account and its audit *)

Definition tagged_for (environment owner cost_center : string)
  : list (string * string) :=
  [("Environment", environment); ("Owner", owner);
   ("CostCenter", cost_center)].

(** An account with two instances, a volume, a database and a bucket,
    all tagged as the default policies ask but for the second instance;
    [stored] is what the policies parameter holds. *)
Definition tagged_account (stored : Exn + Policies) : World :=
  {| get_parameter := stored;
     describe_instances :=
       inr [[ {| InstanceId := "i-1";
                 InstanceTags := tagged_for "Production" "ops" "42" |};
              {| InstanceId := "i-2";
                 InstanceTags := [("Owner", "dev")] |} ]];
     describe_volumes :=
       inr [ {| VolumeId := "vol-1";
                VolumeTags := tagged_for "Staging" "ops" "42" |} ];
     describe_db_instances :=
       inr [ {| DBInstanceArn := "arn:db/orders";
                DBInstanceIdentifier := "orders" |} ];
     list_tags_for_resource :=
       fun _ => inr (tagged_for "Staging" "data" "7");
     list_buckets := inr ["logs"];
     get_bucket_tagging :=
       fun _ => inr (tagged_for "Production" "ops" "42");
     region_name := "eu-west-1";
     re_match := TagEnforcerProofs.prefix_match;
     put_item_raises := fun _ _ => None;
     publish_raises := fun _ _ => None;
     round_float := fun f _ => f;
     clock := steady_clock |}.

Definition unset : Exn + Policies := inl (ClientError "ParameterNotFound").

Definition without_rules : Policies := {| required_tags := None |}.

Definition idle : State := {| writes := []; published := []; ticks := 0 |}.

Definition default_rules : list TagEnforcer.RequiredTag :=
  match required_tags default_policies with
  | Some rules => rules
  | None => []
  end.

Definition logs_entry : Resource :=
  entry "logs" "s3_bucket" "arn:aws:s3:::logs" ∅
    {| TagEnforcer.compliant := false;
       TagEnforcer.missing_tags := ["Environment"; "Owner"; "CostCenter"];
       TagEnforcer.invalid_tags := [] |}.

Definition orders_entry : Resource :=
  entry "orders" "rds_instance" "arn:db/orders"
    (dict_of_pairs (tagged_for "Staging" "data" "7"))
    {| TagEnforcer.compliant := true;
       TagEnforcer.missing_tags := [];
       TagEnforcer.invalid_tags := [] |}.

Lemma buckets_are_judged_without_their_tags_witness :
  exists buckets rules,
    list_buckets (tagged_account unset) = inr buckets /\
    In (resource_id logs_entry) buckets /\
    required_tags default_policies = Some rules /\
    tags logs_entry = ∅ /\
    missing_tags logs_entry = map TagEnforcer.key rules /\
    invalid_tags logs_entry = [] /\
    (compliant logs_entry = true <-> rules = []).
Proof.
  apply (buckets_are_judged_without_their_tags (tagged_account unset)
           default_policies idle logs_entry).
  vm_compute. auto.
Defined.

Lemma reported_databases_are_judged_on_listed_tags_witness :
  exists db_instances db_instance tag_list rules,
    describe_db_instances (tagged_account unset) = inr db_instances /\
    In db_instance db_instances /\
    list_tags_for_resource (tagged_account unset) (DBInstanceArn db_instance)
    = inr tag_list /\
    required_tags default_policies = Some rules /\
    resource_id orders_entry = DBInstanceIdentifier db_instance /\
    resource_arn orders_entry = DBInstanceArn db_instance /\
    tags orders_entry = dict_of_pairs tag_list /\
    judged (tagged_account unset) rules orders_entry.
Proof.
  apply (reported_databases_are_judged_on_listed_tags (tagged_account unset)
           default_policies idle orders_entry).
  vm_compute. auto.
Defined.

Definition audit : Body :=
  {| total_resources := 5;
     compliant_resources := 3;
     compliance_rate := PyFloat 60;
     non_compliant_count := 2 |}.

Lemma handler_counts_add_up_witness :
  (compliant_resources audit + non_compliant_count audit
   = total_resources audit)%Z /\
  (total_resources audit = 0%Z -> compliance_rate audit = PyInt 100) /\
  (non_compliant_count audit = 0%Z ->
   published (lambda_handler (tagged_account unset) idle).2
   = published idle) /\
  (non_compliant_count audit <> 0%Z ->
   exists message,
     published (lambda_handler (tagged_account unset) idle).2
     = published idle
       ++ [(subject_for (non_compliant_count audit), message)]).
Proof.
  apply (handler_counts_add_up (tagged_account unset) idle
           (lambda_handler (tagged_account unset) idle).2 audit).
  vm_compute. reflexivity.
Defined.

Lemma policies_without_rules_read_as_compliant_witness :
  lambda_handler (tagged_account (inr without_rules)) idle
  = (inr {| total_resources := 0;
            compliant_resources := 0;
            compliance_rate := PyInt 100;
            non_compliant_count := 0 |},
     {| writes := writes idle;
        published := published idle;
        ticks := S (ticks idle) |}).
Proof.
  apply (policies_without_rules_read_as_compliant
           (tagged_account (inr without_rules)) without_rules idle);
    reflexivity.
Defined.

(** The audit of the account under the default policies: the bucket is
    reported as missing every tag although it has them all, and the
    notification counts it. *)
Example audit_of_tagged_account :
  (lambda_handler (tagged_account unset) idle).1 = inr audit /\
  map fst (published (lambda_handler (tagged_account unset) idle).2)
  = ["AWS Tag Compliance Alert: 2 non-compliant resources"] /\
  map (fun item => (item_resource_arn item, compliance_status item))
    (writes (lambda_handler (tagged_account unset) idle).2)
  = [("ec2_instance:i-1", "compliant");
     ("ec2_instance:i-2", "non_compliant");
     ("ebs_volume:vol-1", "compliant");
     ("rds_instance:orders", "compliant");
     ("s3_bucket:logs", "non_compliant")].
Proof. vm_compute. auto. Qed.

End TagEnforcerScansProofs.
